(** * Verification model of the speed_connection_europe pipeline

    A shallow embedding of the weight-matrix builders
    ([matrix/grid_h3_matrix.py], [matrix/quadkey_h3_matrix.py]), of the
    matrix-based aggregations ([etl_population.py], [etl_internet.py]) and of
    the dataset fuser ([merge_datasets.py]), of the raster stage
    ([etl_health.py]), of the download, pipeline and validation scripts
    ([download_internet.py], [run_pipeline.py], [validate_output.py]) and of
    the column sets the stages write.

    Numbers are exact rationals [Q] (compared with [==]); a nullable polars
    value is an [option Q]; row keys (grid ids, quadkeys, H3 indices) are
    strings.  The geometry libraries (pyproj, shapely, h3, mercantile) are
    section variables: each call that may raise returns an [option]. *)

From Stdlib Require Import List Bool Arith Lia Permutation QArith Qfield Qround Qminmax Qabs Lqa.
From Stdlib Require String Ascii Orders Mergesort.
Import ListNotations.
Import (notations) String.
Import (notations) Ascii.

Abbreviation string := String.string.

Open Scope Q_scope.

(** ** Shared helpers *)

(** [a > b] on rationals, as a boolean. *)
Definition Qgtb (a b : Q) : bool := negb (Qle_bool a b).

(** Plain sum of a list of numbers. *)
Definition qsum (l : list Q) : Q := fold_right Qplus 0 l.

(** polars [sum()]: nulls are skipped, an all-null (or empty) column sums
    to 0. *)
Fixpoint pl_sum (l : list (option Q)) : Q :=
  match l with
  | [] => 0
  | Some x :: r => x + pl_sum r
  | None :: r => pl_sum r
  end.

(** polars [a * b] with null propagation. *)
Definition pl_mul (a : option Q) (b : Q) : option Q :=
  match a with Some x => Some (x * b) | None => None end.

(** Python float division: raises [ZeroDivisionError] on a zero divisor. *)
Definition py_div (a b : Q) : option Q :=
  if Qeq_bool b 0 then None else Some (a / b).

(** Distinct keys in order of first appearance (polars [group_by]). *)
Fixpoint dedup (l : list string) : list string :=
  match l with
  | [] => []
  | x :: r => x :: filter (fun y => negb (String.eqb x y)) (dedup r)
  end.

(** ** Weight-matrix builders *)

Module Matrix.

Record entry := mk_entry {
  src_key : string;   (** [grid_id] or [quadkey] *)
  h3_index : string;
  weight : Q
}.

Definition BATCH_SIZE : nat := 500.

(** [[data[i : i + BATCH_SIZE] for i in range(0, total, BATCH_SIZE)]] *)
Fixpoint batches_aux {A} (fuel : nat) (l : list A) : list (list A) :=
  match fuel with
  | O => []
  | S f =>
      match l with
      | [] => []
      | _ => firstn BATCH_SIZE l :: batches_aux f (skipn BATCH_SIZE l)
      end
  end.

Definition batches {A} (l : list A) : list (list A) := batches_aux (length l) l.

(** Sum of the weights of the entries of key [k]. *)
Definition key_weight_sum (m : list entry) (k : string) : Q :=
  qsum (map weight (filter (fun e => String.eqb (src_key e) k) m)).

(** [pl.col("weight") / pl.col("weight").sum().over(key)] *)
Definition normalize (m : list entry) : list entry :=
  map (fun e => mk_entry (src_key e) (h3_index e)
                         (weight e / key_weight_sum m (src_key e))) m.

(** Geometry collaborators (pyproj, shapely, h3, mercantile).  [None] is
    a raised exception. *)
Record GeoLib := {
  geom : Type;    (** a census grid polygon in EPSG:3035 *)
  poly : Type;    (** a shapely polygon in EPSG:4326 *)
  hpoly : Type;   (** the polygon of an H3 cell *)
  (** grid: exterior coords, [transformer.transform], [Polygon(coords_4326)] *)
  grid_to_4326 : geom -> option poly;
  (** quadkey: [quadkey_to_tile], [bounds], [box(...)] *)
  quadkey_box : string -> option poly;
  (** shapely [.area] *)
  area : poly -> Q;
  (** grid: [centroid], [latlng_to_cell], [grid_disk(center, K_RING_SIZE)] *)
  grid_candidates : poly -> option (list string);
  (** quadkey: bounds centre, [latlng_to_cell], [grid_disk(...)] *)
  box_candidates : poly -> option (list string);
  (** [Polygon(cell_to_boundary(h3_idx))] with swapped coordinates *)
  cell_polygon : string -> option hpoly;
  intersects : poly -> hpoly -> bool;
  (** [geom.intersection(h3_poly).area] *)
  intersection_area : poly -> hpoly -> option Q
}.

Section Builders.

Context (G : GeoLib).

(** The loop over the candidate cells of one source geometry.  An
    exception ends the loop; entries already appended stay in
    [batch_results]. *)
Fixpoint scan_candidates (k : string) (g : poly G) (garea : Q)
         (cs : list string) : list entry :=
  match cs with
  | [] => []
  | c :: cs' =>
      match cell_polygon G c with
      | None => []
      | Some hp =>
          if intersects G g hp then
            match intersection_area G g hp with
            | None => []
            | Some ia =>
                match py_div ia garea with
                | None => []
                | Some w =>
                    if Qgtb w (1 # 1000)
                    then mk_entry k c w :: scan_candidates k g garea cs'
                    else scan_candidates k g garea cs'
                end
            end
          else scan_candidates k g garea cs'
      end
  end.

(** Body of the [for grid_id, grid_geom_3035 in batch_data] loop. *)
Definition process_grid_source (s : string * geom G) : list entry :=
  let (grid_id, g3035) := s in
  match grid_to_4326 G g3035 with
  | None => []
  | Some g =>
      let grid_area := area G g in
      if Qle_bool grid_area 0 then []
      else match grid_candidates G g with
           | None => []
           | Some cs => scan_candidates grid_id g grid_area cs
           end
  end.

Definition process_grid_batch (b : list (string * geom G)) : list entry :=
  flat_map process_grid_source b.

(** Body of the [for qk in quadkeys] loop. *)
Definition process_quadkey (qk : string) : list entry :=
  match quadkey_box G qk with
  | None => []
  | Some g =>
      let qk_area := area G g in
      match box_candidates G g with
      | None => []
      | Some cs => scan_candidates qk g qk_area cs
      end
  end.

Definition process_quadkey_batch (b : list string) : list entry :=
  flat_map process_quadkey b.

(** [calculate_intersection_weights]: batches are processed and their
    results concatenated in batch order ([executor.map] keeps the order). *)
Definition grid_intersection_weights (data : list (string * geom G)) : list entry :=
  concat (map process_grid_batch (batches data)).

Definition quadkey_intersection_weights (qks : list string) : list entry :=
  concat (map process_quadkey_batch (batches qks)).

(** [main] after the cache check: [None] when nothing is written
    ([df_matrix.is_empty()]), otherwise the normalised matrix saved. *)
Definition finish_matrix (raw : list entry) : option (list entry) :=
  match raw with
  | [] => None
  | _ => Some (normalize raw)
  end.

Definition build_grid_matrix (data : list (string * geom G)) : option (list entry) :=
  finish_matrix (grid_intersection_weights data).

Definition build_quadkey_matrix (qks : list string) : option (list entry) :=
  finish_matrix (quadkey_intersection_weights qks).

End Builders.

(** No candidate cell overlaps the polygon [g] (with positive area). *)
Definition no_overlap (G : GeoLib) (g : poly G) (cs : list string) : Prop :=
  forall c hp ia, In c cs -> cell_polygon G c = Some hp ->
    intersects G g hp = true -> intersection_area G g hp = Some ia -> ia == 0.

Definition grid_zero_overlap (G : GeoLib) (g3035 : geom G) : Prop :=
  forall g cs, grid_to_4326 G g3035 = Some g -> grid_candidates G g = Some cs ->
    no_overlap G g cs.

Definition quadkey_zero_overlap (G : GeoLib) (qk : string) : Prop :=
  forall g cs, quadkey_box G qk = Some g -> box_candidates G g = Some cs ->
    no_overlap G g cs.

(** ** The matrix artifact on disk and the cache check of [main] *)

(** State of [OUTPUT_MATRIX]: absent, a file whose [write_parquet] was cut
    short, or a completely written matrix. *)
Inductive artifact :=
| Absent
| Partial
| Complete (m : list entry).

Inductive outcome :=
| ReportedExisting   (** the [Matrix already exists] branch returned *)
| ReadFailed         (** [pl.read_parquet] raised in that branch *)
| NothingWritten     (** no grid cells / no intersections *)
| Saved
| Interrupted.       (** the run died inside [write_parquet] *)

(** [OUTPUT_MATRIX.exists()] *)
Definition matrix_exists (a : artifact) : bool :=
  match a with Absent => false | _ => true end.

(** [pl.read_parquet(OUTPUT_MATRIX)]: a truncated parquet file has no
    footer and cannot be read. *)
Definition read_matrix (a : artifact) : option (list entry) :=
  match a with Complete m => Some m | _ => None end.

(** One run of [main] of [grid_h3_matrix.py]; [interrupted] says whether
    the process dies while [df_matrix.write_parquet(OUTPUT_MATRIX)] writes
    the file in place. *)
Definition grid_main (G : GeoLib) (interrupted : bool)
           (data : list (string * geom G)) (a : artifact) : outcome * artifact :=
  if matrix_exists a then
    match read_matrix a with
    | Some _ => (ReportedExisting, a)
    | None => (ReadFailed, a)
    end
  else
    match build_grid_matrix G data with
    | None => (NothingWritten, a)
    | Some m => if interrupted then (Interrupted, Partial) else (Saved, Complete m)
    end.

(** The same for [quadkey_h3_matrix.py]. *)
Definition quadkey_main (G : GeoLib) (interrupted : bool)
           (qks : list string) (a : artifact) : outcome * artifact :=
  if matrix_exists a then
    match read_matrix a with
    | Some _ => (ReportedExisting, a)
    | None => (ReadFailed, a)
    end
  else
    match build_quadkey_matrix G qks with
    | None => (NothingWritten, a)
    | Some m => if interrupted then (Interrupted, Partial) else (Saved, Complete m)
    end.

End Matrix.

(** ** [etl_population.convert_to_h3_matrix] *)

Module Population.

Import Matrix.

(** A census grid row as read by [gpd.read_file]: its [GRD_ID] and the
    value of each column ([None] for a null). *)
Record census_row := mk_census {
  GRD_ID : string;
  census_val : string -> option Q
}.

Definition population_cols : list string :=
  ["T"; "M"; "F"; "Y_LT15"; "Y_1564"; "Y_GE65";
   "EMP"; "NAT"; "EU_OTH"; "OTH"; "SAME"; "CHG_IN"; "CHG_OUT"]%string.

Definition is_population_col (c : string) : bool :=
  existsb (String.eqb c) population_cols.

(** The columns aggregated: the population columns and [LAND_SURFACE]
    (all present in the census file). *)
Definition aggregated_col (c : string) : bool :=
  is_population_col c || String.eqb c "LAND_SURFACE".

(** [.replace(-9999, None)] on one value. *)
Definition replace_nodata (v : option Q) : option Q :=
  match v with
  | Some x => if Qeq_bool x (-9999) then None else Some x
  | None => None
  end.

(** [for col in available_pop_cols: gdf_clean[col] = gdf_clean[col].replace(-9999, None)] *)
Definition clean_row (r : census_row) : census_row :=
  mk_census (GRD_ID r)
    (fun c => if is_population_col c then replace_nodata (census_val r c)
              else census_val r c).

(** [df_grid.join(matrix, on='grid_id', how='inner')] *)
Definition join_matrix (rows : list census_row) (m : list entry)
  : list (census_row * entry) :=
  flat_map (fun r => map (pair r)
              (filter (fun e => String.eqb (src_key e) (GRD_ID r)) m)) rows.

(** [pl.col(col) * pl.col('weight')] *)
Definition w_col (c : string) (je : census_row * entry) : option Q :=
  pl_mul (census_val (fst je) c) (weight (snd je)).

(** One output hexagon: its index and the value of each column. *)
Record h3_cell := mk_cell {
  cell_index : string;
  cell_val : string -> option Q
}.

(** [joined.group_by('h3_index').agg([pl.col(f'w_{col}').sum() ...])] *)
Definition aggregate (joined : list (census_row * entry)) : list h3_cell :=
  map (fun h =>
         mk_cell h (fun c =>
           if aggregated_col c then
             Some (pl_sum (map (w_col c)
                    (filter (fun je => String.eqb (h3_index (snd je)) h) joined)))
           else None))
      (dedup (map (fun je => h3_index (snd je)) joined)).

Definition convert_to_h3_matrix (gdf : list census_row) (m : list entry)
  : list h3_cell :=
  aggregate (join_matrix (map clean_row gdf) m).

(** The value of column [c] of hexagon [h] in the output, if the hexagon is
    there. *)
Definition lookup_cell (out : list h3_cell) (h : string) (c : string)
  : option (option Q) :=
  match find (fun x => String.eqb (cell_index x) h) out with
  | Some x => Some (cell_val x c)
  | None => None
  end.

End Population.

(** ** [etl_internet]: per-quarter aggregation, merge and rollups *)

Module Internet.

Import Matrix.

(** A row of an Ookla quarter file: its quadkey and the value of each
    column. *)
Record speed_row := mk_speed {
  quadkey : string;
  speed_val : string -> option Q
}.

(** The Ookla files carry all five columns. *)
Definition avg_cols : list string := ["avg_d_kbps"; "avg_u_kbps"; "avg_lat_ms"]%string.
Definition count_cols : list string := ["tests"; "devices"]%string.

Definition in_cols (cs : list string) (c : string) : bool := existsb (String.eqb c) cs.

(** [df.join(matrix, on="quadkey", how="inner")] *)
Definition join_matrix (rows : list speed_row) (m : list entry)
  : list (speed_row * entry) :=
  flat_map (fun r => map (pair r)
              (filter (fun e => String.eqb (src_key e) (quadkey r)) m)) rows.

(** [pl.col(c) * pl.col("weight")] *)
Definition w_col (c : string) (je : speed_row * entry) : option Q :=
  pl_mul (speed_val (fst je) c) (weight (snd je)).

(** polars float division [sum_c / weight_sum]: never null.  The divisor is
    a sum of matrix weights, which are positive. *)
Definition pl_div (a b : Q) : option Q := Some (a / b).

(** One hexagon of a quarter table (before the column renaming). *)
Record quarter_cell := mk_qcell {
  q_index : string;
  q_val : string -> option Q
}.

Definition cell_group (joined : list (speed_row * entry)) (h : string)
  : list (speed_row * entry) :=
  filter (fun je => String.eqb (h3_index (snd je)) h) joined.

(** [process_quarter_file]: [weight_sum] is the sum of all the weights of
    the cell; [sum_c] the polars sum of [w_c]; averages for [avg_cols],
    plain sums for [count_cols]. *)
Definition process_quarter (rows : list speed_row) (m : list entry)
  : list quarter_cell :=
  let joined := join_matrix rows m in
  map (fun h =>
         let g := cell_group joined h in
         let weight_sum := qsum (map (fun je => weight (snd je)) g) in
         mk_qcell h (fun c =>
           if in_cols avg_cols c then pl_div (pl_sum (map (w_col c) g)) weight_sum
           else if in_cols count_cols c then Some (pl_sum (map (w_col c) g))
           else None))
      (dedup (map (fun je => h3_index (snd je)) joined)).

(** The value of column [c] of hexagon [h] in a quarter table, if the
    hexagon is there. *)
Definition lookup_qcell (out : list quarter_cell) (h c : string)
  : option (option Q) :=
  match find (fun x => String.eqb (q_index x) h) out with
  | Some x => Some (q_val x c)
  | None => None
  end.

(** Decimal rendering of a natural number, as in an f-string. *)
Fixpoint digits_aux (fuel n : nat) (acc : string) : string :=
  match fuel with
  | O => acc
  | S f =>
      let acc' := String.String (Ascii.ascii_of_nat (48 + Nat.modulo n 10)) acc in
      if Nat.ltb n 10 then acc' else digits_aux f (Nat.div n 10) acc'
  end.

Definition nat_str (n : nat) : string := digits_aux (S n) n "".

(** A cached quarter table [<year>_q<quarter>_<data_type>_h3res8]. *)
Record cache_file := mk_cache {
  data_type : string;
  year : nat;
  quarter : nat;
  table : list quarter_cell
}.

(** [prefix = f"{data_type}_{year}_q{quarter}"], column [f"{prefix}_{col}"] *)
Definition col_name (f : cache_file) (c : string) : string :=
  (data_type f ++ "_" ++ nat_str (year f) ++ "_q" ++ nat_str (quarter f)
   ++ "_" ++ c)%string.

Definition quarter_value (f : cache_file) (h c : string) : option Q :=
  match find (fun x => String.eqb (q_index x) h) (table f) with
  | Some x => q_val x c
  | None => None
  end.

(** The columns contributed by one cache file to the row of [h] in
    [result.join(ldf, on="h3_index", how="left")]. *)
Definition left_join_cols (f : cache_file) (h : string) : list (string * option Q) :=
  match find (fun x => String.eqb (q_index x) h) (table f) with
  | Some x => map (fun c => (col_name f c, q_val x c)) (avg_cols ++ count_cols)
  | None => map (fun c => (col_name f c, None)) (avg_cols ++ count_cols)
  end.

(** [all_h3]: every hexagon of every cache file. *)
Definition all_h3 (files : list cache_file) : list string :=
  dedup (flat_map (fun f => map q_index (table f)) files).

(** The quarter columns of the merged row of [h], in join order. *)
Definition merged_row (files : list cache_file) (h : string)
  : list (string * option Q) :=
  flat_map (fun f => left_join_cols f h) files.

Definition QUARTERS : list (nat * nat) :=
  [(2019, 1); (2019, 2); (2019, 3); (2019, 4);
   (2020, 1); (2020, 2); (2020, 3); (2020, 4);
   (2021, 1); (2021, 2); (2021, 3); (2021, 4);
   (2022, 1); (2022, 2); (2022, 3); (2022, 4);
   (2023, 1); (2023, 2); (2023, 3); (2023, 4);
   (2024, 1); (2024, 2); (2024, 3); (2024, 4);
   (2025, 1); (2025, 2); (2025, 3)]%nat.

Definition DATA_TYPES : list string := ["fixed"; "mobile"]%string.

(** Python's [s.startswith(p)] and [p in s]. *)
Definition startswith (p s : string) : bool := String.prefix p s.
Definition contains (p s : string) : bool :=
  match String.index 0 p s with Some _ => true | None => false end.

(** The twelve column selections of [main], in the order of [new_cols]. *)
Definition rollup_selections : list (string * (string -> bool)) :=
  [("fixed_download_2023", fun col => startswith "fixed_2023_" col && contains "avg_d_kbps" col);
   ("fixed_upload_2023", fun col => startswith "fixed_2023_" col && contains "avg_u_kbps" col);
   ("fixed_latency_2023", fun col => startswith "fixed_2023_" col && contains "avg_lat_ms" col);
   ("fixed_download_total", fun col => startswith "fixed_" col && contains "avg_d_kbps" col && contains "_q" col);
   ("fixed_upload_total", fun col => startswith "fixed_" col && contains "avg_u_kbps" col && contains "_q" col);
   ("fixed_latency_total", fun col => startswith "fixed_" col && contains "avg_lat_ms" col && contains "_q" col);
   ("mobile_download_2023", fun col => startswith "mobile_2023_" col && contains "avg_d_kbps" col);
   ("mobile_upload_2023", fun col => startswith "mobile_2023_" col && contains "avg_u_kbps" col);
   ("mobile_latency_2023", fun col => startswith "mobile_2023_" col && contains "avg_lat_ms" col);
   ("mobile_download_total", fun col => startswith "mobile_" col && contains "avg_d_kbps" col && contains "_q" col);
   ("mobile_upload_total", fun col => startswith "mobile_" col && contains "avg_u_kbps" col && contains "_q" col);
   ("mobile_latency_total", fun col => startswith "mobile_" col && contains "avg_lat_ms" col && contains "_q" col)]%string.

Fixpoint non_null (l : list (option Q)) : list Q :=
  match l with
  | [] => []
  | Some x :: r => x :: non_null r
  | None :: r => non_null r
  end.

(** polars [.list.mean()]: mean of the non-null elements, null if none. *)
Definition pl_list_mean (l : list (option Q)) : option Q :=
  match non_null l with
  | [] => None
  | xs => Some (qsum xs / inject_Z (Z.of_nat (List.length xs)))
  end.

(** [new_cols]: a rollup column is added only when its column list is not
    empty; its value is [pl.concat_list(cols).list.mean()]. *)
Definition rollups (row : list (string * option Q)) : list (string * option Q) :=
  flat_map (fun sel =>
              match filter (fun nv => snd sel (fst nv)) row with
              | [] => []
              | cols => [(fst sel, pl_list_mean (map snd cols))]
              end) rollup_selections.

(** The rollups as the spec describes them: for a modality, a quantity and
    a period (2023, or every quarter), the unweighted mean of the cell's
    available quarterly averages. *)
Inductive period := Year2023 | AllQuarters.

Definition in_period (p : period) (y : nat) : bool :=
  match p with Year2023 => Nat.eqb y 2023 | AllQuarters => true end.

Definition spec_rollup_table : list (string * string * string * period) :=
  [("fixed_download_2023", "fixed", "avg_d_kbps", Year2023);
   ("fixed_upload_2023", "fixed", "avg_u_kbps", Year2023);
   ("fixed_latency_2023", "fixed", "avg_lat_ms", Year2023);
   ("fixed_download_total", "fixed", "avg_d_kbps", AllQuarters);
   ("fixed_upload_total", "fixed", "avg_u_kbps", AllQuarters);
   ("fixed_latency_total", "fixed", "avg_lat_ms", AllQuarters);
   ("mobile_download_2023", "mobile", "avg_d_kbps", Year2023);
   ("mobile_upload_2023", "mobile", "avg_u_kbps", Year2023);
   ("mobile_latency_2023", "mobile", "avg_lat_ms", Year2023);
   ("mobile_download_total", "mobile", "avg_d_kbps", AllQuarters);
   ("mobile_upload_total", "mobile", "avg_u_kbps", AllQuarters);
   ("mobile_latency_total", "mobile", "avg_lat_ms", AllQuarters)]%string.

Definition available_mean (vals : list (option Q)) : option Q :=
  let av := flat_map (fun v => match v with Some x => [x] | None => [] end) vals in
  match av with
  | [] => None
  | _ => Some (qsum av / inject_Z (Z.of_nat (List.length av)))
  end.

Definition spec_rollups (files : list cache_file) (h : string)
  : list (string * option Q) :=
  flat_map (fun '(alias, t, qty, p) =>
              match filter (fun f => String.eqb (data_type f) t && in_period p (year f)) files with
              | [] => []
              | fs => [(alias, available_mean (map (fun f => quarter_value f h qty) fs))]
              end) spec_rollup_table.

End Internet.

(** ** [merge_datasets]: the dataset fuser *)

Module Fuser.

(** A hexagon of the population table after [prepare_population_data]:
    [pop_total] and the other twelve population columns. *)
Record pop_row := mk_pop {
  p_h3 : string;
  pop_total : option Q;
  pop_rest : list (option Q)
}.

(** [prepare_health_data]: [accessibility_mean] renamed [health_distance]. *)
Record health_row := mk_health {
  hl_h3 : string;
  health_distance : option Q
}.

(** [prepare_internet_data]: one value per rollup column. *)
Record internet_row := mk_net {
  i_h3 : string;
  i_vals : list (option Q)
}.

Record merged_row := mk_merged {
  m_h3 : string;
  m_pop_total : option Q;
  m_pop_rest : list (option Q);
  m_health : option Q;
  m_internet : list (option Q)
}.

(** [pop_df.join(health_df, on='h3_index', how='inner')] *)
Definition inner_join (pop : list pop_row) (health : list health_row)
  : list (pop_row * health_row) :=
  flat_map (fun p => map (pair p)
              (filter (fun hl => String.eqb (hl_h3 hl) (p_h3 p)) health)) pop.

(** [merged.join(internet_df, on='h3_index', how='left')]; [icols] are the
    internet columns of [internet_df]: an unmatched row gets a null in
    each of them. *)
Definition left_join (icols : list string) (ph : list (pop_row * health_row))
           (net : list internet_row) : list merged_row :=
  flat_map (fun '(p, hl) =>
              match filter (fun n => String.eqb (i_h3 n) (p_h3 p)) net with
              | [] => [mk_merged (p_h3 p) (pop_total p) (pop_rest p)
                                 (health_distance hl) (map (fun _ => None) icols)]
              | ns => map (fun n => mk_merged (p_h3 p) (pop_total p) (pop_rest p)
                                             (health_distance hl) (i_vals n)) ns
              end) ph.

Definition merge_datasets (icols : list string) (pop : list pop_row)
           (health : list health_row) (net : list internet_row) : list merged_row :=
  left_join icols (inner_join pop health) net.

(** polars [(pl.col('pop_total') > 0) & pl.col('health_distance').is_not_null()];
    a null comparison drops the row. *)
Definition keep_row (r : merged_row) : bool :=
  match m_pop_total r, m_health r with
  | Some t, Some _ => Qgtb t 0
  | _, _ => false
  end.

Definition filter_and_finalize (rows : list merged_row) : list merged_row :=
  filter keep_row rows.

(** [round(0)] of a float: half away from zero. *)
Definition round0 (x : Q) : Z :=
  if Qle_bool 0 x then Qfloor (x + (1 # 2)) else - Qfloor (- x + (1 # 2)).

(** [round(2)] *)
Definition round2 (x : Q) : Q := inject_Z (round0 (x * 100)) / 100.

Record final_row := mk_final {
  f_h3 : string;
  f_pop_total : option Z;
  f_pop_rest : list (option Z);
  f_health : option Q;
  f_internet : list (option Q)
}.

(** [save_output]: population columns [.round(0).cast(pl.Int64)], float
    columns [.round(2)]. *)
Definition save_row (r : merged_row) : final_row :=
  mk_final (m_h3 r)
    (option_map round0 (m_pop_total r))
    (map (option_map round0) (m_pop_rest r))
    (option_map round2 (m_health r))
    (map (option_map round2) (m_internet r)).

Definition save_output (rows : list merged_row) : list final_row :=
  map save_row rows.

(** [main] of [merge_datasets.py] from the prepared tables. *)
Definition fuse (icols : list string) (pop : list pop_row)
           (health : list health_row) (net : list internet_row) : list final_row :=
  save_output (filter_and_finalize (merge_datasets icols pop health net)).

End Fuser.

(** ** [etl_health]: raster pixels to H3 cells *)

Module Health.

Definition CHUNK_ROWS : nat := 1000.
Definition H3_RESOLUTION : nat := 8.

(** The two bands of the healthcare raster as [rasterio] reads them. *)
Record raster := mk_raster {
  height : nat;
  width : nat;
  nodata : option Z;          (** [src.nodata]; [None] when the file has none *)
  band1 : nat -> nat -> Z;    (** [band1[row, col]] *)
  band2 : nat -> nat -> Z
}.

(** [h3_values]: H3 index to the lists of band-1 and band-2 values, in
    insertion order (a Python dict). *)
Definition h3_dict : Type := list (string * (list Z * list Z)).

(** [if h3_index not in h3_values: ...] then the two [append]s. *)
Fixpoint dict_append (d : h3_dict) (k : string) (v1 v2 : Z) : h3_dict :=
  match d with
  | [] => [(k, ([v1], [v2]))]
  | (k', (l1, l2)) :: r =>
      if String.eqb k' k then (k', (l1 ++ [v1], l2 ++ [v2])) :: r
      else (k', (l1, l2)) :: dict_append r k v1 v2
  end.

Section Process.

Context (src : raster).
(** [h3.latlng_to_cell] at the pixel centre (after [rasterio.transform.xy]
    and [transformer.transform]); [None] when it raises. *)
Context (cell_of : nat -> nat -> option string).

(** [band1 != nodata]; numpy compares every number unequal to [None]. *)
Definition valid (v : Z) : bool :=
  match nodata src with Some nd => negb (Z.eqb v nd) | None => true end.

(** [(height + CHUNK_ROWS - 1) // CHUNK_ROWS] *)
Definition num_chunks : nat := Nat.div (height src + CHUNK_ROWS - 1)%nat CHUNK_ROWS.

(** [row_start], [row_end] *)
Definition chunk_bounds (chunk_idx : nat) : nat * nat :=
  let row_start := (chunk_idx * CHUNK_ROWS)%nat in
  (row_start, Nat.min (row_start + CHUNK_ROWS)%nat (height src)).

(** The rows of the [Window(0, row_start, width, row_end - row_start)]. *)
Definition chunk_rows (chunk_idx : nat) : list nat :=
  let '(row_start, row_end) := chunk_bounds chunk_idx in
  seq row_start (row_end - row_start)%nat.

(** [np.where(valid_mask)] with [global_rows]: the valid pixels in
    row-major order. *)
Definition valid_pixels (rows : list nat) : list (nat * nat) :=
  flat_map (fun r => map (pair r)
              (filter (fun c => valid (band1 src r c)) (seq 0 (width src)))) rows.

(** One iteration of [for i in range(len(lons))]; a raising
    [latlng_to_cell] skips the pixel. *)
Definition add_pixel (st : h3_dict * nat) (px : nat * nat) : h3_dict * nat :=
  let '(d, total) := st in
  let '(r, c) := px in
  match cell_of r c with
  | None => st
  | Some h => (dict_append d h (band1 src r c) (band2 src r c), S total)
  end.

(** One chunk; [if valid_count == 0: continue]. *)
Definition process_chunk (st : h3_dict * nat) (chunk_idx : nat) : h3_dict * nat :=
  match valid_pixels (chunk_rows chunk_idx) with
  | [] => st
  | px => fold_left add_pixel px st
  end.

(** [process_raster_to_h3]: [(h3_values, total_pixels)]. *)
Definition process_raster_to_h3 : h3_dict * nat :=
  fold_left process_chunk (seq 0 num_chunks) ([], 0%nat).

End Process.

Module ZOrder <: Orders.TotalLeBool.
Definition t := Z.
Definition leb := Z.leb.
Lemma leb_total : forall x y, leb x y = true \/ leb y x = true.
Proof.
  intros x y. unfold leb. destruct (Z.leb x y) eqn:E; [left; reflexivity|].
  right. apply Z.leb_gt in E. apply Z.leb_le. lia.
Qed.
End ZOrder.

Module ZSort := Mergesort.Sort ZOrder.

(** numpy on an integer array. *)
Definition np_sum (l : list Z) : Z := fold_right Z.add 0%Z l.

Definition np_mean (l : list Z) : Q :=
  inject_Z (np_sum l) / inject_Z (Z.of_nat (List.length l)).

Definition np_median (l : list Z) : Q :=
  let s := ZSort.sort l in
  let n := List.length s in
  if Nat.odd n then inject_Z (nth (Nat.div n 2) s 0%Z)
  else (inject_Z (nth (Nat.div n 2 - 1)%nat s 0%Z) + inject_Z (nth (Nat.div n 2) s 0%Z)) / 2.

(** [np.min], [np.max]: [ValueError] ([None]) on an empty array. *)
Definition np_min (l : list Z) : option Z :=
  match l with [] => None | x :: r => Some (fold_left Z.min r x) end.

Definition np_max (l : list Z) : option Z :=
  match l with [] => None | x :: r => Some (fold_left Z.max r x) end.

(** [np.std] (ddof 0), [sqrt] being the float square root. *)
Definition np_std (sqrt : Q -> Q) (l : list Z) : Q :=
  let m := np_mean l in
  sqrt (qsum (map (fun x => (inject_Z x - m) * (inject_Z x - m)) l)
        / inject_Z (Z.of_nat (List.length l))).

(** A row of the health output. *)
Record health_cell := mk_hcell {
  h3_index : string;
  h3_resolution : nat;
  lat : Q;
  lon : Q;
  accessibility_mean : Q;
  accessibility_median : Q;
  accessibility_min : Z;
  accessibility_max : Z;
  accessibility_std : Q;
  band2_sum : Z;
  band2_mean : Q;
  band2_median : Q;
  pixel_count : nat
}.

(** [[x1, ..., xn]] when no element raised. *)
Fixpoint all_some {A} (l : list (option A)) : option (list A) :=
  match l with
  | [] => Some []
  | Some x :: r => match all_some r with Some xs => Some (x :: xs) | None => None end
  | None :: _ => None
  end.

Section Aggregate.

(** [h3.cell_to_latlng] and the float square root. *)
Context (cell_to_latlng : string -> Q * Q) (sqrt : Q -> Q).

(** One record of [aggregate_h3_values], with its [lat] and [lon]. *)
Definition cell_record (kv : string * (list Z * list Z)) : option health_cell :=
  let '(h, (vals1, vals2)) := kv in
  match np_min vals1, np_max vals1 with
  | Some mn, Some mx =>
      Some (mk_hcell h H3_RESOLUTION (fst (cell_to_latlng h)) (snd (cell_to_latlng h))
              (np_mean vals1) (np_median vals1) mn mx (np_std sqrt vals1)
              (np_sum vals2) (np_mean vals2) (np_median vals2) (List.length vals1))
  | _, _ => None
  end.

(** [aggregate_h3_values]: [None] when it raises.  With no record,
    [pl.DataFrame([])] has no column and [df['h3_index']] raises. *)
Definition aggregate_h3_values (d : h3_dict) : option (list health_cell) :=
  match all_some (map cell_record d) with
  | None => None
  | Some [] => None
  | Some recs => Some recs
  end.

End Aggregate.

End Health.

(** ** [download_internet]: fetching the Ookla quarter files *)

Module Download.

Definition QUARTERS : list (nat * nat) :=
  [(2019, 1); (2019, 2); (2019, 3); (2019, 4);
   (2020, 1); (2020, 2); (2020, 3); (2020, 4);
   (2021, 1); (2021, 2); (2021, 3); (2021, 4);
   (2022, 1); (2022, 2); (2022, 3); (2022, 4);
   (2023, 1); (2023, 2); (2023, 3); (2023, 4);
   (2024, 1); (2024, 2); (2024, 3); (2024, 4);
   (2025, 1); (2025, 2); (2025, 3)]%nat.

(** [quarter_dates[quarter]]; [None] is the [KeyError]. *)
Definition quarter_dates (q : nat) : option string :=
  if Nat.eqb q 1 then Some "01-01"%string
  else if Nat.eqb q 2 then Some "04-01"%string
  else if Nat.eqb q 3 then Some "07-01"%string
  else if Nat.eqb q 4 then Some "10-01"%string
  else None.

Inductive download_result :=
| KeyError                        (** raised by [quarter_dates[quarter]] *)
| Returned (path : option string).

(** [download_quarter]; [file_exists] is [Path(local_file).exists()],
    [s3_download key local_file] says whether [s3.download_file] succeeds. *)
Definition download_quarter (file_exists : string -> bool)
           (s3_download : string -> string -> bool)
           (year quarter : nat) (data_type output_dir : string) : download_result :=
  match quarter_dates quarter with
  | None => KeyError
  | Some md =>
      let date := (Internet.nat_str year ++ "-" ++ md)%string in
      let key := ("parquet/performance/type=" ++ data_type ++ "/year=" ++ Internet.nat_str year
                  ++ "/quarter=" ++ Internet.nat_str quarter ++ "/" ++ date ++ "_performance_"
                  ++ data_type ++ "_tiles.parquet")%string in
      let local_file := (output_dir ++ "/" ++ Internet.nat_str year ++ "_q"
                         ++ Internet.nat_str quarter ++ "_" ++ data_type ++ ".parquet")%string in
      if file_exists local_file then Returned (Some local_file)
      else if s3_download key local_file then Returned (Some local_file)
      else Returned None
  end.

(** [main]: [(downloaded, failed)], [None] if an exception escapes.  A
    returned path is never empty, so [if result:] is [result is not None]. *)
Definition main (file_exists : string -> bool) (s3_download : string -> string -> bool)
           (data_type : string) : option (nat * nat) :=
  fold_left (fun acc yq =>
               match acc with
               | None => None
               | Some (downloaded, failed) =>
                   match download_quarter file_exists s3_download (fst yq) (snd yq)
                           data_type "data/internet" with
                   | KeyError => None
                   | Returned (Some _) => Some (S downloaded, failed)
                   | Returned None => Some (downloaded, S failed)
                   end
               end) QUARTERS (Some (0, 0)%nat).

End Download.

(** ** File names of the internet stage *)

Module Files.

(** Python's [s.endswith(suffix)]. *)
Definition endswith (suffix s : string) : bool :=
  let n := String.length s in
  let m := String.length suffix in
  Nat.leb m n && String.eqb (String.substring (n - m) m s) suffix.

(** Position of the last ['.'] of a name. *)
Fixpoint rfind_dot (s : string) (i : nat) (acc : option nat) : option nat :=
  match s with
  | String.EmptyString => acc
  | String.String a r =>
      rfind_dot r (S i) (if Ascii.eqb a "."%char then Some i else acc)
  end.

(** [PurePath.stem]: the name without its suffix, the suffix starting at
    the last dot when [0 < i < len(name) - 1]. *)
Definition path_stem (name : string) : string :=
  match rfind_dot name 0 None with
  | Some i =>
      if Nat.ltb 0 i && Nat.ltb i (String.length name - 1)
      then String.substring 0 i name else name
  | None => name
  end.

Definition INPUT_DIR : string := "data/internet".
Definition H3_RESOLUTION : nat := 8.

(** [f"{year}_q{quarter}_{data_type}.parquet"] in [etl_internet.main]. *)
Definition file_name (year quarter : nat) (data_type : string) : string :=
  (Internet.nat_str year ++ "_q" ++ Internet.nat_str quarter ++ "_" ++ data_type
   ++ ".parquet")%string.

(** [Path(INPUT_DIR) / file_name] *)
Definition input_path (year quarter : nat) (data_type : string) : string :=
  (INPUT_DIR ++ "/" ++ file_name year quarter data_type)%string.

(** [process_quarter_file]: [f"{file_path.stem}_h3res{H3_RESOLUTION}.parquet"]. *)
Definition cache_name (name : string) : string :=
  (path_stem name ++ "_h3res" ++ Internet.nat_str H3_RESOLUTION ++ ".parquet")%string.

(** [etl_internet.OUTPUT_FILE] and [quadkey_h3_matrix.OUTPUT_MATRIX], by name. *)
Definition INTERNET_OUTPUT_NAME : string := "internet_speed_h3_res8.parquet".
Definition MATRIX_OUTPUT_NAME : string := "matrix_quadkey_h3_weights.parquet".

(** [get_all_unique_quadkeys]: a file of the folder is scanned when it
    matches [*.parquet] and its stem contains none of the three markers. *)
Definition scanned (name : string) : bool :=
  let st := path_stem name in
  endswith ".parquet" name
  && negb (Internet.contains "h3res" st)
  && negb (Internet.contains "matrix_quadkey_h3_weights" st)
  && negb (Internet.contains "internet_speed_h3_res8" st).

End Files.

(** ** Column sets of the stage outputs and of the fused dataset *)

Module Schema.

Import Internet.

Definition mem (c : string) (cols : list string) : bool := existsb (String.eqb c) cols.

(** polars [left.join(right, on='h3_index')]: the right frame's columns
    other than the key follow the left ones, a clashing name getting the
    suffix [_right]. *)
Definition join_columns (left right : list string) : list string :=
  left ++ map (fun c => if mem c left then (c ++ "_right")%string else c)
                (filter (fun c => negb (String.eqb c "h3_index")) right).

(** [df.with_columns(...)] with new names: they are appended, an existing
    name is replaced in place. *)
Definition with_columns (cols new : list string) : list string :=
  cols ++ filter (fun c => negb (mem c cols)) new.

(** [df.select(cols)]: [None] when a column is missing. *)
Definition select (cols sel : list string) : option (list string) :=
  if forallb (fun c => mem c cols) sel then Some sel else None.

(** The columns of the population output of [convert_to_h3_matrix] for a
    census file with columns [gdf_cols]. *)
Definition population_output_columns (gdf_cols : list string) : list string :=
  ["h3_index"; "h3_resolution"; "lat"; "lon"; "cell_count"]%string
  ++ filter (fun c => mem c gdf_cols) Population.population_cols
  ++ (if mem "LAND_SURFACE" gdf_cols then ["LAND_SURFACE"%string] else []).

(** The columns of the health output ([aggregate_h3_values]). *)
Definition health_output_columns : list string :=
  ["h3_index"; "h3_resolution"; "lat"; "lon"; "accessibility_mean";
   "accessibility_median"; "accessibility_min"; "accessibility_max";
   "accessibility_std"; "band2_sum"; "band2_mean"; "band2_median"; "pixel_count"]%string.

(** The columns of a cached quarter table: [h3_index] and the renamed
    quarter columns. *)
Definition cache_columns (f : cache_file) : list string :=
  "h3_index"%string :: map (col_name f) (avg_cols ++ count_cols).

Definition quarter_columns (files : list cache_file) : list string :=
  flat_map (fun f => map (col_name f) (avg_cols ++ count_cols)) files.

(** [new_cols]: the alias of each selection whose column list is not empty. *)
Definition new_col_names (cols : list string) : list string :=
  flat_map (fun sel => if existsb (snd sel) cols then [fst sel] else []) rollup_selections.

Definition is_aggregate (c : string) : bool :=
  Files.endswith "_2023" c || Files.endswith "_total" c.

(** The columns written by [etl_internet.main]: the left joins onto
    [all_h3], the metadata columns, the rollups, then
    [select(meta_cols + agg_cols)]. *)
Definition internet_output_columns (files : list cache_file) : option (list string) :=
  let joined := fold_left (fun acc f => join_columns acc (cache_columns f)) files ["h3_index"%string] in
  let with_meta := with_columns joined ["lat"; "lon"; "h3_resolution"]%string in
  let result := with_columns with_meta (new_col_names joined) in
  select result (["h3_index"; "h3_resolution"; "lat"; "lon"]%string ++ filter is_aggregate result).

(** [prepare_population_data]: [rename_map] and the selection. *)
Definition rename_map : list (string * string) :=
  [("T", "pop_total"); ("M", "pop_male"); ("F", "pop_female");
   ("Y_LT15", "pop_age_lt15"); ("Y_1564", "pop_age_15_64"); ("Y_GE65", "pop_age_ge65");
   ("EMP", "pop_employed"); ("NAT", "pop_national"); ("EU_OTH", "pop_eu_other");
   ("OTH", "pop_other"); ("SAME", "pop_same_residence"); ("CHG_IN", "pop_change_in");
   ("CHG_OUT", "pop_change_out")]%string.

Definition rename (c : string) : string :=
  match find (fun kv => String.eqb (fst kv) c) rename_map with
  | Some kv => snd kv
  | None => c
  end.

(** [select(keep_cols).rename(rename_map)]; the keys missing from the
    frame are not renamed (the frames below carry every key). *)
Definition prepare_population_columns (cols : list string) : option (list string) :=
  match select cols (["h3_index"; "lat"; "lon"]%string
                     ++ filter (fun k => mem k cols) (map fst rename_map)) with
  | Some keep => Some (map rename keep)
  | None => None
  end.

Definition prepare_health_columns (cols : list string) : option (list string) :=
  match select cols ["h3_index"; "accessibility_mean"]%string with
  | Some _ => Some ["h3_index"; "health_distance"]%string
  | None => None
  end.

Definition prepare_internet_columns (cols : list string) : option (list string) :=
  select cols ("h3_index"%string :: filter is_aggregate cols).

(** [filter_and_finalize]: the column order. *)
Definition metadata_cols : list string := ["h3_index"; "lat"; "lon"]%string.

Definition fuser_population_cols : list string :=
  ["pop_total"; "pop_male"; "pop_female"; "pop_age_lt15"; "pop_age_15_64";
   "pop_age_ge65"; "pop_employed"; "pop_national"; "pop_eu_other"; "pop_other";
   "pop_same_residence"; "pop_change_in"; "pop_change_out"]%string.

(** [for col in ordered_cols: if col in df.columns and col not in seen: ...] *)
Fixpoint unique_in (cols seen l : list string) : list string :=
  match l with
  | [] => []
  | c :: r =>
      if mem c cols && negb (mem c seen) then c :: unique_in cols (c :: seen) r
      else unique_in cols seen r
  end.

Definition finalize_columns (cols : list string) : list string :=
  unique_in cols []
    (metadata_cols ++ fuser_population_cols ++ ["health_distance"%string]
     ++ filter is_aggregate cols).

(** [merge_datasets.main] on the columns: the three prepared frames, the
    two joins and [filter_and_finalize] ([save_output] keeps the columns). *)
Definition fused_columns (gdf_cols : list string) (files : list cache_file)
  : option (list string) :=
  match prepare_population_columns (population_output_columns gdf_cols),
        prepare_health_columns health_output_columns,
        internet_output_columns files with
  | Some pop, Some health, Some net =>
      match prepare_internet_columns net with
      | Some inet => Some (finalize_columns (join_columns (join_columns pop health) inet))
      | None => None
      end
  | _, _, _ => None
  end.

End Schema.

(** ** [run_pipeline] *)

Module Pipeline.

Definition STEPS : list (string * string) :=
  [("matrix/grid_h3_matrix.py", "Grid -> H3 Weight Matrix");
   ("matrix/quadkey_h3_matrix.py", "Quadkey -> H3 Weight Matrix");
   ("etl_population.py", "ETL Population");
   ("etl_health.py", "ETL Health");
   ("etl_internet.py", "ETL Internet");
   ("merge_datasets.py", "Merge Datasets")]%string.

Inductive exit_status := Completed | Exited (code : Z).

(** [run_script]: [subprocess.run(..., check=True)] raises
    [CalledProcessError] on a non-zero exit status. *)
Definition run_script (exit_code : string -> Z) (script_path : string) : bool :=
  Z.eqb (exit_code script_path) 0.

(** The scripts run so far and how [main] ends ([sys.exit(1)] at the first
    failure). *)
Fixpoint run_steps (exit_code : string -> Z) (steps : list (string * string))
  : list string * exit_status :=
  match steps with
  | [] => ([], Completed)
  | (p, _) :: r =>
      if run_script exit_code p then
        let '(ran, st) := run_steps exit_code r in (p :: ran, st)
      else ([p], Exited 1)
  end.

Definition main (exit_code : string -> Z) : list string * exit_status :=
  run_steps exit_code STEPS.

End Pipeline.

(** ** [validate_output] *)

Module Validate.

(** A frame read from the parquet file: its row count and columns. *)
Record frame := mk_frame {
  nrows : nat;
  columns : list (string * list (option Q))
}.

Definition column (df : frame) (name : string) : option (list (option Q)) :=
  match find (fun kv => String.eqb (fst kv) name) (columns df) with
  | Some kv => Some (snd kv)
  | None => None
  end.

Fixpoint insert_q (x : Q) (l : list Q) : list Q :=
  match l with
  | [] => [x]
  | y :: r => if Qle_bool x y then x :: y :: r else y :: insert_q x r
  end.

Definition sort_q (l : list Q) : list Q := fold_right insert_q [] l.

(** polars [Series.mean()], [.median()], [.max()]: [None] when the series
    has no non-null value. *)
Definition pl_mean (l : list (option Q)) : option Q :=
  match Internet.non_null l with
  | [] => None
  | xs => Some (qsum xs / inject_Z (Z.of_nat (List.length xs)))
  end.

Definition pl_median (l : list (option Q)) : option Q :=
  match sort_q (Internet.non_null l) with
  | [] => None
  | s =>
      let n := List.length s in
      Some (if Nat.odd n then nth (Nat.div n 2) s 0
            else (nth (Nat.div n 2 - 1)%nat s 0 + nth (Nat.div n 2) s 0) / 2)
  end.

Definition pl_max (l : list (option Q)) : option Q :=
  match Internet.non_null l with
  | [] => None
  | x :: r => Some (fold_left Qmax r x)
  end.

(** [f"{v:.1f}"] and the like: [TypeError] on [None]. *)
Definition formats (v : option Q) : bool :=
  match v with Some _ => true | None => false end.

Definition count_nulls (l : list (option Q)) : nat :=
  List.length (filter (fun v => match v with None => true | Some _ => false end) l).

(** [validate_output]: [True] when no step raises.  [file_exists] is
    [Path(OUTPUT_FILE).exists()], [read] the result of [pl.read_parquet]. *)
Definition validate_output (file_exists : bool) (read : option frame) : bool :=
  if negb file_exists then false else
  match read with
  | None => false
  | Some df =>
      let n := inject_Z (Z.of_nat (nrows df)) in
      let nulls_ok :=
        forallb (fun kv => let cnt := count_nulls (snd kv) in
                           if Nat.ltb 0 cnt
                           then formats (py_div (inject_Z (Z.of_nat cnt)) n) else true)
                (columns df) in
      let pop_ok :=
        match column df "pop_total" with
        | None => true
        | Some l => formats (Some (pl_sum l)) && formats (pl_mean l)
                    && formats (pl_median l) && formats (pl_max l)
        end in
      let health_ok :=
        match column df "health_distance" with
        | None => true
        | Some l => formats (pl_mean l) && formats (pl_median l) && formats (pl_max l)
        end in
      let fixed_ok :=
        match column df "fixed_download_2023" with
        | None => true
        | Some l =>
            let valid := filter (fun v => match v with Some _ => true | None => false end) l in
            formats (py_div (inject_Z (Z.of_nat (List.length valid))) n)
            && (if Nat.ltb 0 (List.length valid)
                then formats (pl_mean valid) && formats (pl_median valid) else true)
        end in
      nulls_ok && pop_ok && health_ok && fixed_ok
  end.

End Validate.

(** ** Sample inputs *)

Module Samples.

Import Matrix.

(** A toy geometry library: polygon [0] fails to reproject, polygon [2]
    has zero area, polygon [3] overlaps no candidate; the others split
    70% / 30% over cells ["a"] and ["b"]; cell ["c"] is never intersected;
    quadkey ["bad"] is not a valid quadkey. *)
Definition demo_geo : GeoLib := {|
  geom := nat;
  poly := nat;
  hpoly := string;
  grid_to_4326 := fun n => match n with O => None | _ => Some n end;
  quadkey_box := fun qk => if String.eqb qk "bad" then None else Some 1%nat;
  area := fun n => if Nat.eqb n 2 then 0 else 1;
  grid_candidates := fun _ => Some ["a"; "b"; "c"]%string;
  box_candidates := fun _ => Some ["a"; "b"; "c"]%string;
  cell_polygon := fun c => Some c;
  intersects := fun _ c => negb (String.eqb c "c");
  intersection_area := fun n c =>
    if Nat.eqb n 3 then Some 0
    else if String.eqb c "a" then Some (7 # 10) else Some (3 # 10)
|}.

Definition demo_grid : list (string * geom demo_geo) :=
  [("g1", 1%nat); ("g0", 0%nat); ("g2", 2%nat); ("g3", 3%nat); ("g4", 4%nat)]%string.

Definition demo_quadkeys : list string := ["0120"; "bad"; "0121"]%string.

(** Census rows with a single non-null column [T]; [N] holds the
    no-data sentinel, [Z] is absent from the matrix. *)
Definition census_T (id : string) (t : option Q) : Population.census_row :=
  Population.mk_census id (fun c => if String.eqb c "T" then t else None).

Definition demo_census : list Population.census_row :=
  [census_T "A" (Some 1000); census_T "B" (Some 2000);
   census_T "Z" (Some 5); census_T "N" (Some (-9999))]%string.

(** [A] splits 70% / 30% over [h1] / [h2], [B] 50% / 50%; [N] lies in [h3]. *)
Definition demo_pop_matrix : list entry :=
  [mk_entry "A" "h1" (7 # 10); mk_entry "A" "h2" (3 # 10);
   mk_entry "B" "h1" (1 # 2); mk_entry "B" "h2" (1 # 2);
   mk_entry "N" "h3" 1]%string.

(** Ookla rows with a single column [avg_d_kbps]. *)
Definition speed_d (qk : string) (d : option Q) : Internet.speed_row :=
  Internet.mk_speed qk (fun c => if String.eqb c "avg_d_kbps" then d else None).

(** Tiles [q1] (100 kbps) and [q2] (no value) both lie in hexagon [h]. *)
Definition demo_speed : list Internet.speed_row :=
  [speed_d "q1" (Some 100); speed_d "q2" None]%string.

Definition demo_speed_matrix : list entry :=
  [mk_entry "q1" "h" 1; mk_entry "q2" "h" 1]%string.

(** Hexagon [hp] has population and health data but no internet data;
    hexagon [hi] has population and internet data but no health data. *)
Definition demo_icols : list string := ["fixed_download_2023"]%string.

Definition demo_pop : list Fuser.pop_row :=
  [Fuser.mk_pop "hp" (Some 40) []; Fuser.mk_pop "hi" (Some 25) []]%string.

Definition demo_health : list Fuser.health_row :=
  [Fuser.mk_health "hp" (Some 600)]%string.

Definition demo_net : list Fuser.internet_row :=
  [Fuser.mk_net "hi" [Some 95000]]%string.

(** A raster cell [h] holding three pixels, and its health record
    (every cell at the origin, the identity for the square root). *)
Definition demo_latlng (h : string) : Q * Q := (0, 0).

Definition demo_dict : Health.h3_dict := [("h", ([3; 1; 2], [5; 5; 5]))%Z]%string.

Definition demo_hcell : Health.health_cell :=
  Health.mk_hcell "h" Health.H3_RESOLUTION 0 0
    (Health.np_mean [3; 1; 2]%Z) (Health.np_median [3; 1; 2]%Z) 1%Z 3%Z
    (Health.np_std (fun q => q) [3; 1; 2]%Z) (Health.np_sum [5; 5; 5]%Z)
    (Health.np_mean [5; 5; 5]%Z) (Health.np_median [5; 5; 5]%Z) 3.

End Samples.

(** * Properties *)

(** ** Generic facts on sums *)

Lemma qsum_app (l1 l2 : list Q) : qsum (l1 ++ l2) == qsum l1 + qsum l2.
Proof.
  induction l1 as [|x l1 IH]; simpl.
  - ring.
  - rewrite IH. ring.
Qed.

Lemma qsum_div {A} (f : A -> Q) (S : Q) (l : list A) :
  qsum (map (fun x => f x / S) l) == qsum (map f l) / S.
Proof.
  induction l as [|x l IH]; simpl.
  - unfold Qdiv. ring.
  - rewrite IH. unfold Qdiv. ring.
Qed.

Lemma qsum_pos {A} (f : A -> Q) (l : list A) :
  l <> [] -> (forall x, In x l -> 0 < f x) -> 0 < qsum (map f l).
Proof.
  induction l as [|x l IH]; intros Hne Hpos; [congruence|].
  simpl. destruct l as [|y l].
  - simpl. rewrite Qplus_0_r. apply Hpos. left; reflexivity.
  - apply Qlt_le_trans with (f x + 0).
    + rewrite Qplus_0_r. apply Hpos. left; reflexivity.
    + apply Qplus_le_r. apply Qlt_le_weak. apply IH.
      * discriminate.
      * intros z Hz. apply Hpos. right; exact Hz.
Qed.

Lemma Qgtb_true (a b : Q) : Qgtb a b = true <-> b < a.
Proof.
  unfold Qgtb. rewrite negb_true_iff. split.
  - intros H. apply Qnot_le_lt. intros Hle.
    apply Qle_bool_iff in Hle. congruence.
  - intros H. destruct (Qle_bool a b) eqn:E; [|reflexivity].
    apply Qle_bool_iff in E. exfalso. apply (Qlt_not_le _ _ H E).
Qed.

(** ** Weight-matrix builders *)

Module MatrixFacts.

Import Matrix.

Lemma batches_aux_concat {A} (fuel : nat) (l : list A) :
  (List.length l <= fuel)%nat -> concat (batches_aux fuel l) = l.
Proof.
  revert l. induction fuel as [|f IH]; intros l Hl.
  - destruct l; [reflexivity | simpl in Hl; lia].
  - destruct l as [|x r]; [reflexivity|].
    change (concat (batches_aux (S f) (x :: r)))
      with (firstn BATCH_SIZE (x :: r) ++ concat (batches_aux f (skipn BATCH_SIZE (x :: r)))).
    rewrite IH.
    + apply firstn_skipn.
    + rewrite length_skipn. cbn [List.length] in *. unfold BATCH_SIZE. lia.
Qed.

Lemma batches_concat {A} (l : list A) : concat (batches l) = l.
Proof. apply batches_aux_concat. lia. Qed.

Lemma concat_map_flat_map {A B} (f : A -> list B) (ls : list (list A)) :
  concat (map (flat_map f) ls) = flat_map f (concat ls).
Proof.
  induction ls as [|l ls IH]; simpl; [reflexivity|].
  rewrite flat_map_app, IH. reflexivity.
Qed.

Lemma grid_intersection_weights_flat (G : GeoLib) data :
  grid_intersection_weights G data = flat_map (process_grid_source G) data.
Proof.
  unfold grid_intersection_weights, process_grid_batch.
  rewrite concat_map_flat_map, batches_concat. reflexivity.
Qed.

Lemma quadkey_intersection_weights_flat (G : GeoLib) qks :
  quadkey_intersection_weights G qks = flat_map (process_quadkey G) qks.
Proof.
  unfold quadkey_intersection_weights, process_quadkey_batch.
  rewrite concat_map_flat_map, batches_concat. reflexivity.
Qed.

(** Every entry of the candidate loop carries the source key and a weight
    above the materiality threshold. *)
Lemma scan_candidates_entries (G : GeoLib) k g garea cs e :
  In e (scan_candidates G k g garea cs) ->
  src_key e = k /\ 1 # 1000 < weight e.
Proof.
  induction cs as [|c cs IH]; simpl; [tauto|].
  destruct (cell_polygon G c) as [hp|]; [|simpl; tauto].
  destruct (intersects G g hp); [|exact IH].
  destruct (intersection_area G g hp) as [ia|]; [|simpl; tauto].
  destruct (py_div ia garea) as [w|]; [|simpl; tauto].
  destruct (Qgtb w (1 # 1000)) eqn:Hw; [|exact IH].
  intros [<- | Hin]; [|exact (IH Hin)].
  split; [reflexivity|]. apply Qgtb_true in Hw. exact Hw.
Qed.

Lemma scan_candidates_no_overlap (G : GeoLib) k g garea cs :
  no_overlap G g cs -> scan_candidates G k g garea cs = [].
Proof.
  induction cs as [|c cs IH]; intros Hno; simpl; [reflexivity|].
  assert (Hno' : no_overlap G g cs).
  { intros c' hp ia Hin. apply Hno. right; exact Hin. }
  destruct (cell_polygon G c) as [hp|] eqn:Ehp; [|reflexivity].
  destruct (intersects G g hp) eqn:Ei; [|exact (IH Hno')].
  destruct (intersection_area G g hp) as [ia|] eqn:Ea; [|reflexivity].
  unfold py_div. destruct (Qeq_bool garea 0); [reflexivity|].
  assert (H0 : ia == 0) by (apply (Hno c hp ia); auto; left; reflexivity).
  destruct (Qgtb (ia / garea) (1 # 1000)) eqn:Hw; [|exact (IH Hno')].
  apply Qgtb_true in Hw. rewrite H0 in Hw. unfold Qdiv in Hw.
  rewrite Qmult_0_l in Hw. discriminate.
Qed.

Lemma grid_source_entries (G : GeoLib) s e :
  In e (process_grid_source G s) -> src_key e = fst s /\ 1 # 1000 < weight e.
Proof.
  destruct s as [k g3]. unfold process_grid_source.
  destruct (grid_to_4326 G g3) as [g|]; [|simpl; tauto].
  destruct (Qle_bool (area G g) 0); [simpl; tauto|].
  destruct (grid_candidates G g) as [cs|]; [|simpl; tauto].
  apply scan_candidates_entries.
Qed.

Lemma quadkey_entries (G : GeoLib) qk e :
  In e (process_quadkey G qk) -> src_key e = qk /\ 1 # 1000 < weight e.
Proof.
  unfold process_quadkey.
  destruct (quadkey_box G qk) as [g|]; [|simpl; tauto].
  destruct (box_candidates G g) as [cs|]; [|simpl; tauto].
  apply scan_candidates_entries.
Qed.

Lemma filter_map_reweight (f : entry -> Q) (l : list entry) k :
  filter (fun e => String.eqb (src_key e) k)
         (map (fun e => mk_entry (src_key e) (h3_index e) (f e)) l)
  = map (fun e => mk_entry (src_key e) (h3_index e) (f e))
        (filter (fun e => String.eqb (src_key e) k) l).
Proof.
  induction l as [|x r IH]; simpl; [reflexivity|].
  destruct (String.eqb (src_key x) k); simpl; rewrite IH; reflexivity.
Qed.

(** After [normalize], the weights of a key present in a matrix of
    positive weights sum to 1. *)
Lemma normalize_key_sum (raw : list entry) k :
  (forall e, In e raw -> 0 < weight e) ->
  In k (map src_key (normalize raw)) ->
  key_weight_sum (normalize raw) k == 1.
Proof.
  intros Hpos Hk.
  set (S := key_weight_sum raw k).
  assert (Hfilt : filter (fun e => String.eqb (src_key e) k) (normalize raw)
                  = map (fun e => mk_entry (src_key e) (h3_index e)
                                    (weight e / key_weight_sum raw (src_key e)))
                        (filter (fun e => String.eqb (src_key e) k) raw)).
  { unfold normalize. apply filter_map_reweight. }
  unfold key_weight_sum. rewrite Hfilt, map_map. simpl.
  rewrite (map_ext_in _ (fun e => weight e / S)).
  2:{ intros e He. apply filter_In in He. destruct He as [_ He].
      apply String.eqb_eq in He. rewrite He. reflexivity. }
  rewrite qsum_div. fold (key_weight_sum raw k). fold S.
  assert (HS : 0 < S).
  { unfold S, key_weight_sum. apply qsum_pos.
    - unfold normalize in Hk. rewrite map_map in Hk. simpl in Hk.
      apply in_map_iff in Hk. destruct Hk as [e [Hek He]].
      intros Hnil. assert (Hin : In e (filter (fun e => String.eqb (src_key e) k) raw)).
      { apply filter_In. split; [exact He|]. apply String.eqb_eq. exact Hek. }
      rewrite Hnil in Hin. exact Hin.
    - intros e He. apply filter_In in He. apply Hpos. tauto. }
  field. intros HS0. rewrite HS0 in HS. apply (Qlt_irrefl 0 HS).
Qed.

Lemma finish_matrix_sum (raw : list entry) M k :
  (forall e, In e raw -> 1 # 1000 < weight e) ->
  finish_matrix raw = Some M -> In k (map src_key M) -> key_weight_sum M k == 1.
Proof.
  intros Hpos Hf Hk. unfold finish_matrix in Hf.
  destruct raw as [|x r]; [discriminate|]. injection Hf as <-.
  apply normalize_key_sum; [|exact Hk].
  intros e He. apply Qlt_trans with (1 # 1000); [reflexivity | exact (Hpos e He)].
Qed.

Lemma finish_matrix_keys (raw : list entry) M k :
  finish_matrix raw = Some M -> In k (map src_key M) -> In k (map src_key raw).
Proof.
  intros Hf Hk. unfold finish_matrix in Hf.
  destruct raw as [|x r]; [discriminate|]. injection Hf as <-.
  unfold normalize in Hk. rewrite map_map in Hk. exact Hk.
Qed.

End MatrixFacts.

(** ** Claims on the weight-matrix builders *)

(** C1: in the matrix saved by either builder, the weights of every source
    key present sum to 1 after the per-key normalisation; a source whose
    candidate cells all have zero overlap has no entry at all. *)
Theorem matrix_weights_sum_to_one (G : Matrix.GeoLib) :
  (forall data M k, Matrix.build_grid_matrix G data = Some M ->
     In k (map Matrix.src_key M) -> Matrix.key_weight_sum M k == 1) /\
  (forall qks M k, Matrix.build_quadkey_matrix G qks = Some M ->
     In k (map Matrix.src_key M) -> Matrix.key_weight_sum M k == 1) /\
  (forall data M k, (forall g, In (k, g) data -> Matrix.grid_zero_overlap G g) ->
     Matrix.build_grid_matrix G data = Some M -> ~ In k (map Matrix.src_key M)) /\
  (forall qks M k, Matrix.quadkey_zero_overlap G k ->
     Matrix.build_quadkey_matrix G qks = Some M -> ~ In k (map Matrix.src_key M)).
Proof.
  repeat split.
  - intros data M k Hb Hk. unfold Matrix.build_grid_matrix in Hb.
    refine (MatrixFacts.finish_matrix_sum _ _ _ _ Hb Hk).
    intros e He. rewrite MatrixFacts.grid_intersection_weights_flat in He.
    apply in_flat_map in He. destruct He as [s [_ He]].
    apply (MatrixFacts.grid_source_entries G s e He).
  - intros qks M k Hb Hk. unfold Matrix.build_quadkey_matrix in Hb.
    refine (MatrixFacts.finish_matrix_sum _ _ _ _ Hb Hk).
    intros e He. rewrite MatrixFacts.quadkey_intersection_weights_flat in He.
    apply in_flat_map in He. destruct He as [qk [_ He]].
    apply (MatrixFacts.quadkey_entries G qk e He).
  - intros data M k Hz Hb Hk. unfold Matrix.build_grid_matrix in Hb.
    apply (MatrixFacts.finish_matrix_keys _ _ _ Hb) in Hk.
    rewrite MatrixFacts.grid_intersection_weights_flat in Hk.
    apply in_map_iff in Hk. destruct Hk as [e [Hek He]].
    apply in_flat_map in He. destruct He as [[k' g3] [Hin He]].
    pose proof (MatrixFacts.grid_source_entries G _ e He) as [Hkey _].
    simpl in Hkey. subst k'. rewrite Hek in Hin.
    specialize (Hz g3 Hin). unfold Matrix.process_grid_source in He.
    destruct (Matrix.grid_to_4326 G g3) as [g|] eqn:E1; [|exact He].
    destruct (Qle_bool (Matrix.area G g) 0); [exact He|].
    destruct (Matrix.grid_candidates G g) as [cs|] eqn:E2; [|exact He].
    rewrite MatrixFacts.scan_candidates_no_overlap in He; [exact He|].
    exact (Hz g cs E1 E2).
  - intros qks M k Hz Hb Hk. unfold Matrix.build_quadkey_matrix in Hb.
    apply (MatrixFacts.finish_matrix_keys _ _ _ Hb) in Hk.
    rewrite MatrixFacts.quadkey_intersection_weights_flat in Hk.
    apply in_map_iff in Hk. destruct Hk as [e [Hek He]].
    apply in_flat_map in He. destruct He as [qk [_ He]].
    pose proof (MatrixFacts.quadkey_entries G _ e He) as [Hkey _].
    subst qk. rewrite Hek in He. unfold Matrix.process_quadkey in He.
    destruct (Matrix.quadkey_box G k) as [g|] eqn:E1; [|exact He].
    destruct (Matrix.box_candidates G g) as [cs|] eqn:E2; [|exact He].
    rewrite MatrixFacts.scan_candidates_no_overlap in He; [exact He|].
    exact (Hz g cs E1 E2).
Qed.

Lemma matrix_weights_sum_to_one_witness :
  exists M, Matrix.build_grid_matrix Samples.demo_geo Samples.demo_grid = Some M /\
    Matrix.key_weight_sum M "g1"%string == 1 /\
    ~ In "g3"%string (map Matrix.src_key M).
Proof.
  eexists. split; [reflexivity|]. split.
  - apply (proj1 (matrix_weights_sum_to_one Samples.demo_geo)
             Samples.demo_grid); [reflexivity | simpl; auto].
  - apply (proj1 (proj2 (proj2 (matrix_weights_sum_to_one Samples.demo_geo)))
             Samples.demo_grid); [|reflexivity].
    intros g Hg. simpl in Hg.
    repeat (destruct Hg as [Hg|Hg]; [injection Hg as Hg; subst; try discriminate|]).
    + intros p cs E1 E2 c hp ia _ _ _ Ea. simpl in E1. injection E1 as <-.
      simpl in Ea. injection Ea as <-. reflexivity.
    + destruct Hg.
Defined.

(** C8 (counterexample): a source geometry that fails to reproject leaves
    no trace in the builder's result: the matrix built with it equals the
    matrix built without it, so no skipped-count is recorded anywhere. *)
Lemma skipped_geometry_not_counted_counterexample :
  Matrix.process_grid_batch Samples.demo_geo [("g0", 0%nat)]%string = [] /\
  Matrix.build_grid_matrix Samples.demo_geo [("g0", 0%nat); ("g1", 1%nat)]%string
  = Matrix.build_grid_matrix Samples.demo_geo [("g1", 1%nat)]%string /\
  Matrix.build_quadkey_matrix Samples.demo_geo ["bad"; "0120"]%string
  = Matrix.build_quadkey_matrix Samples.demo_geo ["0120"]%string.
Proof. vm_compute. repeat split; reflexivity. Qed.

(** C8 (amended): in the grid builder a geometry whose reprojection raises
    or whose reprojected area is not positive, and in the quadkey builder a
    quadkey whose tile box raises or has zero area, is skipped silently: it
    contributes no entry, and the rest of the batch gives exactly the entries
    it gives without that geometry (the batch is never aborted). *)
Theorem degenerate_geometry_skipped (G : Matrix.GeoLib) :
  (forall k g3 pre post,
     (Matrix.grid_to_4326 G g3 = None \/
      exists g, Matrix.grid_to_4326 G g3 = Some g /\ Matrix.area G g <= 0) ->
     Matrix.process_grid_source G (k, g3) = [] /\
     Matrix.process_grid_batch G (pre ++ (k, g3) :: post)
     = Matrix.process_grid_batch G (pre ++ post)) /\
  (forall qk pre post,
     (Matrix.quadkey_box G qk = None \/
      exists g, Matrix.quadkey_box G qk = Some g /\ Matrix.area G g == 0) ->
     Matrix.process_quadkey G qk = [] /\
     Matrix.process_quadkey_batch G (pre ++ qk :: post)
     = Matrix.process_quadkey_batch G (pre ++ post)).
Proof.
  split.
  - intros k g3 pre post Hbad.
    assert (H0 : Matrix.process_grid_source G (k, g3) = []).
    { unfold Matrix.process_grid_source.
      destruct Hbad as [E | [g [E Ha]]]; rewrite E; [reflexivity|].
      apply Qle_bool_iff in Ha. rewrite Ha. reflexivity. }
    split; [exact H0|].
    unfold Matrix.process_grid_batch. rewrite !flat_map_app. cbn [flat_map].
    rewrite H0. reflexivity.
  - intros qk pre post Hbad.
    assert (H0 : Matrix.process_quadkey G qk = []).
    { unfold Matrix.process_quadkey.
      destruct Hbad as [E | [g [E Ha]]]; rewrite E; [reflexivity|].
      destruct (Matrix.box_candidates G g) as [cs|]; [|reflexivity].
      induction cs as [|c cs IH]; simpl; [reflexivity|].
      destruct (Matrix.cell_polygon G c) as [hp|]; [|reflexivity].
      destruct (Matrix.intersects G g hp); [|exact IH].
      destruct (Matrix.intersection_area G g hp) as [ia|]; [|reflexivity].
      unfold py_div. apply Qeq_bool_iff in Ha. rewrite Ha. reflexivity. }
    split; [exact H0|].
    unfold Matrix.process_quadkey_batch. rewrite !flat_map_app. cbn [flat_map].
    rewrite H0. reflexivity.
Qed.

Lemma degenerate_geometry_skipped_witness :
  Matrix.process_grid_batch Samples.demo_geo
    ([("g1"%string, 1%nat)] ++ ("g2"%string, 2%nat) :: [("g4"%string, 4%nat)])
  = Matrix.process_grid_batch Samples.demo_geo
      ([("g1"%string, 1%nat)] ++ [("g4"%string, 4%nat)]).
Proof.
  apply (proj1 (degenerate_geometry_skipped Samples.demo_geo)).
  right. exists 2%nat. split; [reflexivity | unfold Qle; simpl; lia].
Defined.

(** C7 (counterexample): a run interrupted while writing leaves a partial
    file at the matrix path itself; the next run takes the cache branch on
    it (the file exists), fails to read it, and does not rebuild. *)
Lemma partial_matrix_kept_counterexample :
  Matrix.grid_main Samples.demo_geo true Samples.demo_grid Matrix.Absent
  = (Matrix.Interrupted, Matrix.Partial) /\
  Matrix.matrix_exists Matrix.Partial = true /\
  Matrix.grid_main Samples.demo_geo false Samples.demo_grid Matrix.Partial
  = (Matrix.ReadFailed, Matrix.Partial).
Proof. vm_compute. repeat split; reflexivity. Qed.

(** C7 (amended): both builders write the matrix in place at its final
    path (no temporary file and rename), so an interrupted write leaves a
    partial file there; the cache check is the existence of that path, so a
    run that finds any file does not rebuild and leaves it unchanged, and a
    partial file makes every later run fail on reading it. *)
Theorem matrix_cache_is_existence_check (G : Matrix.GeoLib) :
  (forall data m, Matrix.build_grid_matrix G data = Some m ->
     Matrix.grid_main G true data Matrix.Absent = (Matrix.Interrupted, Matrix.Partial)) /\
  (forall qks m, Matrix.build_quadkey_matrix G qks = Some m ->
     Matrix.quadkey_main G true qks Matrix.Absent = (Matrix.Interrupted, Matrix.Partial)) /\
  (forall b data a, Matrix.matrix_exists a = true ->
     snd (Matrix.grid_main G b data a) = a /\
     (a = Matrix.Partial -> fst (Matrix.grid_main G b data a) = Matrix.ReadFailed)) /\
  (forall b qks a, Matrix.matrix_exists a = true ->
     snd (Matrix.quadkey_main G b qks a) = a /\
     (a = Matrix.Partial -> fst (Matrix.quadkey_main G b qks a) = Matrix.ReadFailed)).
Proof.
  split; [|split; [|split]].
  - intros data m Hb. unfold Matrix.grid_main. simpl. rewrite Hb. reflexivity.
  - intros qks m Hb. unfold Matrix.quadkey_main. simpl. rewrite Hb. reflexivity.
  - intros b data a Ha. split.
    + unfold Matrix.grid_main. rewrite Ha.
      destruct (Matrix.read_matrix a); reflexivity.
    + intros ->. reflexivity.
  - intros b qks a Ha. split.
    + unfold Matrix.quadkey_main. rewrite Ha.
      destruct (Matrix.read_matrix a); reflexivity.
    + intros ->. reflexivity.
Qed.

Lemma matrix_cache_is_existence_check_witness :
  Matrix.grid_main Samples.demo_geo true Samples.demo_grid Matrix.Absent
  = (Matrix.Interrupted, Matrix.Partial) /\
  fst (Matrix.grid_main Samples.demo_geo false Samples.demo_grid Matrix.Partial)
  = Matrix.ReadFailed.
Proof.
  split.
  - apply (proj1 (matrix_cache_is_existence_check Samples.demo_geo)
             Samples.demo_grid (Matrix.normalize
               (Matrix.grid_intersection_weights Samples.demo_geo Samples.demo_grid))).
    vm_compute. reflexivity.
  - apply (proj2 (proj1 (proj2 (proj2 (matrix_cache_is_existence_check Samples.demo_geo)))
             false Samples.demo_grid Matrix.Partial eq_refl)).
    reflexivity.
Defined.

(** ** Sums of nullable columns and [group_by] *)

Module GroupFacts.

Definition pl_val (o : option Q) : Q := match o with Some v => v | None => 0 end.

Lemma pl_sum_val (l : list (option Q)) : pl_sum l == qsum (map pl_val l).
Proof.
  induction l as [|[x|] r IH]; simpl; [reflexivity | rewrite IH; reflexivity |].
  rewrite IH. ring.
Qed.

Lemma pl_sum_app (l1 l2 : list (option Q)) : pl_sum (l1 ++ l2) == pl_sum l1 + pl_sum l2.
Proof. rewrite !pl_sum_val, map_app, qsum_app. reflexivity. Qed.

Lemma pl_sum_some (l : list Q) : pl_sum (map Some l) = qsum l.
Proof. induction l as [|x r IH]; simpl; [reflexivity | rewrite IH; reflexivity]. Qed.

Lemma qsum_map_ext {A} (f g : A -> Q) (l : list A) :
  (forall x, In x l -> f x == g x) -> qsum (map f l) == qsum (map g l).
Proof.
  induction l as [|x r IH]; intros H; simpl; [reflexivity|].
  rewrite (H x (or_introl eq_refl)), IH; [reflexivity|].
  intros y Hy. apply H. right; exact Hy.
Qed.

Lemma qsum_map_plus {A} (f g : A -> Q) (l : list A) :
  qsum (map (fun x => f x + g x) l) == qsum (map f l) + qsum (map g l).
Proof. induction l as [|x r IH]; simpl; [ring | rewrite IH; ring]. Qed.

Lemma qsum_map_zero {A} (l : list A) : qsum (map (fun _ => 0) l) == 0.
Proof. induction l as [|x r IH]; simpl; [reflexivity | rewrite IH; ring]. Qed.

Lemma qsum_indicator (k : string) (c : Q) (D : list string) :
  NoDup D -> In k D -> qsum (map (fun h => if String.eqb k h then c else 0) D) == c.
Proof.
  induction D as [|h D IH]; intros Hnd Hin; [destruct Hin|].
  inversion Hnd as [|? ? Hnotin Hnd']. subst. simpl.
  destruct (String.eqb k h) eqn:E.
  - apply String.eqb_eq in E. subst h.
    rewrite (qsum_map_ext _ (fun _ => 0)); [rewrite qsum_map_zero; ring|].
    intros y Hy. destruct (String.eqb k y) eqn:E'; [|reflexivity].
    apply String.eqb_eq in E'. subst. contradiction.
  - destruct Hin as [<- | Hin]; [rewrite String.eqb_refl in E; discriminate|].
    rewrite IH; auto. ring.
Qed.

Lemma dedup_In (l : list string) x : In x (dedup l) <-> In x l.
Proof.
  induction l as [|y r IH]; simpl; [tauto|].
  rewrite filter_In, IH. split.
  - intros [H | [H _]]; auto.
  - intros [H | H]; [left; exact H|].
    destruct (String.eqb y x) eqn:E.
    + left. apply String.eqb_eq. exact E.
    + right. split; [exact H | reflexivity].
Qed.

Lemma dedup_NoDup (l : list string) : NoDup (dedup l).
Proof.
  induction l as [|y r IH]; simpl; constructor.
  - rewrite filter_In. intros [_ H]. rewrite String.eqb_refl in H. discriminate.
  - apply NoDup_filter. exact IH.
Qed.

(** Summing the per-group sums over the distinct keys gives the sum over
    all rows. *)
Lemma group_sum {A} (key : A -> string) (f : A -> option Q) (l : list A) :
  qsum (map (fun h => pl_sum (map f (filter (fun x => String.eqb (key x) h) l)))
            (dedup (map key l)))
  == pl_sum (map f l).
Proof.
  assert (Hgen : forall D, NoDup D -> (forall x, In x l -> In (key x) D) ->
            qsum (map (fun h => pl_sum (map f (filter (fun x => String.eqb (key x) h) l))) D)
            == pl_sum (map f l)).
  { induction l as [|x r IH]; intros D Hnd Hcov; simpl.
    - apply qsum_map_zero.
    - rewrite (qsum_map_ext _ (fun h => (if String.eqb (key x) h then pl_val (f x) else 0)
                     + pl_sum (map f (filter (fun y => String.eqb (key y) h) r)))).
      + rewrite qsum_map_plus, qsum_indicator, IH; auto.
        * destruct (f x); simpl; ring.
        * intros y Hy. apply Hcov. right; exact Hy.
        * apply Hcov. left; reflexivity.
      + intros h _. destruct (String.eqb (key x) h); simpl.
        * destruct (f x); simpl; ring.
        * ring. }
  apply Hgen; [apply dedup_NoDup|].
  intros x Hx. apply dedup_In. apply in_map. exact Hx.
Qed.

Lemma pl_sum_flat_map {A B} (g : A -> list B) (f : B -> option Q) (l : list A) :
  pl_sum (map f (flat_map g l)) == qsum (map (fun x => pl_sum (map f (g x))) l).
Proof.
  induction l as [|x r IH]; simpl; [reflexivity|].
  rewrite map_app, pl_sum_app, IH. reflexivity.
Qed.

Lemma qsum_scale {A} (c : Q) (f : A -> Q) (l : list A) :
  qsum (map (fun x => c * f x) l) == c * qsum (map f l).
Proof. induction l as [|x r IH]; simpl; [ring | rewrite IH; ring]. Qed.

End GroupFacts.

Module PopulationFacts.

Import Matrix Population GroupFacts.

Lemma existsb_eqb_In (k : string) (l : list string) :
  existsb (String.eqb k) l = true <-> In k l.
Proof.
  rewrite existsb_exists. split.
  - intros [x [Hx E]]. apply String.eqb_eq in E. subst. exact Hx.
  - intros H. exists k. split; [exact H | apply String.eqb_refl].
Qed.

Lemma filter_key_nil (m : list entry) k :
  existsb (String.eqb k) (map src_key m) = false ->
  filter (fun e => String.eqb (src_key e) k) m = [].
Proof.
  induction m as [|e m IH]; simpl; [reflexivity|].
  rewrite orb_false_iff. intros [E1 E2].
  rewrite String.eqb_sym, E1. exact (IH E2).
Qed.

(** The weighted values of one source row sum to its value times the sum
    of its weights. *)
Lemma row_weighted_sum (r : census_row) (F : list entry) c :
  pl_sum (map (w_col c) (map (pair r) F)) == pl_val (census_val r c) * qsum (map weight F).
Proof.
  unfold w_col. rewrite map_map. simpl.
  destruct (census_val r c) as [x|]; simpl.
  - rewrite <- (qsum_scale x weight F), <- pl_sum_some, map_map. reflexivity.
  - induction F as [|e F IH]; simpl; [reflexivity|]. rewrite IH. ring.
Qed.

Lemma pl_sum_filter {A} (p : A -> bool) (f : A -> option Q) (l : list A) :
  pl_sum (map f (filter p l)) == qsum (map (fun x => if p x then pl_val (f x) else 0) l).
Proof.
  induction l as [|x r IH]; simpl; [reflexivity|].
  destruct (p x); simpl; rewrite <- IH.
  - destruct (f x); simpl; [reflexivity | ring].
  - ring.
Qed.

End PopulationFacts.

(** ** Claims on the weighted aggregation *)

(** C2: for each aggregated (additive) census column, when the weights of
    every matrix source sum to 1, the column summed over all output
    hexagons equals the column (after the no-data cleaning, nulls skipped)
    summed over the census rows present in the matrix. *)
Theorem population_mass_conserved (gdf : list Population.census_row)
        (m : list Matrix.entry) (c : string) :
  Population.aggregated_col c = true ->
  (forall r, In r gdf -> In (Population.GRD_ID r) (map Matrix.src_key m) ->
     Matrix.key_weight_sum m (Population.GRD_ID r) == 1) ->
  pl_sum (map (fun x => Population.cell_val x c) (Population.convert_to_h3_matrix gdf m))
  == pl_sum (map (fun r => Population.census_val (Population.clean_row r) c)
                 (filter (fun r => existsb (String.eqb (Population.GRD_ID r))
                                           (map Matrix.src_key m)) gdf)).
Proof.
  intros Hc Hw.
  unfold Population.convert_to_h3_matrix, Population.aggregate.
  rewrite map_map. simpl. rewrite Hc.
  change (fun x : string => Some (pl_sum (map (Population.w_col c)
            (filter (fun je => String.eqb (Matrix.h3_index (snd je)) x)
               (Population.join_matrix (map Population.clean_row gdf) m)))))
    with (fun x : string => Some ((fun h => pl_sum (map (Population.w_col c)
            (filter (fun je => String.eqb (Matrix.h3_index (snd je)) h)
               (Population.join_matrix (map Population.clean_row gdf) m)))) x)).
  rewrite <- (map_map _ Some), GroupFacts.pl_sum_some.
  rewrite (GroupFacts.group_sum (fun je => Matrix.h3_index (snd je))).
  unfold Population.join_matrix. rewrite GroupFacts.pl_sum_flat_map.
  rewrite PopulationFacts.pl_sum_filter, map_map.
  apply GroupFacts.qsum_map_ext. intros r Hr.
  rewrite PopulationFacts.row_weighted_sum. simpl.
  destruct (existsb (String.eqb (Population.GRD_ID r)) (map Matrix.src_key m)) eqn:E.
  - fold (Matrix.key_weight_sum m (Population.GRD_ID r)).
    rewrite (Hw r Hr); [ring|]. apply PopulationFacts.existsb_eqb_In. exact E.
  - rewrite PopulationFacts.filter_key_nil by exact E. simpl. ring.
Qed.

Lemma population_mass_conserved_witness :
  pl_sum (map (fun x => Population.cell_val x "T"%string)
              (Population.convert_to_h3_matrix Samples.demo_census Samples.demo_pop_matrix))
  == pl_sum (map (fun r => Population.census_val (Population.clean_row r) "T"%string)
                 (filter (fun r => existsb (String.eqb (Population.GRD_ID r))
                                           (map Matrix.src_key Samples.demo_pop_matrix))
                         Samples.demo_census)).
Proof.
  apply population_mass_conserved; [reflexivity|].
  intros r Hr Hk. simpl in Hr.
  repeat (destruct Hr as [<- | Hr];
          [first [vm_compute; reflexivity | vm_compute in Hk; intuition discriminate]|]).
  destruct Hr.
Defined.

Module LookupFacts.

Import Matrix GroupFacts.

Lemma existsb_dedup (h : string) (l : list string) :
  existsb (String.eqb h) (dedup l) = existsb (String.eqb h) l.
Proof.
  apply eq_true_iff_eq.
  rewrite !PopulationFacts.existsb_eqb_In. apply dedup_In.
Qed.

(** Looking a key up in a table built from distinct keys. *)
Lemma find_keyed {B} (idx : B -> string) (mk : string -> B) (D : list string) h :
  (forall a, idx (mk a) = a) ->
  find (fun x => String.eqb (idx x) h) (map mk D)
  = if existsb (String.eqb h) D then Some (mk h) else None.
Proof.
  intros Hidx. induction D as [|a D IH]; simpl; [reflexivity|].
  rewrite Hidx. destruct (String.eqb a h) eqn:E.
  - apply String.eqb_eq in E. subst. rewrite String.eqb_refl. reflexivity.
  - rewrite String.eqb_sym, E. exact IH.
Qed.

Lemma filter_map_comm {A B} (p : B -> bool) (g : A -> B) (l : list A) :
  filter p (map g l) = map g (filter (fun x => p (g x)) l).
Proof.
  induction l as [|x r IH]; simpl; [reflexivity|].
  destruct (p (g x)); simpl; rewrite IH; reflexivity.
Qed.

Lemma lookup_population (joined : list (Population.census_row * entry)) h c :
  Population.lookup_cell (Population.aggregate joined) h c
  = if existsb (String.eqb h) (map (fun je => h3_index (snd je)) joined)
    then Some (if Population.aggregated_col c
               then Some (pl_sum (map (Population.w_col c)
                        (filter (fun je => String.eqb (h3_index (snd je)) h) joined)))
               else None)
    else None.
Proof.
  unfold Population.lookup_cell, Population.aggregate.
  rewrite (find_keyed Population.cell_index) by reflexivity.
  rewrite existsb_dedup. destruct (existsb _ _); reflexivity.
Qed.

Lemma lookup_quarter (rows : list Internet.speed_row) (m : list entry) h c :
  Internet.lookup_qcell (Internet.process_quarter rows m) h c
  = let joined := Internet.join_matrix rows m in
    if existsb (String.eqb h) (map (fun je => h3_index (snd je)) joined)
    then let g := Internet.cell_group joined h in
         Some (if Internet.in_cols Internet.avg_cols c
               then Internet.pl_div (pl_sum (map (Internet.w_col c) g))
                                    (qsum (map (fun je => weight (snd je)) g))
               else if Internet.in_cols Internet.count_cols c
               then Some (pl_sum (map (Internet.w_col c) g))
               else None)
    else None.
Proof.
  unfold Internet.lookup_qcell, Internet.process_quarter.
  rewrite (find_keyed Internet.q_index) by reflexivity.
  rewrite existsb_dedup. destruct (existsb _ _); reflexivity.
Qed.

Lemma join_clean (gdf : list Population.census_row) (m : list entry) :
  Population.join_matrix (map Population.clean_row gdf) m
  = map (fun je => (Population.clean_row (fst je), snd je)) (Population.join_matrix gdf m).
Proof.
  induction gdf as [|r gdf IH]; simpl; [reflexivity|].
  rewrite map_app, IH, !map_map. reflexivity.
Qed.

Lemma in_map_existsb {A} (f : A -> string) (l : list A) h :
  In h (map f l) -> existsb (String.eqb h) (map f l) = true.
Proof. intros H. apply PopulationFacts.existsb_eqb_In. exact H. Qed.

Lemma out_keys_population (joined : list (Population.census_row * entry)) :
  map Population.cell_index (Population.aggregate joined)
  = dedup (map (fun je => h3_index (snd je)) joined).
Proof. unfold Population.aggregate. rewrite map_map. apply map_id. Qed.

Lemma out_keys_quarter (rows : list Internet.speed_row) (m : list entry) :
  map Internet.q_index (Internet.process_quarter rows m)
  = dedup (map (fun je => h3_index (snd je)) (Internet.join_matrix rows m)).
Proof. unfold Internet.process_quarter. rewrite map_map. apply map_id. Qed.

Lemma pl_sum_all_null {A} (w : A -> option Q) (l : list A) :
  (forall x, In x l -> w x = None) -> pl_sum (map w l) = 0.
Proof.
  induction l as [|x r IH]; intros H; simpl; [reflexivity|].
  rewrite (H x (or_introl eq_refl)). apply IH.
  intros y Hy. apply H. right; exact Hy.
Qed.

Lemma quarter_value_not_null (c : string) (a b d : Q) :
  Internet.in_cols (Internet.avg_cols ++ Internet.count_cols) c = true ->
  (if Internet.in_cols Internet.avg_cols c then Internet.pl_div a b
   else if Internet.in_cols Internet.count_cols c then Some d else None) <> None.
Proof.
  unfold Internet.in_cols. rewrite existsb_app.
  destruct (existsb (String.eqb c) Internet.avg_cols).
  - intros _. unfold Internet.pl_div. discriminate.
  - simpl. intros H. rewrite H. discriminate.
Qed.

Lemma quarter_value_zero (c : string) (b : Q) :
  Internet.in_cols (Internet.avg_cols ++ Internet.count_cols) c = true ->
  exists q, (if Internet.in_cols Internet.avg_cols c then Internet.pl_div 0 b
             else if Internet.in_cols Internet.count_cols c then Some 0 else None)
            = Some q /\ q == 0.
Proof.
  unfold Internet.in_cols. rewrite existsb_app.
  destruct (existsb (String.eqb c) Internet.avg_cols).
  - intros _. unfold Internet.pl_div. eexists. split; [reflexivity|].
    unfold Qdiv. apply Qmult_0_l.
  - simpl. intros H. rewrite H. eexists. split; reflexivity.
Qed.

End LookupFacts.

(** C6 (counterexample): hexagon [h3] receives only the census row [N],
    whose [T] is the no-data value; its aggregated [T] is 0, not null.
    Likewise hexagon [h] of the quarter table gets [tests] = 0 although no
    tile has a [tests] value. *)
Lemma zero_weight_cell_not_null_counterexample :
  Population.lookup_cell
    (Population.convert_to_h3_matrix Samples.demo_census Samples.demo_pop_matrix)
    "h3"%string "T"%string = Some (Some 0) /\
  Internet.lookup_qcell
    (Internet.process_quarter Samples.demo_speed Samples.demo_speed_matrix)
    "h"%string "tests"%string = Some (Some 0).
Proof. vm_compute. split; reflexivity. Qed.

(** C6 (amended): in the population output no aggregated column of a
    hexagon is null, and a hexagon whose contributing values are all null
    gets 0; in a quarter table of the internet pipeline a hexagon that is
    present has non-null values (0 for a column whose contributing values
    are all null), and in the merge a quarter contributes nulls for a
    hexagon exactly when its table has no row for it. *)
Theorem aggregates_null_only_when_uncovered :
  (forall gdf m c h v, Population.aggregated_col c = true ->
     Population.lookup_cell (Population.convert_to_h3_matrix gdf m) h c = Some v ->
     v <> None) /\
  (forall gdf m c h, Population.aggregated_col c = true ->
     In h (map Population.cell_index (Population.convert_to_h3_matrix gdf m)) ->
     (forall r e, In (r, e) (Population.join_matrix (map Population.clean_row gdf) m) ->
        Matrix.h3_index e = h -> Population.census_val r c = None) ->
     Population.lookup_cell (Population.convert_to_h3_matrix gdf m) h c = Some (Some 0)) /\
  (forall rows m c h v,
     Internet.in_cols (Internet.avg_cols ++ Internet.count_cols) c = true ->
     Internet.lookup_qcell (Internet.process_quarter rows m) h c = Some v ->
     v <> None) /\
  (forall rows m c h,
     Internet.in_cols (Internet.avg_cols ++ Internet.count_cols) c = true ->
     In h (map Internet.q_index (Internet.process_quarter rows m)) ->
     (forall r e, In (r, e) (Internet.join_matrix rows m) ->
        Matrix.h3_index e = h -> Internet.speed_val r c = None) ->
     exists q, Internet.lookup_qcell (Internet.process_quarter rows m) h c = Some (Some q)
               /\ q == 0) /\
  (forall f h,
     Internet.left_join_cols f h
     = map (fun c => (Internet.col_name f c,
                      match Internet.lookup_qcell (Internet.table f) h c with
                      | Some v => v
                      | None => None
                      end))
           (Internet.avg_cols ++ Internet.count_cols)).
Proof.
  split; [|split; [|split; [|split]]].
  - intros gdf m c h v Hc Hl. unfold Population.convert_to_h3_matrix in Hl.
    rewrite LookupFacts.lookup_population, Hc in Hl.
    destruct (existsb _ _); [|discriminate].
    injection Hl as <-. discriminate.
  - intros gdf m c h Hc Hin Hnull. unfold Population.convert_to_h3_matrix in *.
    rewrite LookupFacts.lookup_population, Hc.
    rewrite LookupFacts.out_keys_population, GroupFacts.dedup_In in Hin.
    rewrite (LookupFacts.in_map_existsb _ _ _ Hin). do 2 f_equal.
    apply LookupFacts.pl_sum_all_null. intros [r e] Hx.
    apply filter_In in Hx. destruct Hx as [Hx E]. apply String.eqb_eq in E.
    unfold Population.w_col. simpl. rewrite (Hnull r e Hx E). reflexivity.
  - intros rows m c h v Hc Hl. rewrite LookupFacts.lookup_quarter in Hl.
    cbv zeta in Hl.
    destruct (existsb (String.eqb h) (map (fun je => Matrix.h3_index (snd je))
                                          (Internet.join_matrix rows m)));
      [|discriminate].
    injection Hl as <-.
    apply LookupFacts.quarter_value_not_null. exact Hc.
  - intros rows m c h Hc Hin Hnull. rewrite LookupFacts.lookup_quarter. cbv zeta.
    rewrite LookupFacts.out_keys_quarter, GroupFacts.dedup_In in Hin.
    rewrite (LookupFacts.in_map_existsb _ _ _ Hin).
    rewrite (LookupFacts.pl_sum_all_null (Internet.w_col c)).
    2:{ intros [r e] Hx. unfold Internet.cell_group in Hx.
        apply filter_In in Hx. destruct Hx as [Hx E]. apply String.eqb_eq in E.
        unfold Internet.w_col. simpl. rewrite (Hnull r e Hx E). reflexivity. }
    destruct (LookupFacts.quarter_value_zero c
                (qsum (map (fun je => Matrix.weight (snd je))
                   (Internet.cell_group (Internet.join_matrix rows m) h))) Hc)
      as [q [Eq Hq]].
    exists q. rewrite Eq. split; [reflexivity | exact Hq].
  - intros f h. unfold Internet.left_join_cols, Internet.lookup_qcell.
    destruct (find _ _); reflexivity.
Qed.

Lemma aggregates_null_only_when_uncovered_witness :
  Population.lookup_cell
    (Population.convert_to_h3_matrix Samples.demo_census Samples.demo_pop_matrix)
    "h3"%string "T"%string = Some (Some 0).
Proof.
  apply (proj1 (proj2 aggregates_null_only_when_uncovered)).
  - reflexivity.
  - vm_compute. auto.
  - intros r e Hin He. simpl in Hin.
    repeat (destruct Hin as [Hin | Hin];
            [injection Hin as <- <-; simpl in He;
             first [discriminate He | vm_compute; reflexivity] |]).
    destruct Hin.
Defined.

(** C9 (counterexample): hexagon [h3] is covered only by a census row whose
    [T] is the no-data value -9999; the hexagon's aggregated [T] is the
    number 0. *)
Lemma nodata_cell_aggregates_to_zero_counterexample :
  Population.lookup_cell
    (Population.convert_to_h3_matrix
       [Samples.census_T "N" (Some (-9999))]%string
       [Matrix.mk_entry "N" "h3" 1]%string)
    "h3"%string "T"%string = Some (Some 0).
Proof. vm_compute. reflexivity. Qed.

(** C9 (amended): for every census population column, the no-data value
    -9999 is replaced by null before the weighting, so it never enters a
    weighted sum: the aggregate of a hexagon is the sum of value * weight
    over its contributing rows whose value is neither null nor -9999 (and
    is 0 when there is no such row). *)
Theorem nodata_excluded_from_sums (gdf : list Population.census_row)
        (m : list Matrix.entry) (c h : string) :
  Population.is_population_col c = true ->
  In h (map Population.cell_index (Population.convert_to_h3_matrix gdf m)) ->
  exists q,
    Population.lookup_cell (Population.convert_to_h3_matrix gdf m) h c = Some (Some q) /\
    q == qsum (map (fun je => match Population.census_val (fst je) c with
                              | Some x => if Qeq_bool x (-9999) then 0
                                          else x * Matrix.weight (snd je)
                              | None => 0
                              end)
                   (filter (fun je => String.eqb (Matrix.h3_index (snd je)) h)
                           (Population.join_matrix gdf m))).
Proof.
  intros Hc Hin. unfold Population.convert_to_h3_matrix in *.
  rewrite LookupFacts.out_keys_population, GroupFacts.dedup_In in Hin.
  rewrite LookupFacts.lookup_population, (LookupFacts.in_map_existsb _ _ _ Hin).
  assert (Hagg : Population.aggregated_col c = true)
    by (unfold Population.aggregated_col; rewrite Hc; reflexivity).
  rewrite Hagg. eexists. split; [reflexivity|].
  rewrite LookupFacts.join_clean, LookupFacts.filter_map_comm, map_map.
  rewrite GroupFacts.pl_sum_val, map_map.
  apply GroupFacts.qsum_map_ext. intros [r e] _. simpl.
  unfold Population.w_col. simpl. rewrite Hc.
  destruct (Population.census_val r c) as [x|]; simpl; [|reflexivity].
  destruct (Qeq_bool x (-9999)); reflexivity.
Qed.

Lemma nodata_excluded_from_sums_witness :
  exists q,
    Population.lookup_cell
      (Population.convert_to_h3_matrix Samples.demo_census Samples.demo_pop_matrix)
      "h1"%string "T"%string = Some (Some q) /\
    q == qsum (map (fun je => match Population.census_val (fst je) "T"%string with
                              | Some x => if Qeq_bool x (-9999) then 0
                                          else x * Matrix.weight (snd je)
                              | None => 0
                              end)
                   (filter (fun je => String.eqb (Matrix.h3_index (snd je)) "h1"%string)
                           (Population.join_matrix Samples.demo_census Samples.demo_pop_matrix))).
Proof.
  apply nodata_excluded_from_sums; [reflexivity | vm_compute; auto].
Defined.

(** C3 (counterexample): tiles [q1] (100 kbps) and [q2] (no value) lie in
    hexagon [h] with weight 1 each.  The weighted mean over the non-null
    rows is 100, but the quarter table holds 50: the null row's weight
    enters the denominator. *)
Lemma null_row_dilutes_mean_counterexample :
  Internet.lookup_qcell
    (Internet.process_quarter [Samples.speed_d "q1" (Some 100)]%string
                              Samples.demo_speed_matrix)
    "h"%string "avg_d_kbps"%string = Some (Some (100 # 1)) /\
  Internet.lookup_qcell
    (Internet.process_quarter Samples.demo_speed Samples.demo_speed_matrix)
    "h"%string "avg_d_kbps"%string = Some (Some (100 # 2)) /\
  ~ (100 # 2 == 100).
Proof.
  vm_compute. split; [reflexivity | split; [reflexivity | discriminate]].
Qed.

(** C3 (amended): for each intensive column of a quarter table, the value
    of a hexagon is the sum of value * weight over its tile rows with a
    non-null value, divided by the sum of the weights of all its tile rows,
    null-valued ones included (one denominator shared by the columns). *)
Theorem intensive_mean_shared_denominator (rows : list Internet.speed_row)
        (m : list Matrix.entry) (c h : string) :
  Internet.in_cols Internet.avg_cols c = true ->
  In h (map Internet.q_index (Internet.process_quarter rows m)) ->
  let g := filter (fun je => String.eqb (Matrix.h3_index (snd je)) h)
                  (Internet.join_matrix rows m) in
  exists q,
    Internet.lookup_qcell (Internet.process_quarter rows m) h c = Some (Some q) /\
    q == qsum (map (fun je => match Internet.speed_val (fst je) c with
                              | Some v => v * Matrix.weight (snd je)
                              | None => 0
                              end) g)
         / qsum (map (fun je => Matrix.weight (snd je)) g).
Proof.
  intros Hc Hin g. rewrite LookupFacts.lookup_quarter. cbv zeta.
  rewrite LookupFacts.out_keys_quarter, GroupFacts.dedup_In in Hin.
  rewrite (LookupFacts.in_map_existsb _ _ _ Hin), Hc.
  unfold Internet.pl_div. eexists. split; [reflexivity|].
  unfold Internet.cell_group. fold g.
  rewrite GroupFacts.pl_sum_val, map_map.
  apply Qmult_comp; [|reflexivity].
  apply GroupFacts.qsum_map_ext. intros [r e] _. simpl.
  unfold Internet.w_col. simpl.
  destruct (Internet.speed_val r c); reflexivity.
Qed.

Lemma intensive_mean_shared_denominator_witness :
  exists q,
    Internet.lookup_qcell
      (Internet.process_quarter Samples.demo_speed Samples.demo_speed_matrix)
      "h"%string "avg_d_kbps"%string = Some (Some q) /\
    q == (100 * 1 + 0) / (1 + (1 + 0)).
Proof.
  exact (intensive_mean_shared_denominator Samples.demo_speed Samples.demo_speed_matrix
           "avg_d_kbps"%string "h"%string eq_refl
           ltac:(vm_compute; auto)).
Defined.

(** ** Claims on the dataset fuser *)

Module FuserFacts.

Import Fuser.

Lemma in_inner_join pop health p hl :
  In (p, hl) (inner_join pop health) <->
  In p pop /\ In hl health /\ hl_h3 hl = p_h3 p.
Proof.
  unfold inner_join. rewrite in_flat_map. split.
  - intros [p' [Hp' Hin]]. apply in_map_iff in Hin.
    destruct Hin as [hl' [E Hhl]]. injection E as <- <-.
    apply filter_In in Hhl. destruct Hhl as [Hhl E].
    apply String.eqb_eq in E. auto.
  - intros [Hp [Hhl E]]. exists p. split; [exact Hp|].
    apply in_map. apply filter_In. split; [exact Hhl|]. apply String.eqb_eq. exact E.
Qed.

Lemma in_left_join icols ph net r :
  In r (left_join icols ph net) ->
  exists p hl, In (p, hl) ph /\ m_h3 r = p_h3 p /\
    (filter (fun n => String.eqb (i_h3 n) (p_h3 p)) net = [] ->
     m_internet r = map (fun _ => None) icols).
Proof.
  unfold left_join. rewrite in_flat_map. intros [[p hl] [Hph Hin]].
  exists p, hl. split; [exact Hph|].
  destruct (filter (fun n => String.eqb (i_h3 n) (p_h3 p)) net) as [|n ns] eqn:E.
  - destruct Hin as [<- | []]. split; reflexivity.
  - apply in_map_iff in Hin. destruct Hin as [n' [<- _]].
    split; [reflexivity | discriminate].
Qed.

Lemma filter_net_nil (net : list internet_row) h :
  ~ In h (map i_h3 net) -> filter (fun n => String.eqb (i_h3 n) h) net = [].
Proof.
  induction net as [|n net IH]; simpl; intros Hn; [reflexivity|].
  destruct (String.eqb (i_h3 n) h) eqn:E.
  - apply String.eqb_eq in E. exfalso. apply Hn. left; exact E.
  - apply IH. intros H. apply Hn. right; exact H.
Qed.

End FuserFacts.

(** C4: the fuser joins population with health (inner) and then with
    internet (left): a hexagon of the population and internet tables that
    is missing from the health table is not in the merged output, and a
    hexagon of the population and health tables that is missing from the
    internet table is in it, with null internet columns in every row; after
    the filter and [save_output], the first hexagon is still absent and
    every row of the second still has null internet columns. *)
Theorem fuser_join_semantics (icols : list string) (pop : list Fuser.pop_row)
        (health : list Fuser.health_row) (net : list Fuser.internet_row) (h : string) :
  (In h (map Fuser.p_h3 pop) -> In h (map Fuser.i_h3 net) ->
   ~ In h (map Fuser.hl_h3 health) ->
   ~ In h (map Fuser.m_h3 (Fuser.merge_datasets icols pop health net))) /\
  (In h (map Fuser.p_h3 pop) -> In h (map Fuser.hl_h3 health) ->
   ~ In h (map Fuser.i_h3 net) ->
   In h (map Fuser.m_h3 (Fuser.merge_datasets icols pop health net)) /\
   forall r, In r (Fuser.merge_datasets icols pop health net) -> Fuser.m_h3 r = h ->
     Fuser.m_internet r = map (fun _ => None) icols) /\
  (~ In h (map Fuser.hl_h3 health) ->
   ~ In h (map Fuser.f_h3 (Fuser.fuse icols pop health net))) /\
  (~ In h (map Fuser.i_h3 net) ->
   forall r, In r (Fuser.fuse icols pop health net) -> Fuser.f_h3 r = h ->
     Fuser.f_internet r = map (fun _ => None) icols).
Proof.
  split; [|split; [|split]].
  - intros _ _ Hh Hin. apply in_map_iff in Hin. destruct Hin as [r [Er Hr]].
    apply FuserFacts.in_left_join in Hr.
    destruct Hr as [p [hl [Hph [E _]]]].
    apply FuserFacts.in_inner_join in Hph. destruct Hph as [_ [Hhl Eh]].
    apply Hh. apply in_map_iff. exists hl. split; [congruence | exact Hhl].
  - intros Hp Hh Hn. split.
    + apply in_map_iff in Hp. destruct Hp as [p [Ep Hp]].
      apply in_map_iff in Hh. destruct Hh as [hl [Eh Hhl]].
      apply in_map_iff.
      exists (Fuser.mk_merged (Fuser.p_h3 p) (Fuser.pop_total p) (Fuser.pop_rest p)
                (Fuser.health_distance hl) (map (fun _ => None) icols)).
      split; [exact Ep|].
      unfold Fuser.merge_datasets, Fuser.left_join. apply in_flat_map.
      exists (p, hl). split.
      * apply FuserFacts.in_inner_join. split; [exact Hp | split; [exact Hhl | congruence]].
      * rewrite Ep, FuserFacts.filter_net_nil by exact Hn. left; reflexivity.
    + intros r Hr Er. apply FuserFacts.in_left_join in Hr.
      destruct Hr as [p [hl [_ [E Hnull]]]].
      apply Hnull. rewrite <- E, Er. apply FuserFacts.filter_net_nil. exact Hn.
  - intros Hh Hin. apply in_map_iff in Hin. destruct Hin as [fr [Er Hfr]].
    unfold Fuser.fuse, Fuser.save_output, Fuser.filter_and_finalize in Hfr.
    apply in_map_iff in Hfr. destruct Hfr as [r [<- Hr]].
    apply filter_In in Hr. destruct Hr as [Hr _].
    apply FuserFacts.in_left_join in Hr. destruct Hr as [p [hl [Hph [E _]]]].
    apply FuserFacts.in_inner_join in Hph. destruct Hph as [_ [Hhl Ehl]].
    apply Hh. apply in_map_iff. exists hl. split; [|exact Hhl].
    rewrite Ehl, <- E. exact Er.
  - intros Hn fr Hfr Er.
    unfold Fuser.fuse, Fuser.save_output, Fuser.filter_and_finalize in Hfr.
    apply in_map_iff in Hfr. destruct Hfr as [r [<- Hr]].
    apply filter_In in Hr. destruct Hr as [Hr _].
    apply FuserFacts.in_left_join in Hr. destruct Hr as [p [hl [_ [E Hnull]]]].
    simpl in Er |- *. rewrite Hnull, map_map; [reflexivity|].
    rewrite <- E, Er. apply FuserFacts.filter_net_nil. exact Hn.
Qed.

Lemma fuser_join_semantics_witness :
  ~ In "hi"%string (map Fuser.m_h3 (Fuser.merge_datasets Samples.demo_icols
                      Samples.demo_pop Samples.demo_health Samples.demo_net)) /\
  In "hp"%string (map Fuser.m_h3 (Fuser.merge_datasets Samples.demo_icols
                      Samples.demo_pop Samples.demo_health Samples.demo_net)).
Proof.
  split.
  - apply (proj1 (fuser_join_semantics Samples.demo_icols Samples.demo_pop
             Samples.demo_health Samples.demo_net "hi"%string));
      vm_compute; [auto | auto | intuition discriminate].
  - apply (proj1 (proj2 (fuser_join_semantics Samples.demo_icols Samples.demo_pop
             Samples.demo_health Samples.demo_net "hp"%string)));
      vm_compute; [auto | auto | intuition discriminate].
Defined.

(** C5 (code bug): a hexagon whose aggregated population is 0.3 passes the
    [pop_total > 0] filter, and [save_output] then rounds it to 0, so the
    persisted dataset holds a row with [pop_total] = 0. *)
Lemma rounded_population_zero_row :
  Fuser.fuse [] [Fuser.mk_pop "h"%string (Some (3 # 10)) []]
             [Fuser.mk_health "h"%string (Some 12)] []
  = [Fuser.mk_final "h"%string (Some 0%Z) [] (Some (inject_Z 1200 / 100)) []].
Proof. vm_compute. reflexivity. Qed.

(** ** Claims on the internet rollups *)

Module RollupFacts.

Import Internet.

Definition cols : list string := avg_cols ++ count_cols.

(** The twelve selections of [main] against the table of the spec, on
    every column name the pipeline can produce. *)
Lemma selections_match_table :
  forallb (fun '(sel, spec) =>
    let '(alias, t, qty, p) := spec in
    String.eqb (fst sel) alias &&
    match filter (fun c => String.eqb c qty) cols with
    | [x] => String.eqb x qty
    | _ => false
    end &&
    forallb (fun yq => forallb (fun dt => forallb (fun c =>
      Bool.eqb (snd sel (col_name (mk_cache dt (fst yq) (snd yq) []) c))
               (String.eqb dt t && in_period p (fst yq) && String.eqb c qty))
      cols) DATA_TYPES) QUARTERS)
    (combine rollup_selections spec_rollup_table) = true.
Proof. vm_compute. reflexivity. Qed.

Definition wf_file (f : cache_file) : Prop :=
  In (year f, quarter f) QUARTERS /\ In (data_type f) DATA_TYPES.

Definition agrees (sel : string * (string -> bool)) (spec : string * string * string * period)
  : Prop :=
  let '(alias, t, qty, p) := spec in
  fst sel = alias /\
  filter (fun c => String.eqb c qty) cols = [qty] /\
  forall f c, wf_file f -> In c cols ->
    snd sel (col_name f c) = String.eqb (data_type f) t && in_period p (year f) && String.eqb c qty.

Lemma forall2_of_combine {A B} (R : A -> B -> Prop) (l1 : list A) (l2 : list B) :
  List.length l1 = List.length l2 ->
  (forall a b, In (a, b) (combine l1 l2) -> R a b) -> Forall2 R l1 l2.
Proof.
  revert l2. induction l1 as [|a l1 IH]; intros [|b l2] Hl H; try discriminate;
    constructor.
  - apply H. left; reflexivity.
  - apply IH; [simpl in Hl; lia|]. intros x y Hxy. apply H. right; exact Hxy.
Qed.

Lemma selections_agree : Forall2 agrees rollup_selections spec_rollup_table.
Proof.
  apply forall2_of_combine; [reflexivity|].
  intros sel [[[alias t] qty] p] Hin.
  pose proof selections_match_table as Hc.
  rewrite forallb_forall in Hc. specialize (Hc _ Hin). cbv beta iota zeta in Hc.
  apply andb_true_iff in Hc. destruct Hc as [Hc Hall].
  apply andb_true_iff in Hc. destruct Hc as [Ha Hq].
  split; [apply String.eqb_eq; exact Ha|]. split.
  - destruct (filter (fun c => String.eqb c qty) cols) as [|x [|y r]];
      try discriminate. apply String.eqb_eq in Hq. subst. reflexivity.
  - intros f c [Hyq Hdt] Hcol.
    rewrite forallb_forall in Hall. specialize (Hall _ Hyq).
    rewrite forallb_forall in Hall. specialize (Hall _ Hdt).
    rewrite forallb_forall in Hall. specialize (Hall _ Hcol).
    apply Bool.eqb_prop in Hall. exact Hall.
Qed.

Lemma flat_map_forall2 {A B C} (F1 : A -> list C) (F2 : B -> list C) R l1 l2 :
  (forall a b, R a b -> F1 a = F2 b) -> Forall2 R l1 l2 ->
  flat_map F1 l1 = flat_map F2 l2.
Proof.
  intros HR H. induction H as [|a b l1 l2 Hab _ IH]; simpl; [reflexivity|].
  rewrite (HR a b Hab), IH. reflexivity.
Qed.

Lemma left_join_cols_values f h :
  left_join_cols f h = map (fun c => (col_name f c, quarter_value f h c)) cols.
Proof.
  unfold left_join_cols, quarter_value. destruct (find _ _); reflexivity.
Qed.

Lemma non_null_flat (l : list (option Q)) :
  non_null l = flat_map (fun v => match v with Some x => [x] | None => [] end) l.
Proof. induction l as [|[x|] r IH]; simpl; rewrite ?IH; reflexivity. Qed.

Lemma pl_list_mean_available (l : list (option Q)) : pl_list_mean l = available_mean l.
Proof. unfold pl_list_mean, available_mean. rewrite non_null_flat. destruct (flat_map _ l); reflexivity. Qed.

(** The values selected in a merged row are the values of the matching
    quarters, in file order. *)
Lemma selected_values (sel : string -> bool) t qty p files h :
  filter (fun c => String.eqb c qty) cols = [qty] ->
  (forall f c, wf_file f -> In c cols ->
     sel (col_name f c) = String.eqb (data_type f) t && in_period p (year f) && String.eqb c qty) ->
  Forall wf_file files ->
  map snd (filter (fun nv => sel (fst nv)) (merged_row files h))
  = map (fun f => quarter_value f h qty)
        (filter (fun f => String.eqb (data_type f) t && in_period p (year f)) files).
Proof.
  intros Hq Hsel Hwf. induction Hwf as [|f files Hf _ IH]; [reflexivity|].
  unfold merged_row. cbn [flat_map]. fold (merged_row files h).
  rewrite filter_app, map_app, IH, left_join_cols_values.
  rewrite LookupFacts.filter_map_comm, map_map. cbn beta.
  rewrite (filter_ext_in _ (fun c => (String.eqb (data_type f) t && in_period p (year f))
                                     && String.eqb c qty)).
  2:{ intros c Hc. exact (Hsel f c Hf Hc). }
  cbn [filter].
  destruct (String.eqb (data_type f) t && in_period p (year f)); cbn [andb].
  - rewrite Hq. reflexivity.
  - clear. induction cols as [|c r IH]; simpl; [reflexivity | exact IH].
Qed.

End RollupFacts.

(** C10: each rollup column of a hexagon ([fixed_download_2023], ...,
    [mobile_latency_total]) is the unweighted mean of the hexagon's
    available (non-null) quarterly averages of the matching modality and
    quantity, over 2023 or over every quarter, null when none is
    available; the column exists when some quarter of the modality and
    period was processed. *)
Theorem rollups_are_quarterly_means (files : list Internet.cache_file) (h : string) :
  Forall (fun f => In (Internet.year f, Internet.quarter f) Internet.QUARTERS /\
                   In (Internet.data_type f) Internet.DATA_TYPES) files ->
  Internet.rollups (Internet.merged_row files h) = Internet.spec_rollups files h.
Proof.
  intros Hwf. unfold Internet.rollups, Internet.spec_rollups.
  apply (RollupFacts.flat_map_forall2 _ _ RollupFacts.agrees);
    [|exact RollupFacts.selections_agree].
  intros sel [[[alias t] qty] p] [Ha [Hq Hsel]].
  pose proof (RollupFacts.selected_values (snd sel) t qty p files h Hq Hsel Hwf) as Hv.
  pose proof (f_equal (@List.length _) Hv) as Hl. rewrite !length_map in Hl.
  destruct (filter (fun nv => snd sel (fst nv)) (Internet.merged_row files h)) as [|x xs];
    destruct (filter (fun f => String.eqb (Internet.data_type f) t
                               && Internet.in_period p (Internet.year f)) files) as [|y ys];
    try discriminate; [reflexivity|].
  rewrite Ha, RollupFacts.pl_list_mean_available, Hv. reflexivity.
Qed.

Lemma rollups_are_quarterly_means_witness :
  let files :=
    [Internet.mk_cache "fixed" 2023 1
       [Internet.mk_qcell "h" (fun c => if String.eqb c "avg_d_kbps" then Some 100 else None)];
     Internet.mk_cache "fixed" 2023 2 [];
     Internet.mk_cache "mobile" 2022 4
       [Internet.mk_qcell "h" (fun _ => Some 7)]]%string in
  Forall (fun f => In (Internet.year f, Internet.quarter f) Internet.QUARTERS /\
                   In (Internet.data_type f) Internet.DATA_TYPES) files /\
  Internet.rollups (Internet.merged_row files "h"%string)
  = Internet.spec_rollups files "h"%string.
Proof.
  intros files. assert (Hwf : Forall (fun f => In (Internet.year f, Internet.quarter f)
      Internet.QUARTERS /\ In (Internet.data_type f) Internet.DATA_TYPES) files).
  { unfold files. repeat apply Forall_cons; try apply Forall_nil;
      split; cbn [In Internet.QUARTERS Internet.DATA_TYPES Internet.year Internet.quarter
                  Internet.data_type]; repeat (first [left; reflexivity | right]). }
  split; [exact Hwf | exact (rollups_are_quarterly_means files "h"%string Hwf)].
Defined.

(** * Further properties of the pipeline *)

(** ** Matrix weights *)

Module WeightFacts.

Import Matrix.

Lemma qsum_member {A} (f : A -> Q) (l : list A) x :
  In x l -> (forall y, In y l -> 0 <= f y) -> f x <= qsum (map f l).
Proof.
  induction l as [|y r IH]; intros Hin Hnn; [destruct Hin|]. simpl.
  assert (Hr : 0 <= qsum (map f r)).
  { clear IH Hin. induction r as [|z r IHr]; simpl; [apply Qle_refl|].
    apply (Qplus_le_compat 0 (f z) 0 (qsum (map f r))) in IHr.
    - rewrite Qplus_0_l in IHr. exact IHr.
    - apply Hnn. right; left; reflexivity.
    - intros w Hw. apply Hnn. destruct Hw as [<-|Hw]; [left; reflexivity | right; right; exact Hw]. }
  destruct Hin as [->|Hin].
  - rewrite <- (Qplus_0_r (f x)) at 1. apply Qplus_le_r. exact Hr.
  - rewrite <- (Qplus_0_l (f x)). apply Qplus_le_compat.
    + apply Hnn. left; reflexivity.
    + apply IH; [exact Hin|]. intros w Hw. apply Hnn. right; exact Hw.
Qed.

Lemma normalize_range (raw : list entry) :
  (forall e, In e raw -> 0 < weight e) ->
  forall e, In e (normalize raw) -> 0 < weight e /\ weight e <= 1.
Proof.
  intros Hpos e He. unfold normalize in He. apply in_map_iff in He.
  destruct He as [x [<- Hx]]. simpl.
  assert (Hle : weight x <= key_weight_sum raw (src_key x)).
  { unfold key_weight_sum. apply qsum_member.
    - apply filter_In. split; [exact Hx | apply String.eqb_refl].
    - intros y Hy. apply filter_In in Hy. apply Qlt_le_weak, Hpos. tauto. }
  assert (Hw := Hpos x Hx).
  assert (HS : 0 < key_weight_sum raw (src_key x)) by (apply Qlt_le_trans with (weight x); assumption).
  split.
  - apply Qlt_shift_div_l; [exact HS|]. rewrite Qmult_0_l. exact Hw.
  - apply Qle_shift_div_r; [exact HS|]. rewrite Qmult_1_l. exact Hle.
Qed.

Lemma finish_matrix_range (raw : list entry) m :
  (forall e, In e raw -> 1 # 1000 < weight e) ->
  finish_matrix raw = Some m -> forall e, In e m -> 0 < weight e /\ weight e <= 1.
Proof.
  intros Hraw Hf. unfold finish_matrix in Hf. destruct raw as [|x r]; [discriminate|].
  injection Hf as <-. apply normalize_range.
  intros e He. apply Qlt_trans with (1 # 1000); [reflexivity | exact (Hraw e He)].
Qed.

End WeightFacts.

(** X1: every weight of a saved matrix (grid or quadkey) lies in (0, 1]. *)
Theorem matrix_weights_in_unit_interval (G : Matrix.GeoLib) :
  (forall data m, Matrix.build_grid_matrix G data = Some m ->
     forall e, In e m -> 0 < Matrix.weight e /\ Matrix.weight e <= 1) /\
  (forall qks m, Matrix.build_quadkey_matrix G qks = Some m ->
     forall e, In e m -> 0 < Matrix.weight e /\ Matrix.weight e <= 1).
Proof.
  split.
  - intros data m Hb. eapply WeightFacts.finish_matrix_range; [|exact Hb].
    intros e He. rewrite MatrixFacts.grid_intersection_weights_flat in He.
    apply in_flat_map in He. destruct He as [s [_ Hs]].
    exact (proj2 (MatrixFacts.grid_source_entries G s e Hs)).
  - intros qks m Hb. eapply WeightFacts.finish_matrix_range; [|exact Hb].
    intros e He. rewrite MatrixFacts.quadkey_intersection_weights_flat in He.
    apply in_flat_map in He. destruct He as [qk [_ Hq]].
    exact (proj2 (MatrixFacts.quadkey_entries G qk e Hq)).
Qed.

Lemma matrix_weights_in_unit_interval_witness :
  Forall (fun e => 0 < Matrix.weight e /\ Matrix.weight e <= 1)
    (Matrix.normalize (Matrix.grid_intersection_weights Samples.demo_geo Samples.demo_grid)).
Proof.
  apply Forall_forall.
  apply (proj1 (matrix_weights_in_unit_interval Samples.demo_geo) Samples.demo_grid).
  vm_compute. reflexivity.
Defined.

(** X2: splitting the sources into batches of [BATCH_SIZE] changes nothing:
    the raw matrix is the concatenation of the per-source results, in input
    order. *)
Theorem matrix_batching_transparent (G : Matrix.GeoLib) data qks :
  Matrix.grid_intersection_weights G data = flat_map (Matrix.process_grid_source G) data /\
  Matrix.quadkey_intersection_weights G qks = flat_map (Matrix.process_quadkey G) qks.
Proof.
  split; [apply MatrixFacts.grid_intersection_weights_flat
         | apply MatrixFacts.quadkey_intersection_weights_flat].
Qed.

(** ** Output hexagons of the aggregations *)

Module JoinFacts.

Import Matrix.

Lemma in_population_join rows m je :
  In je (Population.join_matrix rows m) <->
  In (fst je) rows /\ In (snd je) m /\ src_key (snd je) = Population.GRD_ID (fst je).
Proof.
  unfold Population.join_matrix. rewrite in_flat_map. split.
  - intros [r [Hr Hin]]. apply in_map_iff in Hin. destruct Hin as [e [<- He]].
    apply filter_In in He. destruct He as [He E]. apply String.eqb_eq in E. simpl. auto.
  - destruct je as [r e]. simpl. intros [Hr [He E]]. exists r. split; [exact Hr|].
    apply in_map. apply filter_In. split; [exact He | apply String.eqb_eq; exact E].
Qed.

Lemma in_speed_join rows m je :
  In je (Internet.join_matrix rows m) <->
  In (fst je) rows /\ In (snd je) m /\ src_key (snd je) = Internet.quadkey (fst je).
Proof.
  unfold Internet.join_matrix. rewrite in_flat_map. split.
  - intros [r [Hr Hin]]. apply in_map_iff in Hin. destruct Hin as [e [<- He]].
    apply filter_In in He. destruct He as [He E]. apply String.eqb_eq in E. simpl. auto.
  - destruct je as [r e]. simpl. intros [Hr [He E]]. exists r. split; [exact Hr|].
    apply in_map. apply filter_In. split; [exact He | apply String.eqb_eq; exact E].
Qed.

Lemma pl_sum_nonneg (l : list (option Q)) :
  (forall v y, In v l -> v = Some y -> 0 <= y) -> 0 <= pl_sum l.
Proof.
  induction l as [|[x|] r IH]; intros H; simpl; [apply Qle_refl| |].
  - rewrite <- (Qplus_0_l 0). apply Qplus_le_compat.
    + apply (H (Some x)); [left|]; reflexivity.
    + apply IH. intros v y Hv. apply H. right; exact Hv.
  - apply IH. intros v y Hv. apply H. right; exact Hv.
Qed.

Lemma qsum_le {A} (f g : A -> Q) (l : list A) :
  (forall x, In x l -> f x <= g x) -> qsum (map f l) <= qsum (map g l).
Proof.
  induction l as [|x r IH]; intros H; simpl; [apply Qle_refl|].
  apply Qplus_le_compat; [apply H; left; reflexivity|].
  apply IH. intros y Hy. apply H. right; exact Hy.
Qed.

End JoinFacts.

(** X3: the hexagons of the population output are distinct, and they are
    exactly the H3 cells that the matrix maps some census cell of the input
    to. *)
Theorem population_output_hexagons (gdf : list Population.census_row) (m : list Matrix.entry) :
  NoDup (map Population.cell_index (Population.convert_to_h3_matrix gdf m)) /\
  (forall h, In h (map Population.cell_index (Population.convert_to_h3_matrix gdf m)) <->
     exists r e, In r gdf /\ In e m /\ Matrix.src_key e = Population.GRD_ID r /\
                 Matrix.h3_index e = h).
Proof.
  unfold Population.convert_to_h3_matrix. rewrite LookupFacts.out_keys_population.
  split; [apply GroupFacts.dedup_NoDup|]. intros h.
  rewrite GroupFacts.dedup_In, in_map_iff. split.
  - intros [je [Eh Hje]]. apply JoinFacts.in_population_join in Hje.
    destruct Hje as [Hr [He Ek]]. apply in_map_iff in Hr. destruct Hr as [r [Er Hr]].
    exists r, (snd je). rewrite <- Er in Ek. simpl in Ek. auto.
  - intros [r [e [Hr [He [Ek Eh]]]]]. exists (Population.clean_row r, e). split; [exact Eh|].
    apply JoinFacts.in_population_join. simpl. split; [apply in_map; exact Hr|]. auto.
Qed.

(** X4: the hexagons of a per-quarter internet table are distinct, and they
    are exactly the H3 cells that the matrix maps some tile of the quarter
    to. *)
Theorem quarter_table_hexagons (rows : list Internet.speed_row) (m : list Matrix.entry) :
  NoDup (map Internet.q_index (Internet.process_quarter rows m)) /\
  (forall h, In h (map Internet.q_index (Internet.process_quarter rows m)) <->
     exists r e, In r rows /\ In e m /\ Matrix.src_key e = Internet.quadkey r /\
                 Matrix.h3_index e = h).
Proof.
  rewrite LookupFacts.out_keys_quarter.
  split; [apply GroupFacts.dedup_NoDup|]. intros h.
  rewrite GroupFacts.dedup_In, in_map_iff. split.
  - intros [je [Eh Hje]]. apply JoinFacts.in_speed_join in Hje.
    destruct Hje as [Hr [He Ek]]. exists (fst je), (snd je). auto.
  - intros [r [e [Hr [He [Ek Eh]]]]]. exists (r, e). split; [exact Eh|].
    apply JoinFacts.in_speed_join. simpl. auto.
Qed.

(** X5: if every census population value is non-negative or the no-data
    value -9999, and every matrix weight is non-negative, then every
    population aggregate of the output is non-negative. *)
Theorem population_aggregates_nonnegative (gdf : list Population.census_row)
        (m : list Matrix.entry) :
  (forall r c x, In r gdf -> Population.is_population_col c = true ->
     Population.census_val r c = Some x -> 0 <= x \/ x == -9999) ->
  (forall e, In e m -> 0 <= Matrix.weight e) ->
  forall h c v, Population.is_population_col c = true ->
    Population.lookup_cell (Population.convert_to_h3_matrix gdf m) h c = Some (Some v) ->
    0 <= v.
Proof.
  intros Hval Hw h c v Hc Hl. unfold Population.convert_to_h3_matrix in Hl.
  rewrite LookupFacts.lookup_population in Hl.
  destruct (existsb _ _); [|discriminate].
  unfold Population.aggregated_col in Hl. rewrite Hc in Hl. simpl in Hl.
  injection Hl as <-. apply JoinFacts.pl_sum_nonneg.
  intros o y Ho Ey. apply in_map_iff in Ho. destruct Ho as [je [Eo Hje]].
  apply filter_In in Hje. destruct Hje as [Hje _].
  apply JoinFacts.in_population_join in Hje. destruct Hje as [Hr [He _]].
  apply in_map_iff in Hr. destruct Hr as [r [Er Hr]].
  rewrite <- Eo, Ey in *. clear Eo.
  unfold Population.w_col, pl_mul in Ey. rewrite <- Er in Ey. simpl in Ey. rewrite Hc in Ey.
  unfold Population.replace_nodata in Ey.
  destruct (Population.census_val r c) as [x|] eqn:Ex; [|discriminate].
  destruct (Qeq_bool x (-9999)) eqn:Eq; [discriminate|].
  injection Ey as <-. destruct (Hval r c x Hr Hc Ex) as [Hx|Hx].
  - apply Qmult_le_0_compat; [exact Hx | exact (Hw _ He)].
  - apply Qeq_bool_iff in Hx. rewrite Hx in Eq. discriminate.
Qed.

Lemma population_aggregates_nonnegative_witness :
  0 <= 34000 # 20.
Proof.
  apply (population_aggregates_nonnegative Samples.demo_census Samples.demo_pop_matrix)
    with (h := "h1"%string) (c := "T"%string).
  - intros r c x Hr. simpl in Hr.
    repeat destruct Hr as [<-|Hr]; try destruct Hr; unfold Samples.census_T; simpl;
      destruct (String.eqb c "T"); intros _ E; try discriminate; injection E as <-;
      [left | left | left | right]; try reflexivity; discriminate.
  - intros e He. simpl in He.
    repeat destruct He as [<-|He]; try destruct He; simpl; discriminate.
  - reflexivity.
  - vm_compute. reflexivity.
Defined.

(** X6: when every tile row of a hexagon has a value of an average column
    within [lo, hi] and a positive weight, the hexagon's average for that
    column lies within [lo, hi]. *)
Theorem quarter_average_within_tile_range (rows : list Internet.speed_row)
        (m : list Matrix.entry) (h c : string) (v lo hi : Q) :
  Internet.in_cols Internet.avg_cols c = true ->
  (forall je, In je (Internet.cell_group (Internet.join_matrix rows m) h) ->
     0 < Matrix.weight (snd je) /\
     exists x, Internet.speed_val (fst je) c = Some x /\ lo <= x /\ x <= hi) ->
  Internet.lookup_qcell (Internet.process_quarter rows m) h c = Some (Some v) ->
  lo <= v /\ v <= hi.
Proof.
  intros Hc Hg Hl. rewrite LookupFacts.lookup_quarter in Hl. cbv zeta in Hl.
  destruct (existsb (String.eqb h) _) eqn:Ex; [|discriminate].
  rewrite Hc in Hl. unfold Internet.pl_div in Hl. injection Hl as <-.
  set (g := Internet.cell_group (Internet.join_matrix rows m) h) in *.
  set (W := qsum (map (fun je => Matrix.weight (snd je)) g)).
  assert (Hne : g <> []).
  { apply PopulationFacts.existsb_eqb_In in Ex. apply in_map_iff in Ex.
    destruct Ex as [je [Eh Hje]]. intros Hnil.
    assert (Hin : In je g).
    { unfold g, Internet.cell_group. apply filter_In. split; [exact Hje|].
      apply String.eqb_eq. exact Eh. }
    rewrite Hnil in Hin. exact Hin. }
  assert (HW : 0 < W).
  { unfold W. apply qsum_pos; [exact Hne|]. intros je Hje. exact (proj1 (Hg je Hje)). }
  rewrite GroupFacts.pl_sum_val, map_map.
  assert (Hlo : lo * W <= qsum (map (fun je => GroupFacts.pl_val (Internet.w_col c je)) g)).
  { unfold W. rewrite <- GroupFacts.qsum_scale. apply JoinFacts.qsum_le.
    intros je Hje. destruct (Hg je Hje) as [Hpos [x [Ex' [Hx1 Hx2]]]].
    unfold Internet.w_col, pl_mul. rewrite Ex'. simpl.
    apply Qmult_le_compat_r; [exact Hx1 | apply Qlt_le_weak; exact Hpos]. }
  assert (Hhi : qsum (map (fun je => GroupFacts.pl_val (Internet.w_col c je)) g) <= hi * W).
  { unfold W. rewrite <- GroupFacts.qsum_scale. apply JoinFacts.qsum_le.
    intros je Hje. destruct (Hg je Hje) as [Hpos [x [Ex' [Hx1 Hx2]]]].
    unfold Internet.w_col, pl_mul. rewrite Ex'. simpl.
    apply Qmult_le_compat_r; [exact Hx2 | apply Qlt_le_weak; exact Hpos]. }
  split.
  - apply Qle_shift_div_l; [exact HW | exact Hlo].
  - apply Qle_shift_div_r; [exact HW | exact Hhi].
Qed.

Lemma quarter_average_within_tile_range_witness :
  50 <= 100 /\ 100 <= 150.
Proof.
  apply (quarter_average_within_tile_range [Samples.speed_d "q1" (Some 100)]
           [Matrix.mk_entry "q1" "h" 1] "h" "avg_d_kbps")%string.
  - reflexivity.
  - intros je Hje. vm_compute in Hje. destruct Hje as [<-|[]]. split; [reflexivity|].
    exists 100. split; [reflexivity|]. split; discriminate.
  - vm_compute. reflexivity.
Defined.

(** ** Rounding in [save_output] *)

Module RoundFacts.

Import Fuser.

Lemma round0_err x : Qabs (x - inject_Z (round0 x)) <= 1 # 2.
Proof.
  unfold round0. apply Qabs_Qle_condition.
  destruct (Qle_bool 0 x) eqn:E.
  - pose proof (Qfloor_le (x + (1 # 2))) as H1. pose proof (Qlt_floor (x + (1 # 2))) as H2.
    rewrite inject_Z_plus in H2. change (inject_Z 1) with 1 in H2. split; lra.
  - pose proof (Qfloor_le (- x + (1 # 2))) as H1. pose proof (Qlt_floor (- x + (1 # 2))) as H2.
    rewrite inject_Z_plus in H2. change (inject_Z 1) with 1 in H2.
    rewrite inject_Z_opp. split; lra.
Qed.

Lemma round2_err x : Qabs (x - round2 x) <= 1 # 200.
Proof.
  pose proof (round0_err (x * 100)) as H. apply Qabs_Qle_condition in H.
  apply Qabs_Qle_condition. unfold round2. destruct H as [H1 H2].
  set (n := inject_Z (round0 (x * 100))) in *.
  assert (E : n / 100 == n * (1 # 100)) by reflexivity. rewrite E. split; lra.
Qed.

Lemma round0_nonneg x : 0 <= x -> (0 <= round0 x)%Z.
Proof.
  intros H. unfold round0. apply Qle_bool_iff in H. rewrite H.
  apply Qle_bool_iff in H.
  assert (0 <= Qfloor (x + (1 # 2)))%Z.
  { change 0%Z with (Qfloor 0). apply Qfloor_resp_le. lra. }
  exact H0.
Qed.

(** A stored integer is the value rounded to within 1/2, nullness kept. *)
Definition rounded_int (o : option Q) (z : option Z) : Prop :=
  match o, z with
  | Some x, Some n => Qabs (x - inject_Z n) <= 1 # 2
  | None, None => True
  | _, _ => False
  end.

(** A stored float is the value rounded to within 1/200, nullness kept. *)
Definition rounded_cents (o p : option Q) : Prop :=
  match o, p with
  | Some x, Some y => Qabs (x - y) <= 1 # 200
  | None, None => True
  | _, _ => False
  end.

Lemma round0_opt o : rounded_int o (option_map round0 o).
Proof. destruct o as [x|]; simpl; [apply round0_err | exact I]. Qed.

Lemma round2_opt o : rounded_cents o (option_map round2 o).
Proof. destruct o as [x|]; simpl; [apply round2_err | exact I]. Qed.

Lemma forall2_map {A B} (R : A -> B -> Prop) (f : A -> B) l :
  (forall a, R a (f a)) -> Forall2 R l (map f l).
Proof. intros H. induction l; constructor; auto. Qed.

End RoundFacts.

(** X10: [save_output] keeps the hexagon and the nullness of every value;
    a stored population count is within 1/2 of the fused value and a stored
    float (health distance, internet rollups) within 1/200. *)
Theorem save_row_rounding (r : Fuser.merged_row) :
  Fuser.f_h3 (Fuser.save_row r) = Fuser.m_h3 r /\
  RoundFacts.rounded_int (Fuser.m_pop_total r) (Fuser.f_pop_total (Fuser.save_row r)) /\
  Forall2 RoundFacts.rounded_int (Fuser.m_pop_rest r) (Fuser.f_pop_rest (Fuser.save_row r)) /\
  RoundFacts.rounded_cents (Fuser.m_health r) (Fuser.f_health (Fuser.save_row r)) /\
  Forall2 RoundFacts.rounded_cents (Fuser.m_internet r) (Fuser.f_internet (Fuser.save_row r)).
Proof.
  unfold Fuser.save_row. simpl. split; [reflexivity|].
  split; [apply RoundFacts.round0_opt|].
  split; [apply RoundFacts.forall2_map, RoundFacts.round0_opt|].
  split; [apply RoundFacts.round2_opt|].
  apply RoundFacts.forall2_map, RoundFacts.round2_opt.
Qed.

(** X11: every row written by the fuser has a non-null, non-negative
    stored [pop_total] and a non-null [health_distance]. *)
Theorem fused_rows_have_population_and_health icols pop health net (fr : Fuser.final_row) :
  In fr (Fuser.fuse icols pop health net) ->
  exists z d, Fuser.f_pop_total fr = Some z /\ (0 <= z)%Z /\ Fuser.f_health fr = Some d.
Proof.
  unfold Fuser.fuse, Fuser.save_output, Fuser.filter_and_finalize.
  intros Hin. apply in_map_iff in Hin. destruct Hin as [r [<- Hr]].
  apply filter_In in Hr. destruct Hr as [_ Hk]. unfold Fuser.keep_row in Hk.
  unfold Fuser.save_row. simpl.
  destruct (Fuser.m_pop_total r) as [t|]; [|discriminate].
  destruct (Fuser.m_health r) as [d|]; [|discriminate].
  exists (Fuser.round0 t), (Fuser.round2 d). split; [reflexivity|]. split; [|reflexivity].
  apply RoundFacts.round0_nonneg. unfold Qgtb in Hk.
  destruct (Qle_bool t 0) eqn:E; [discriminate|].
  apply Qlt_le_weak, Qnot_le_lt. intros H. apply Qle_bool_iff in H. congruence.
Qed.

Lemma fused_rows_have_population_and_health_witness :
  exists z d,
    Fuser.f_pop_total (Fuser.mk_final "hp" (Some 40%Z) [] (Some (Fuser.round2 600)) [None])
      = Some z /\ (0 <= z)%Z /\
    Fuser.f_health (Fuser.mk_final "hp" (Some 40%Z) [] (Some (Fuser.round2 600)) [None])
      = Some d.
Proof.
  apply (fused_rows_have_population_and_health Samples.demo_icols Samples.demo_pop
           Samples.demo_health Samples.demo_net).
  vm_compute. left. reflexivity.
Defined.

(** ** Column sets *)

Module SchemaFacts.

Import Internet Schema.

Lemma mem_In x l : mem x l = true <-> In x l.
Proof.
  unfold mem. rewrite existsb_exists. split.
  - intros [y [Hy E]]. apply String.eqb_eq in E. subst. exact Hy.
  - intros H. exists x. split; [exact H | apply String.eqb_refl].
Qed.

Lemma mem_false x l : ~ In x l -> mem x l = false.
Proof.
  intros H. destruct (mem x l) eqn:E; [|reflexivity]. apply mem_In in E. contradiction.
Qed.

Fixpoint nodupb (l : list string) : bool :=
  match l with
  | [] => true
  | x :: r => negb (mem x r) && nodupb r
  end.

Lemma nodupb_NoDup l : nodupb l = true -> NoDup l.
Proof.
  induction l as [|x r IH]; simpl; intros H; [constructor|].
  apply andb_prop in H as [H1 H2]. constructor; [|exact (IH H2)].
  intros Hx. apply mem_In in Hx. rewrite Hx in H1. discriminate.
Qed.

Lemma select_all cols sel : (forall c, In c sel -> In c cols) -> select cols sel = Some sel.
Proof.
  intros H. unfold select. replace (forallb _ sel) with true; [reflexivity|].
  symmetry. apply forallb_forall. intros c Hc. apply mem_In, H, Hc.
Qed.

Lemma flat_map_ext_in {A B} (f g : A -> list B) l :
  (forall x, In x l -> f x = g x) -> flat_map f l = flat_map g l.
Proof.
  induction l as [|x r IH]; intros H; simpl; [reflexivity|].
  rewrite (H x (or_introl eq_refl)), IH; [reflexivity|].
  intros y Hy. apply H. right; exact Hy.
Qed.

(** The [seen] loop. *)
Lemma unique_in_app cols seen a b :
  unique_in cols seen (a ++ b) =
  unique_in cols seen a ++ unique_in cols (rev (unique_in cols seen a) ++ seen) b.
Proof.
  revert seen. induction a as [|c r IH]; intros seen; simpl; [reflexivity|].
  destruct (mem c cols && negb (mem c seen)); [|apply IH].
  rewrite IH. simpl. rewrite <- app_assoc. reflexivity.
Qed.

Lemma unique_in_filter cols seen l :
  NoDup l -> unique_in cols seen l = filter (fun c => mem c cols && negb (mem c seen)) l.
Proof.
  revert seen. induction l as [|c r IH]; intros seen Hnd; simpl; [reflexivity|].
  apply NoDup_cons_iff in Hnd as [Hc Hnd].
  destruct (mem c cols && negb (mem c seen)); rewrite IH by exact Hnd; [|reflexivity].
  f_equal. apply filter_ext_in. intros x Hx. simpl.
  replace (String.eqb x c) with false; [reflexivity|].
  symmetry. apply String.eqb_neq. intros ->. contradiction.
Qed.

Lemma unique_in_seen cols seen l :
  (forall x, In x l -> mem x seen = true) -> unique_in cols seen l = [].
Proof.
  induction l as [|c r IH]; intros H; simpl; [reflexivity|].
  rewrite (H c (or_introl eq_refl)), andb_false_r. apply IH.
  intros x Hx. apply H. right; exact Hx.
Qed.

Lemma unique_in_In cols seen l x :
  In x (unique_in cols seen l) <-> In x l /\ mem x cols = true /\ mem x seen = false.
Proof.
  revert seen. induction l as [|c r IH]; intros seen; simpl; [tauto|].
  destruct (mem c cols && negb (mem c seen)) eqn:E.
  - apply andb_prop in E as [E1 E2]. apply negb_true_iff in E2.
    simpl. rewrite IH. simpl. destruct (String.eqb x c) eqn:Ex.
    + apply String.eqb_eq in Ex. subst x. rewrite E1, E2. intuition congruence.
    + apply String.eqb_neq in Ex. simpl. intuition congruence.
  - rewrite IH. split.
    + intros [H1 H2]. auto.
    + intros [[<-|H1] [H2 H3]]; [|auto]. rewrite H2, H3 in E. discriminate.
Qed.

Lemma unique_in_NoDup cols seen l : NoDup (unique_in cols seen l).
Proof.
  revert seen. induction l as [|c r IH]; intros seen; simpl; [constructor|].
  destruct (mem c cols && negb (mem c seen)); [|apply IH].
  constructor; [|apply IH]. intros Hc. apply unique_in_In in Hc.
  destruct Hc as [_ [_ Hc]]. simpl in Hc. rewrite String.eqb_refl in Hc. discriminate.
Qed.

(** The quarter column names, over every (data type, quarter, column). *)
Definition key_name (k : string * (nat * nat) * string) : string :=
  let '(dt, yq, c) := k in col_name (mk_cache dt (fst yq) (snd yq) []) c.

Definition all_keys : list (string * (nat * nat) * string) :=
  flat_map (fun dt => flat_map (fun yq => map (fun c => (dt, yq, c)) RollupFacts.cols)
                                QUARTERS) DATA_TYPES.

Definition key_eqb (a b : string * (nat * nat) * string) : bool :=
  let '(d1, (y1, q1), c1) := a in
  let '(d2, (y2, q2), c2) := b in
  String.eqb d1 d2 && Nat.eqb y1 y2 && Nat.eqb q1 q2 && String.eqb c1 c2.

Lemma key_names_injective :
  forallb (fun a => forallb (fun b =>
    implb (String.eqb (key_name a) (key_name b)) (key_eqb a b)) all_keys) all_keys = true.
Proof. vm_compute. reflexivity. Qed.

Definition meta4 : list string := ["h3_index"; "h3_resolution"; "lat"; "lon"]%string.

Definition aliases : list string := map fst rollup_selections.

Lemma key_names_plain :
  forallb (fun k => negb (mem (key_name k) meta4) && negb (is_aggregate (key_name k))
                    && negb (mem (key_name k) aliases)) all_keys = true.
Proof. vm_compute. reflexivity. Qed.

Lemma selections_skip_index :
  forallb (fun sel => negb (snd sel "h3_index"%string)) rollup_selections = true.
Proof. vm_compute. reflexivity. Qed.

Lemma aliases_plain :
  forallb (fun a => is_aggregate a && negb (mem a meta4)
                    && negb (mem a fuser_population_cols)
                    && negb (String.eqb a "health_distance")) aliases = true.
Proof. vm_compute. reflexivity. Qed.

Lemma aliases_nodup : nodupb aliases = true.
Proof. vm_compute. reflexivity. Qed.

Lemma in_all_keys f c :
  RollupFacts.wf_file f -> In c RollupFacts.cols ->
  In (data_type f, (year f, quarter f), c) all_keys /\
  col_name f c = key_name (data_type f, (year f, quarter f), c).
Proof.
  intros [Hq Hd] Hc. split; [|reflexivity]. unfold all_keys.
  apply in_flat_map. exists (data_type f). split; [exact Hd|].
  apply in_flat_map. exists (year f, quarter f). split; [exact Hq|].
  apply in_map_iff. exists c. auto.
Qed.

Lemma col_name_inj f g c c' :
  RollupFacts.wf_file f -> RollupFacts.wf_file g ->
  In c RollupFacts.cols -> In c' RollupFacts.cols -> col_name f c = col_name g c' ->
  data_type f = data_type g /\ year f = year g /\ quarter f = quarter g /\ c = c'.
Proof.
  intros Hf Hg Hc Hc' E.
  destruct (in_all_keys f c Hf Hc) as [Ha Ea]. destruct (in_all_keys g c' Hg Hc') as [Hb Eb].
  pose proof key_names_injective as K. rewrite forallb_forall in K.
  specialize (K _ Ha). rewrite forallb_forall in K. specialize (K _ Hb).
  rewrite <- Ea, <- Eb, E, String.eqb_refl in K. simpl in K.
  apply andb_prop in K as [K E4]. apply andb_prop in K as [K E3].
  apply andb_prop in K as [E1 E2].
  apply String.eqb_eq in E1. apply Nat.eqb_eq in E2. apply Nat.eqb_eq in E3.
  apply String.eqb_eq in E4. auto.
Qed.

Lemma col_name_plain f c :
  RollupFacts.wf_file f -> In c RollupFacts.cols ->
  ~ In (col_name f c) meta4 /\ is_aggregate (col_name f c) = false /\
  ~ In (col_name f c) aliases.
Proof.
  intros Hf Hc. destruct (in_all_keys f c Hf Hc) as [Ha Ea].
  pose proof key_names_plain as K. rewrite forallb_forall in K. specialize (K _ Ha).
  rewrite <- Ea in K. apply andb_prop in K as [K K3]. apply andb_prop in K as [K1 K2].
  apply negb_true_iff in K1, K2, K3. split; [|split; [exact K2|]];
    intros H; apply mem_In in H; congruence.
Qed.

Lemma in_quarter_columns n files :
  In n (quarter_columns files) <->
  exists f c, In f files /\ In c RollupFacts.cols /\ n = col_name f c.
Proof.
  unfold quarter_columns. rewrite in_flat_map. split.
  - intros [f [Hf Hn]]. apply in_map_iff in Hn. destruct Hn as [c [<- Hc]].
    exists f, c. auto.
  - intros [f [c [Hf [Hc ->]]]]. exists f. split; [exact Hf|]. apply in_map. exact Hc.
Qed.

Lemma quarter_column_plain files n :
  Forall RollupFacts.wf_file files -> In n (quarter_columns files) ->
  ~ In n meta4 /\ is_aggregate n = false /\ ~ In n aliases.
Proof.
  intros Hw Hn. apply in_quarter_columns in Hn. destruct Hn as [f [c [Hf [Hc ->]]]].
  apply col_name_plain; [|exact Hc]. rewrite Forall_forall in Hw. exact (Hw f Hf).
Qed.

Definition triple (f : cache_file) : string * nat * nat := (data_type f, year f, quarter f).

(** One [result.join(ldf, on="h3_index", how="left")] step: the new
    columns never clash. *)
Lemma join_step pre f :
  Forall RollupFacts.wf_file pre -> RollupFacts.wf_file f ->
  ~ In (triple f) (map triple pre) ->
  join_columns ("h3_index"%string :: quarter_columns pre) (cache_columns f) =
  "h3_index"%string :: quarter_columns (pre ++ [f]).
Proof.
  intros Hpre Hf Hnot. unfold join_columns, cache_columns.
  assert (Eq : quarter_columns (pre ++ [f]) = quarter_columns pre ++ map (col_name f) (avg_cols ++ count_cols)).
  { unfold quarter_columns. rewrite flat_map_app. cbn [flat_map]. rewrite app_nil_r. reflexivity. }
  rewrite Eq. cbn [filter]. rewrite String.eqb_refl. cbn [negb].
  cbn [app]. f_equal. f_equal.
  rewrite forallb_filter_id.
  2:{ apply forallb_forall. intros n Hn. apply in_map_iff in Hn. destruct Hn as [c [<- Hc]].
      apply negb_true_iff, String.eqb_neq. intros E.
      destruct (col_name_plain f c Hf Hc) as [Hm _]. apply Hm. rewrite E. left; reflexivity. }
  rewrite <- (map_id (map (col_name f) (avg_cols ++ count_cols))) at 2.
  apply map_ext_in. intros n Hn. apply in_map_iff in Hn. destruct Hn as [c [<- Hc]].
  replace (mem (col_name f c) ("h3_index"%string :: quarter_columns pre)) with false;
    [reflexivity|].
  symmetry. apply mem_false. intros [E|E].
  - destruct (col_name_plain f c Hf Hc) as [Hm _]. apply Hm. rewrite <- E. left; reflexivity.
  - apply in_quarter_columns in E. destruct E as [g [c' [Hg [Hc' E]]]].
    rewrite Forall_forall in Hpre.
    destruct (col_name_inj f g c c' Hf (Hpre g Hg) Hc Hc' E) as [E1 [E2 [E3 _]]].
    apply Hnot. apply in_map_iff. exists g. split; [|exact Hg].
    unfold triple. rewrite E1, E2, E3. reflexivity.
Qed.

Lemma join_fold files pre :
  Forall RollupFacts.wf_file (pre ++ files) -> NoDup (map triple (pre ++ files)) ->
  fold_left (fun acc f => join_columns acc (cache_columns f)) files
    ("h3_index"%string :: quarter_columns pre) =
  "h3_index"%string :: quarter_columns (pre ++ files).
Proof.
  revert pre. induction files as [|f r IH]; intros pre Hw Hnd.
  - rewrite app_nil_r. reflexivity.
  - simpl. rewrite join_step.
    + replace (pre ++ f :: r) with ((pre ++ [f]) ++ r) by (rewrite <- app_assoc; reflexivity).
      apply IH; rewrite <- app_assoc; assumption.
    + apply Forall_app in Hw. exact (proj1 Hw).
    + apply Forall_app in Hw. destruct Hw as [_ Hw]. inversion Hw; assumption.
    + rewrite map_app in Hnd. apply NoDup_remove_2 in Hnd. simpl in Hnd.
      intros H. apply Hnd. apply in_app_iff. left; exact H.
Qed.

Lemma new_col_names_alias cols a : In a (new_col_names cols) -> In a aliases.
Proof.
  unfold new_col_names. rewrite in_flat_map. intros [sel [Hs Ha]].
  destruct (existsb (snd sel) cols); [|destruct Ha].
  destruct Ha as [<-|[]]. apply in_map. exact Hs.
Qed.

Lemma alias_plain a :
  In a aliases ->
  is_aggregate a = true /\ ~ In a meta4 /\ ~ In a fuser_population_cols /\
  a <> "health_distance"%string.
Proof.
  intros Ha. pose proof aliases_plain as K. rewrite forallb_forall in K.
  specialize (K a Ha). apply andb_prop in K as [K K4]. apply andb_prop in K as [K K3].
  apply andb_prop in K as [K1 K2]. apply negb_true_iff in K2, K3, K4.
  split; [exact K1|]. split; [intros H; apply mem_In in H; congruence|].
  split; [intros H; apply mem_In in H; congruence|].
  intros E. rewrite E in K4. discriminate.
Qed.

Lemma new_col_names_NoDup cols : NoDup (new_col_names cols).
Proof.
  pose proof (nodupb_NoDup _ aliases_nodup) as H. unfold aliases in H.
  unfold new_col_names. induction rollup_selections as [|sel r IH]; simpl; [constructor|].
  simpl in H. apply NoDup_cons_iff in H as [Hs Hr].
  destruct (existsb (snd sel) cols); simpl; [|exact (IH Hr)].
  constructor; [|exact (IH Hr)]. intros Hin. apply Hs.
  apply in_flat_map in Hin. destruct Hin as [s [Hs' Ha]].
  destruct (existsb (snd s) cols); [|destruct Ha].
  destruct Ha as [E|[]]. rewrite <- E. apply in_map. exact Hs'.
Qed.

Lemma new_col_names_index files :
  new_col_names ("h3_index"%string :: quarter_columns files) =
  new_col_names (quarter_columns files).
Proof.
  unfold new_col_names. apply flat_map_ext_in. intros sel Hs. simpl.
  pose proof selections_skip_index as K. rewrite forallb_forall in K.
  specialize (K sel Hs). apply negb_true_iff in K. rewrite K. reflexivity.
Qed.

Lemma filter_none {A} (p : A -> bool) l : (forall x, In x l -> p x = false) -> filter p l = [].
Proof.
  induction l as [|x r IH]; intros H; simpl; [reflexivity|].
  rewrite (H x (or_introl eq_refl)). apply IH. intros y Hy. apply H. right; exact Hy.
Qed.

Lemma filter_all {A} (p : A -> bool) l : (forall x, In x l -> p x = true) -> filter p l = l.
Proof.
  intros H. apply forallb_filter_id, forallb_forall. exact H.
Qed.

(** The columns written by [etl_internet.main]. *)
Lemma internet_columns files :
  Forall RollupFacts.wf_file files -> NoDup (map triple files) ->
  internet_output_columns files =
  Some (meta4 ++ new_col_names (quarter_columns files)).
Proof.
  intros Hw Hnd. unfold internet_output_columns.
  change ["h3_index"%string] with ("h3_index"%string :: quarter_columns []).
  rewrite (join_fold files [] Hw Hnd). cbn [app].
  rewrite new_col_names_index.
  set (QC := quarter_columns files).
  set (NC := new_col_names QC).
  assert (HQ : forall n, In n QC -> ~ In n meta4 /\ is_aggregate n = false /\ ~ In n aliases)
    by (intros n Hn; exact (quarter_column_plain files n Hw Hn)).
  assert (HA : forall a, In a NC -> is_aggregate a = true /\ ~ In a meta4 /\
               ~ In a fuser_population_cols /\ a <> "health_distance"%string)
    by (intros a Ha; apply alias_plain; exact (new_col_names_alias _ a Ha)).
  assert (Emeta : with_columns ("h3_index"%string :: QC) ["lat"; "lon"; "h3_resolution"]%string
                  = "h3_index"%string :: QC ++ ["lat"; "lon"; "h3_resolution"]%string).
  { unfold with_columns. rewrite filter_all; [reflexivity|].
    intros x Hx. apply negb_true_iff, mem_false. intros [E|E].
    - rewrite <- E in Hx. simpl in Hx. intuition discriminate.
    - destruct (HQ x E) as [Hm _]. apply Hm. simpl in Hx |- *. intuition. }
  rewrite Emeta.
  assert (Enew : with_columns ("h3_index"%string :: QC ++ ["lat"; "lon"; "h3_resolution"]%string) NC
                 = "h3_index"%string :: QC ++ ["lat"; "lon"; "h3_resolution"]%string ++ NC).
  { unfold with_columns. rewrite filter_all.
    - rewrite <- app_comm_cons, <- app_assoc. reflexivity.
    - intros a Ha. apply negb_true_iff, mem_false.
      destruct (HA a Ha) as [_ [Hm _]]. intros H. destruct H as [E|H].
      + apply Hm. rewrite <- E. left; reflexivity.
      + apply in_app_iff in H. destruct H as [H|H].
        * destruct (HQ a H) as [_ [_ Hal]]. apply Hal.
          exact (new_col_names_alias _ a Ha).
        * apply Hm. simpl in H |- *. intuition. }
  rewrite Enew.
  assert (Eagg : filter is_aggregate
                   ("h3_index"%string :: QC ++ ["lat"; "lon"; "h3_resolution"]%string ++ NC) = NC).
  { assert (E1 : is_aggregate "h3_index" = false) by reflexivity.
    assert (E2 : filter is_aggregate ["lat"; "lon"; "h3_resolution"]%string = []) by reflexivity.
    cbn [filter]. rewrite E1, !filter_app, E2, filter_none.
    - cbn [app]. apply filter_all. intros a Ha. exact (proj1 (HA a Ha)).
    - intros n Hn. exact (proj1 (proj2 (HQ n Hn))). }
  rewrite Eagg. apply select_all. intros c Hc. apply in_app_iff in Hc.
  destruct Hc as [Hc|Hc].
  - simpl in Hc |- *. rewrite !in_app_iff. simpl. intuition.
  - simpl. right. rewrite !in_app_iff. simpl. tauto.
Qed.

End SchemaFacts.

Module FusedFacts.

Import Internet Schema SchemaFacts.

Definition fixed_cols : list string :=
  metadata_cols ++ fuser_population_cols ++ ["health_distance"%string].

Lemma fixed_cols_nodup : nodupb fixed_cols = true.
Proof. vm_compute. reflexivity. Qed.

Lemma alias_not_fixed a : In a aliases -> ~ In a fixed_cols.
Proof.
  intros Ha H. destruct (alias_plain a Ha) as [_ [Hm [Hp Hh]]].
  unfold fixed_cols in H. rewrite !in_app_iff in H. destruct H as [H|[H|H]].
  - apply Hm. simpl in H |- *. intuition.
  - exact (Hp H).
  - destruct H as [H|[]]. exact (Hh (eq_sym H)).
Qed.

Lemma population_prepared gdf_cols :
  (forall c, In c Population.population_cols -> In c gdf_cols) ->
  prepare_population_columns (population_output_columns gdf_cols) =
  Some (metadata_cols ++ fuser_population_cols).
Proof.
  intros Hpop. unfold prepare_population_columns.
  assert (Hin : forall c, In c Population.population_cols ->
                In c (population_output_columns gdf_cols)).
  { intros c Hc. unfold population_output_columns. rewrite !in_app_iff. right. left.
    apply filter_In. split; [exact Hc|]. apply mem_In, Hpop, Hc. }
  change (map fst rename_map) with Population.population_cols.
  rewrite (filter_all _ Population.population_cols)
    by (intros k Hk; apply mem_In, Hin, Hk).
  rewrite select_all; [reflexivity|].
  intros c Hc. apply in_app_iff in Hc. destruct Hc as [Hc|Hc]; [|exact (Hin c Hc)].
  unfold population_output_columns. rewrite !in_app_iff. left.
  simpl in Hc |- *. intuition.
Qed.

Lemma internet_prepared files :
  prepare_internet_columns (meta4 ++ new_col_names (quarter_columns files)) =
  Some ("h3_index"%string :: new_col_names (quarter_columns files)).
Proof.
  unfold prepare_internet_columns. rewrite filter_app.
  change (filter is_aggregate meta4) with (@nil string). cbn [app].
  rewrite filter_all by (intros a Ha; exact (proj1 (alias_plain a (new_col_names_alias _ a Ha)))).
  apply select_all. intros c Hc. apply in_app_iff. destruct Hc as [<-|Hc].
  - left. left. reflexivity.
  - right. exact Hc.
Qed.

Lemma fused_join files :
  join_columns (join_columns (metadata_cols ++ fuser_population_cols)
                             ["h3_index"; "health_distance"]%string)
               ("h3_index"%string :: new_col_names (quarter_columns files)) =
  fixed_cols ++ new_col_names (quarter_columns files).
Proof.
  assert (E1 : join_columns (metadata_cols ++ fuser_population_cols)
                            ["h3_index"; "health_distance"]%string = fixed_cols)
    by (vm_compute; reflexivity).
  rewrite E1. unfold join_columns. f_equal. cbn [filter]. rewrite String.eqb_refl. cbn [negb].
  set (NC := new_col_names (quarter_columns files)).
  assert (HA : forall a, In a NC -> In a aliases) by (intros a; apply new_col_names_alias).
  rewrite filter_all.
  - rewrite <- (map_id NC) at 2. apply map_ext_in. intros a Ha.
    replace (mem a fixed_cols) with false; [reflexivity|].
    symmetry. apply mem_false. apply alias_not_fixed, HA, Ha.
  - intros a Ha. apply negb_true_iff, String.eqb_neq. intros E.
    apply (alias_not_fixed a (HA a Ha)). rewrite E. left. reflexivity.
Qed.

Lemma fused_finalize files :
  finalize_columns (fixed_cols ++ new_col_names (quarter_columns files)) =
  fixed_cols ++ new_col_names (quarter_columns files).
Proof.
  set (NC := new_col_names (quarter_columns files)).
  set (cols := fixed_cols ++ NC).
  assert (HA : forall a, In a NC -> In a aliases) by (intros a; apply new_col_names_alias).
  unfold finalize_columns.
  assert (Eagg : filter is_aggregate cols = ["pop_total"%string] ++ NC).
  { unfold cols. rewrite filter_app. f_equal.
    apply filter_all. intros a Ha. exact (proj1 (alias_plain a (HA a Ha))). }
  rewrite Eagg.
  change (metadata_cols ++ fuser_population_cols ++ ["health_distance"%string]
          ++ ["pop_total"%string] ++ NC)
    with (fixed_cols ++ ["pop_total"%string] ++ NC).
  assert (Ef : unique_in cols [] fixed_cols = fixed_cols).
  { rewrite unique_in_filter by exact (nodupb_NoDup _ fixed_cols_nodup).
    apply filter_all. intros c Hc. apply andb_true_intro. split; [|reflexivity].
    apply mem_In. unfold cols. apply in_app_iff. left. exact Hc. }
  rewrite unique_in_app, Ef, unique_in_app.
  rewrite (unique_in_seen cols _ ["pop_total"%string]) by
    (intros x [<-|[]]; reflexivity).
  rewrite unique_in_filter by apply new_col_names_NoDup.
  rewrite filter_all; [reflexivity|].
  intros a Ha. apply andb_true_intro. split.
  - apply mem_In. unfold cols. apply in_app_iff. right. exact Ha.
  - apply negb_true_iff, mem_false. cbn [rev app]. rewrite app_nil_r, <- in_rev.
    apply alias_not_fixed, HA, Ha.
Qed.

Lemma fused_columns_shape gdf_cols files :
  (forall c, In c Population.population_cols -> In c gdf_cols) ->
  Forall RollupFacts.wf_file files -> NoDup (map triple files) ->
  fused_columns gdf_cols files = Some (fixed_cols ++ new_col_names (quarter_columns files)).
Proof.
  intros Hpop Hw Hnd. unfold fused_columns.
  rewrite (population_prepared gdf_cols Hpop), (internet_columns files Hw Hnd).
  change (prepare_health_columns health_output_columns)
    with (Some ["h3_index"; "health_distance"]%string).
  cbv beta iota. rewrite internet_prepared, fused_join, fused_finalize. reflexivity.
Qed.

End FusedFacts.

(** X7: on the quarters and data types of the pipeline, two quarter
    columns [<data_type>_<year>_q<quarter>_<col>] have the same name only
    when they come from the same data type, quarter and column. *)
Theorem quarter_column_names_distinct (f g : Internet.cache_file) (c c' : string) :
  RollupFacts.wf_file f -> RollupFacts.wf_file g ->
  In c RollupFacts.cols -> In c' RollupFacts.cols ->
  Internet.col_name f c = Internet.col_name g c' ->
  Internet.data_type f = Internet.data_type g /\ Internet.year f = Internet.year g /\
  Internet.quarter f = Internet.quarter g /\ c = c'.
Proof. apply SchemaFacts.col_name_inj. Qed.

Lemma quarter_column_names_distinct_witness :
  "fixed"%string = "fixed"%string /\ 2023%nat = 2023%nat /\ 1%nat = 1%nat /\
  "tests"%string = "tests"%string.
Proof.
  apply (quarter_column_names_distinct (Internet.mk_cache "fixed" 2023 1 [])
           (Internet.mk_cache "fixed" 2023 1 []) "tests" "tests")%string.
  - split; simpl; repeat (first [left; reflexivity | right]).
  - split; simpl; repeat (first [left; reflexivity | right]).
  - simpl. repeat (first [left; reflexivity | right]).
  - simpl. repeat (first [left; reflexivity | right]).
  - reflexivity.
Defined.

(** X8: for cache files of distinct pipeline quarters, [etl_internet.main]
    writes exactly [h3_index], [h3_resolution], [lat], [lon] and the rollup
    columns whose column list is not empty, in selection order: no quarter
    column is kept and no join renames a column. *)
Theorem internet_output_columns_shape (files : list Internet.cache_file) :
  Forall RollupFacts.wf_file files -> NoDup (map SchemaFacts.triple files) ->
  Schema.internet_output_columns files =
  Some (["h3_index"; "h3_resolution"; "lat"; "lon"]%string
        ++ Schema.new_col_names (Schema.quarter_columns files)).
Proof. apply SchemaFacts.internet_columns. Qed.

Lemma internet_output_columns_shape_witness :
  Schema.internet_output_columns
    [Internet.mk_cache "fixed" 2023 1 []; Internet.mk_cache "mobile" 2019 4 []]%string =
  Some (["h3_index"; "h3_resolution"; "lat"; "lon"]%string
        ++ Schema.new_col_names (Schema.quarter_columns
             [Internet.mk_cache "fixed" 2023 1 []; Internet.mk_cache "mobile" 2019 4 []]%string)).
Proof.
  apply internet_output_columns_shape.
  - repeat apply Forall_cons; try apply Forall_nil;
      split; simpl; repeat (first [left; reflexivity | right]).
  - constructor; [simpl; intros [H|[]]; discriminate|].
    constructor; [simpl; tauto | constructor].
Defined.

(** X9: when the census file has the thirteen population columns, the
    fused dataset has the columns [h3_index], [lat], [lon], the thirteen
    renamed population columns, [health_distance] and the internet rollup
    columns, each once ([pop_total], which ends in [_total], is not
    repeated). *)
Theorem fused_dataset_columns (gdf_cols : list string) (files : list Internet.cache_file) :
  (forall c, In c Population.population_cols -> In c gdf_cols) ->
  Forall RollupFacts.wf_file files -> NoDup (map SchemaFacts.triple files) ->
  Schema.fused_columns gdf_cols files =
  Some (Schema.metadata_cols ++ Schema.fuser_population_cols ++ ["health_distance"%string]
        ++ Schema.new_col_names (Schema.quarter_columns files)).
Proof. apply FusedFacts.fused_columns_shape. Qed.

Lemma fused_dataset_columns_witness :
  Schema.fused_columns Population.population_cols [Internet.mk_cache "fixed" 2023 1 []]%string =
  Some (Schema.metadata_cols ++ Schema.fuser_population_cols ++ ["health_distance"%string]
        ++ Schema.new_col_names (Schema.quarter_columns [Internet.mk_cache "fixed" 2023 1 []]%string)).
Proof.
  apply fused_dataset_columns.
  - intros c Hc. exact Hc.
  - repeat apply Forall_cons; try apply Forall_nil;
      split; simpl; repeat (first [left; reflexivity | right]).
  - constructor; [simpl; tauto | constructor].
Defined.

(** X12: [filter_and_finalize] keeps each column at most once, and keeps a
    column exactly when the frame has it and it is a metadata, population
    or health column or ends in [_2023] or [_total]. *)
Theorem finalize_columns_spec (cols : list string) :
  NoDup (Schema.finalize_columns cols) /\
  forall c, In c (Schema.finalize_columns cols) <->
    In c cols /\ (In c (Schema.metadata_cols ++ Schema.fuser_population_cols
                        ++ ["health_distance"%string]) \/ Schema.is_aggregate c = true).
Proof.
  split; [apply SchemaFacts.unique_in_NoDup|]. intros c.
  unfold Schema.finalize_columns. rewrite SchemaFacts.unique_in_In, SchemaFacts.mem_In.
  rewrite !in_app_iff, filter_In. simpl (Schema.mem c []). split.
  - intros [H1 [H2 _]]. split; [exact H2|]. tauto.
  - intros [H1 H2]. split; [|split; [exact H1 | reflexivity]]. tauto.
Qed.

(** ** The raster stage *)

Module HealthFacts.

Import Health.

Section Rows.

Context (src : raster) (cell_of : nat -> nat -> option string).

Lemma chunk_rows_prefix k :
  flat_map (chunk_rows src) (seq 0 k) = seq 0 (Nat.min (k * CHUNK_ROWS) (height src)).
Proof.
  induction k as [|k IH]; [reflexivity|].
  rewrite seq_S, flat_map_app, IH. simpl (flat_map _ [_]). rewrite app_nil_r.
  unfold chunk_rows, chunk_bounds, CHUNK_ROWS in *.
  destruct (Nat.le_gt_cases (k * 1000) (height src)) as [Hle|Hgt].
  - rewrite Nat.min_l by exact Hle.
    replace (Nat.min (S k * 1000) (height src))
      with (k * 1000 + (Nat.min (k * 1000 + 1000) (height src) - k * 1000))%nat by lia.
    rewrite seq_app. reflexivity.
  - rewrite Nat.min_r by lia.
    replace (Nat.min (k * 1000 + 1000) (height src) - k * 1000)%nat with 0%nat by lia.
    replace (Nat.min (S k * 1000) (height src)) with (height src) by lia.
    cbn [seq]. rewrite app_nil_r. reflexivity.
Qed.

Lemma chunks_cover :
  flat_map (chunk_rows src) (seq 0 (num_chunks src)) = seq 0 (height src).
Proof.
  rewrite chunk_rows_prefix. f_equal. apply Nat.min_r.
  unfold num_chunks, CHUNK_ROWS.
  pose proof (Nat.div_mod_eq (height src + 1000 - 1) 1000) as E.
  pose proof (Nat.mod_upper_bound (height src + 1000 - 1) 1000) as B. lia.
Qed.

Lemma process_chunk_fold st idx :
  process_chunk src cell_of st idx =
  fold_left (add_pixel src cell_of) (valid_pixels src (chunk_rows src idx)) st.
Proof. unfold process_chunk. destruct (valid_pixels src (chunk_rows src idx)); reflexivity. Qed.

Lemma valid_pixels_flat_map (f : nat -> list nat) l :
  flat_map (fun i => valid_pixels src (f i)) l = valid_pixels src (flat_map f l).
Proof.
  induction l as [|i r IH]; [reflexivity|]. simpl. rewrite IH.
  unfold valid_pixels. rewrite flat_map_app. reflexivity.
Qed.

Lemma raster_row_major :
  process_raster_to_h3 src cell_of =
  fold_left (add_pixel src cell_of) (valid_pixels src (seq 0 (height src))) ([], 0%nat).
Proof.
  unfold process_raster_to_h3. rewrite <- chunks_cover, <- valid_pixels_flat_map.
  generalize (@nil (string * (list Z * list Z)), 0%nat).
  induction (seq 0 (num_chunks src)) as [|i r IH]; intros st; [reflexivity|].
  simpl. rewrite IH, process_chunk_fold, fold_left_app. reflexivity.
Qed.

Lemma in_valid_pixels p :
  In p (valid_pixels src (seq 0 (height src))) <->
  (fst p < height src)%nat /\ (snd p < width src)%nat /\ valid src (band1 src (fst p) (snd p)) = true.
Proof.
  destruct p as [r c]. unfold valid_pixels. rewrite in_flat_map. simpl. split.
  - intros [r' [Hr Hin]]. apply in_map_iff in Hin. destruct Hin as [c' [E Hc]].
    injection E as <- <-. apply in_seq in Hr. apply filter_In in Hc.
    destruct Hc as [Hc Hv]. apply in_seq in Hc. repeat split; [lia | lia | exact Hv].
  - intros [Hr [Hc Hv]]. exists r. split; [apply in_seq; lia|].
    apply in_map. apply filter_In. split; [apply in_seq; lia | exact Hv].
Qed.

(** The dict and the pixel counter. *)
Definition hit (p : nat * nat) : bool :=
  match cell_of (fst p) (snd p) with Some _ => true | None => false end.

Definition count_lens (d : h3_dict) : nat :=
  fold_right Nat.add 0%nat (map (fun e => List.length (fst (snd e))) d).

Lemma dict_append_keys d k v1 v2 h :
  In h (map fst (dict_append d k v1 v2)) <-> h = k \/ In h (map fst d).
Proof.
  induction d as [|[k' [l1 l2]] r IH]; simpl;
    [split; intros H; repeat destruct H as [H|H]; subst; intuition|].
  destruct (String.eqb k' k) eqn:E; simpl.
  - apply String.eqb_eq in E. subst k'.
    split; intros H; repeat destruct H as [H|H]; subst; intuition.
  - rewrite IH. split; intros H; repeat destruct H as [H|H]; subst; intuition.
Qed.

Lemma dict_append_nodup d k v1 v2 :
  NoDup (map fst d) -> NoDup (map fst (dict_append d k v1 v2)).
Proof.
  induction d as [|[k' [l1 l2]] r IH]; simpl; intros Hnd.
  - constructor; [intros []|constructor].
  - apply NoDup_cons_iff in Hnd as [Hk Hr].
    destruct (String.eqb k' k) eqn:E; simpl; constructor; auto.
    rewrite dict_append_keys. apply String.eqb_neq in E. intros [H|H]; auto.
Qed.

Lemma dict_append_entries d k v1 v2 h l1 l2 :
  In (h, (l1, l2)) (dict_append d k v1 v2) ->
  In (h, (l1, l2)) d \/
  (h = k /\ ((l1 = [v1] /\ l2 = [v2]) \/
             exists m1 m2, In (k, (m1, m2)) d /\ l1 = m1 ++ [v1] /\ l2 = m2 ++ [v2])).
Proof.
  induction d as [|[k' [m1 m2]] r IH]; simpl.
  - intros [E|[]]. injection E as <- <- <-. right. auto.
  - destruct (String.eqb k' k) eqn:E; simpl; intros [H|H].
    + injection H as <- <- <-. apply String.eqb_eq in E. subst k'.
      right. split; [reflexivity|]. right. exists m1, m2. auto.
    + auto.
    + auto.
    + destruct (IH H) as [H'|[Eh [H'|[n1 [n2 [Hn [E1 E2]]]]]]]; auto.
      right. split; [exact Eh|]. right. exists n1, n2. auto.
Qed.

Lemma dict_append_count d k v1 v2 :
  count_lens (dict_append d k v1 v2) = S (count_lens d).
Proof.
  induction d as [|[k' [l1 l2]] r IH]; [reflexivity|]. simpl.
  destruct (String.eqb k' k); unfold count_lens in *; simpl; [rewrite length_app; simpl; lia|].
  rewrite IH. lia.
Qed.

(** What the loop keeps true, [hist] being the pixels processed so far. *)
Definition inv (st : h3_dict * nat) (hist : list (nat * nat)) : Prop :=
  NoDup (map fst (fst st)) /\
  (forall h l1 l2, In (h, (l1, l2)) (fst st) ->
     List.length l1 = List.length l2 /\ l1 <> [] /\
     forall v, In v l1 -> exists p, In p hist /\ cell_of (fst p) (snd p) = Some h /\
                                    band1 src (fst p) (snd p) = v) /\
  snd st = List.length (filter hit hist) /\
  snd st = count_lens (fst st) /\
  (forall h, In h (map fst (fst st)) <->
             exists p, In p hist /\ cell_of (fst p) (snd p) = Some h).

Lemma inv_init : inv ([], 0%nat) [].
Proof.
  unfold inv. simpl. split; [constructor|]. split; [intros h l1 l2 []|].
  split; [reflexivity|]. split; [reflexivity|].
  intros h. split; [intros [] | intros [p [[] _]]].
Qed.

Lemma inv_step st hist p :
  inv st hist -> inv (add_pixel src cell_of st p) (hist ++ [p]).
Proof.
  destruct st as [d total]. destruct p as [r c].
  intros [Hnd [Hent [Htot [Hcnt Hkeys]]]]. simpl in *.
  assert (Hhist : forall q, In q hist -> In q (hist ++ [(r, c)]))
    by (intros q Hq; apply in_or_app; left; exact Hq).
  unfold add_pixel. destruct (cell_of r c) as [h0|] eqn:Ec.
  - assert (Hhit : hit (r, c) = true) by (unfold hit; simpl; rewrite Ec; reflexivity).
    assert (Hnew : In (r, c) (hist ++ [(r, c)]))
      by (apply in_or_app; right; left; reflexivity).
    unfold inv. simpl. split; [|split; [|split; [|split]]].
    + apply dict_append_nodup. exact Hnd.
    + intros h l1 l2 Hin.
      destruct (dict_append_entries _ _ _ _ _ _ _ Hin)
        as [H|[-> [[-> ->]|[m1 [m2 [Hm [-> ->]]]]]]].
      * destruct (Hent h l1 l2 H) as [E1 [E2 E3]].
        split; [exact E1|]. split; [exact E2|]. intros v Hv.
        destruct (E3 v Hv) as [q [Hq Eq]]. exists q. split; [apply Hhist, Hq | exact Eq].
      * split; [reflexivity|]. split; [discriminate|]. intros v [<-|[]].
        exists (r, c). simpl. auto.
      * destruct (Hent _ _ _ Hm) as [E1 [E2 E3]].
        split; [rewrite !length_app; simpl; lia|]. split; [intros E; apply app_eq_nil in E; destruct E as [_ E]; discriminate|].
        intros v Hv. apply in_app_iff in Hv. destruct Hv as [Hv|[<-|[]]].
        -- destruct (E3 v Hv) as [q [Hq Eq]]. exists q. split; [apply Hhist, Hq | exact Eq].
        -- exists (r, c). simpl. auto.
    + rewrite filter_app, length_app. simpl. rewrite Hhit. simpl. lia.
    + rewrite dict_append_count. lia.
    + intros h. rewrite dict_append_keys. split.
      * intros [->|H].
        -- exists (r, c). split; [exact Hnew | exact Ec].
        -- destruct (proj1 (Hkeys h) H) as [q [Hq Eq]]. exists q. auto.
      * intros [q [Hq Eq]]. apply in_app_iff in Hq.
        destruct Hq as [Hq|[<-|[]]].
        -- right. apply Hkeys. exists q. auto.
        -- left. simpl in Eq. congruence.
  - assert (Hhit : hit (r, c) = false) by (unfold hit; simpl; rewrite Ec; reflexivity).
    unfold inv. simpl. split; [exact Hnd|]. split; [|split; [|split; [exact Hcnt|]]].
    + intros h l1 l2 Hin. destruct (Hent h l1 l2 Hin) as [E1 [E2 E3]].
      split; [exact E1|]. split; [exact E2|]. intros v Hv.
      destruct (E3 v Hv) as [q [Hq Eq]]. exists q. split; [apply Hhist, Hq | exact Eq].
    + rewrite filter_app, length_app. simpl. rewrite Hhit. simpl. lia.
    + intros h. rewrite Hkeys. split.
      * intros [q [Hq Eq]]. exists q. auto.
      * intros [q [Hq Eq]]. apply in_app_iff in Hq. destruct Hq as [Hq|[<-|[]]].
        -- exists q. auto.
        -- simpl in Eq. congruence.
Qed.

Lemma inv_fold px st hist :
  inv st hist -> inv (fold_left (add_pixel src cell_of) px st) (hist ++ px).
Proof.
  revert st hist. induction px as [|p r IH]; intros st hist H; simpl.
  - rewrite app_nil_r. exact H.
  - replace (hist ++ p :: r) with ((hist ++ [p]) ++ r) by (rewrite <- app_assoc; reflexivity).
    apply IH, inv_step, H.
Qed.

Lemma raster_inv :
  inv (process_raster_to_h3 src cell_of) (valid_pixels src (seq 0 (height src))).
Proof.
  rewrite raster_row_major. apply (inv_fold _ _ [] inv_init).
Qed.

End Rows.

(** numpy statistics. *)
Lemma fold_min_le r x : forall y, In y (x :: r) -> (fold_left Z.min r x <= y)%Z.
Proof.
  revert x. induction r as [|z r IH]; intros x y Hy; simpl.
  - destruct Hy as [<-|[]]. lia.
  - destruct Hy as [<-|[<-|Hy]].
    + pose proof (IH (Z.min x z) (Z.min x z) (or_introl eq_refl)). lia.
    + pose proof (IH (Z.min x z) (Z.min x z) (or_introl eq_refl)). lia.
    + apply IH. right. exact Hy.
Qed.

Lemma fold_max_ge r x : forall y, In y (x :: r) -> (y <= fold_left Z.max r x)%Z.
Proof.
  revert x. induction r as [|z r IH]; intros x y Hy; simpl.
  - destruct Hy as [<-|[]]. lia.
  - destruct Hy as [<-|[<-|Hy]].
    + pose proof (IH (Z.max x z) (Z.max x z) (or_introl eq_refl)). lia.
    + pose proof (IH (Z.max x z) (Z.max x z) (or_introl eq_refl)). lia.
    + apply IH. right. exact Hy.
Qed.

Lemma fold_min_in r x : In (fold_left Z.min r x) (x :: r).
Proof.
  revert x. induction r as [|z r IH]; intros x; simpl; [left; reflexivity|].
  destruct (IH (Z.min x z)) as [E|H].
  - rewrite <- E. destruct (Z.min_spec x z) as [[_ ->]|[_ ->]]; [left | right; left]; reflexivity.
  - right. right. exact H.
Qed.

Lemma fold_max_in r x : In (fold_left Z.max r x) (x :: r).
Proof.
  revert x. induction r as [|z r IH]; intros x; simpl; [left; reflexivity|].
  destruct (IH (Z.max x z)) as [E|H].
  - rewrite <- E. destruct (Z.max_spec x z) as [[_ ->]|[_ ->]]; [right; left | left]; reflexivity.
  - right. right. exact H.
Qed.

Lemma np_sum_bounds (l : list Z) mn mx :
  (forall y, In y l -> mn <= y <= mx)%Z ->
  (mn * Z.of_nat (List.length l) <= np_sum l <= mx * Z.of_nat (List.length l))%Z.
Proof.
  induction l as [|x r IH]; intros H; simpl; [lia|].
  assert (Hx := H x (or_introl eq_refl)).
  assert (Hr : (mn * Z.of_nat (List.length r) <= np_sum r <= mx * Z.of_nat (List.length r))%Z)
    by (apply IH; intros y Hy; apply H; right; exact Hy).
  unfold np_sum in *. simpl. nia.
Qed.

Lemma np_mean_bounds (l : list Z) mn mx :
  l <> [] -> (forall y, In y l -> mn <= y <= mx)%Z ->
  inject_Z mn <= np_mean l /\ np_mean l <= inject_Z mx.
Proof.
  intros Hne H. destruct (np_sum_bounds l mn mx H) as [H1 H2].
  assert (Hn : 0 < inject_Z (Z.of_nat (List.length l))).
  { destruct l as [|x r]; [contradiction|]. simpl.
    change 0 with (inject_Z 0). rewrite <- Zlt_Qlt. lia. }
  unfold np_mean. split.
  - apply Qle_shift_div_l; [exact Hn|]. rewrite <- inject_Z_mult, <- Zle_Qle. exact H1.
  - apply Qle_shift_div_r; [exact Hn|]. rewrite <- inject_Z_mult, <- Zle_Qle. exact H2.
Qed.

Lemma np_median_bounds (l : list Z) mn mx :
  l <> [] -> (forall y, In y l -> mn <= y <= mx)%Z ->
  inject_Z mn <= np_median l /\ np_median l <= inject_Z mx.
Proof.
  intros Hne H. unfold np_median.
  pose proof (ZSort.Permuted_sort l) as Hp.
  assert (Hs : forall i, (i < List.length (ZSort.sort l))%nat ->
                 (mn <= nth i (ZSort.sort l) 0 <= mx)%Z).
  { intros i Hi. apply H. apply (Permutation_in _ (Permutation_sym Hp)). apply nth_In. exact Hi. }
  assert (Hlen : (0 < List.length (ZSort.sort l))%nat).
  { rewrite <- (Permutation_length Hp). destruct l; [contradiction | simpl; lia]. }
  set (n := List.length (ZSort.sort l)) in *.
  assert (Hm : (Nat.div n 2 < n)%nat) by (apply Nat.div_lt; lia).
  destruct (Hs _ Hm) as [A1 A2]. rewrite Zle_Qle in A1, A2.
  destruct (Nat.odd n); [split; assumption|].
  assert (Hm' : (Nat.div n 2 - 1 < n)%nat) by lia.
  destruct (Hs _ Hm') as [B1 B2]. rewrite Zle_Qle in B1, B2.
  set (a := inject_Z (nth (Nat.div n 2 - 1) (ZSort.sort l) 0%Z)) in *.
  set (b := inject_Z (nth (Nat.div n 2) (ZSort.sort l) 0%Z)) in *.
  assert (E : (a + b) / 2 == (a + b) * (1 # 2)) by reflexivity. rewrite E. split; lra.
Qed.

Section Records.

Context (cell_to_latlng : string -> Q * Q) (sqrt : Q -> Q).

Lemma all_some_In {A} (l : list (option A)) xs x :
  all_some l = Some xs -> In x xs -> In (Some x) l.
Proof.
  revert xs. induction l as [|[y|] r IH]; intros xs H Hx; simpl in H.
  - injection H as <-. destruct Hx.
  - destruct (all_some r) as [ys|] eqn:E; [|discriminate]. injection H as <-.
    destruct Hx as [<-|Hx]; [left; reflexivity | right; exact (IH ys eq_refl Hx)].
  - discriminate.
Qed.

Lemma cell_record_stats kv rec :
  cell_record cell_to_latlng sqrt kv = Some rec ->
  exists l1 l2, kv = (h3_index rec, (l1, l2)) /\
    pixel_count rec = List.length l1 /\ (1 <= pixel_count rec)%nat /\
    In (accessibility_min rec) l1 /\ In (accessibility_max rec) l1 /\
    (forall v, In v l1 -> accessibility_min rec <= v <= accessibility_max rec)%Z /\
    inject_Z (accessibility_min rec) <= accessibility_mean rec /\
    accessibility_mean rec <= inject_Z (accessibility_max rec) /\
    inject_Z (accessibility_min rec) <= accessibility_median rec /\
    accessibility_median rec <= inject_Z (accessibility_max rec).
Proof.
  destruct kv as [h [l1 l2]]. unfold cell_record.
  destruct l1 as [|x r]; [discriminate|]. simpl. intros E. injection E as <-. simpl.
  exists (x :: r), l2.
  assert (Hb : forall v, In v (x :: r) -> (fold_left Z.min r x <= v <= fold_left Z.max r x)%Z)
    by (intros v Hv; split; [apply fold_min_le | apply fold_max_ge]; exact Hv).
  destruct (np_mean_bounds (x :: r) _ _ ltac:(discriminate) Hb) as [M1 M2].
  destruct (np_median_bounds (x :: r) _ _ ltac:(discriminate) Hb) as [D1 D2].
  repeat split; auto; simpl; try lia; try apply fold_min_in; try apply fold_max_in;
    apply Hb; assumption.
Qed.

Lemma records_of_dict (d : h3_dict) :
  (forall h l1 l2, In (h, (l1, l2)) d -> l1 <> []) ->
  exists recs, all_some (map (cell_record cell_to_latlng sqrt) d) = Some recs /\
    map h3_index recs = map fst d /\
    map pixel_count recs = map (fun e => List.length (fst (snd e))) d.
Proof.
  induction d as [|[h [l1 l2]] r IH]; intros H; [exists []; auto|].
  destruct IH as [recs [E1 [E2 E3]]].
  { intros h' m1 m2 Hm. apply (H h' m1 m2). right. exact Hm. }
  assert (Hne := H h l1 l2 (or_introl eq_refl)).
  destruct l1 as [|x xs]; [contradiction|].
  simpl. rewrite E1.
  eexists. split; [reflexivity|]. simpl. rewrite E2, E3. auto.
Qed.

End Records.

End HealthFacts.

(** X13: the chunks of [CHUNK_ROWS] rows read by [process_raster_to_h3]
    cover the raster's rows exactly once, in order. *)
Theorem raster_chunks_cover_rows (src : Health.raster) :
  flat_map (Health.chunk_rows src) (seq 0 (Health.num_chunks src)) = seq 0 (Health.height src).
Proof. apply HealthFacts.chunks_cover. Qed.

(** X14: chunking does not change the result: [process_raster_to_h3] is the
    pixel loop over every valid pixel of the raster in row-major order. *)
Theorem raster_processing_row_major (src : Health.raster) (cell_of : nat -> nat -> option string) :
  Health.process_raster_to_h3 src cell_of =
  fold_left (Health.add_pixel src cell_of) (Health.valid_pixels src (seq 0 (Health.height src)))
            ([], 0%nat).
Proof. apply HealthFacts.raster_row_major. Qed.

(** X15: after [process_raster_to_h3], the H3 keys are distinct and are
    exactly the cells of the valid pixels; each cell holds as many band-1
    as band-2 values, at least one, none equal to the no-data value; and
    [total_pixels] is both the number of stored values and the number of
    valid pixels whose cell lookup succeeded. *)
Theorem raster_dict_invariants (src : Health.raster) (cell_of : nat -> nat -> option string) :
  let '(d, total) := Health.process_raster_to_h3 src cell_of in
  NoDup (map fst d) /\
  (forall h, In h (map fst d) <->
     exists r c, (r < Health.height src)%nat /\ (c < Health.width src)%nat /\
                 Health.valid src (Health.band1 src r c) = true /\ cell_of r c = Some h) /\
  (forall h l1 l2, In (h, (l1, l2)) d ->
     List.length l1 = List.length l2 /\ l1 <> [] /\
     forall v, In v l1 -> Health.valid src v = true) /\
  total = HealthFacts.count_lens d /\
  total = List.length (filter (HealthFacts.hit cell_of)
                              (Health.valid_pixels src (seq 0 (Health.height src)))).
Proof.
  pose proof (HealthFacts.raster_inv src cell_of) as Hinv.
  destruct (Health.process_raster_to_h3 src cell_of) as [d total].
  destruct Hinv as [Hnd [Hent [Htot [Hcnt Hkeys]]]]. simpl in *.
  split; [exact Hnd|]. split; [|split; [|split; [exact Hcnt | exact Htot]]].
  - intros h. rewrite Hkeys. split.
    + intros [[r c] [Hp Ec]]. apply HealthFacts.in_valid_pixels in Hp.
      destruct Hp as [Hr [Hc Hv]]. exists r, c. auto.
    + intros [r [c [Hr [Hc [Hv Ec]]]]]. exists (r, c). split; [|exact Ec].
      apply HealthFacts.in_valid_pixels. auto.
  - intros h l1 l2 Hin. destruct (Hent h l1 l2 Hin) as [E [Hne Hprov]].
    split; [exact E|]. split; [exact Hne|]. intros v Hv.
    destruct (Hprov v Hv) as [p [Hp [_ <-]]].
    apply HealthFacts.in_valid_pixels in Hp. exact (proj2 (proj2 Hp)).
Qed.

Module AggregateFacts.

Import Health HealthFacts.

Lemma aggregate_all_some ll sqrt d recs :
  aggregate_h3_values ll sqrt d = Some recs ->
  all_some (map (cell_record ll sqrt) d) = Some recs.
Proof.
  unfold aggregate_h3_values. destruct (all_some _) as [[|x xs]|]; congruence.
Qed.

End AggregateFacts.

(** X16: on the dict built by [process_raster_to_h3], [aggregate_h3_values]
    raises exactly when no pixel was counted; otherwise it gives one record
    per H3 cell, in the dict's order, and the pixel counts of the records add
    up to [total_pixels]. *)
Theorem health_records_account_for_pixels (src : Health.raster)
        (cell_of : nat -> nat -> option string) (ll : string -> Q * Q) (sqrt : Q -> Q) :
  let '(d, total) := Health.process_raster_to_h3 src cell_of in
  (Health.aggregate_h3_values ll sqrt d = None <-> total = 0%nat) /\
  (forall recs, Health.aggregate_h3_values ll sqrt d = Some recs ->
     map Health.h3_index recs = map fst d /\
     fold_right Nat.add 0%nat (map Health.pixel_count recs) = total).
Proof.
  pose proof (HealthFacts.raster_inv src cell_of) as Hinv.
  destruct (Health.process_raster_to_h3 src cell_of) as [d total].
  destruct Hinv as [_ [Hent [_ [Hcnt _]]]]. simpl in *.
  destruct (HealthFacts.records_of_dict ll sqrt d) as [recs0 [E1 [E2 E3]]].
  { intros h l1 l2 Hin. exact (proj1 (proj2 (Hent h l1 l2 Hin))). }
  assert (Hsum : total = fold_right Nat.add 0%nat (map Health.pixel_count recs0))
    by (rewrite E3; exact Hcnt).
  unfold Health.aggregate_h3_values. rewrite E1.
  destruct recs0 as [|x xs].
  - split; [split; [intros _; exact Hsum | reflexivity]|]. intros recs E. discriminate.
  - split.
    + split; [discriminate|]. intros Ht. exfalso.
      destruct d as [|[h [l1 l2]] r]; [discriminate|].
      destruct (Hent h l1 l2 (or_introl eq_refl)) as [_ [Hne _]].
      unfold HealthFacts.count_lens in Hcnt. simpl in Hcnt.
      destruct l1; [contradiction|]. simpl in Hcnt. lia.
    + intros recs E. injection E as <-. split; [exact E2 | symmetry; exact Hsum].
Qed.

(** X17: every record of [aggregate_h3_values] comes from the cell's entry
    of the dict; its [pixel_count] is the number of band-1 values (at least
    one); [accessibility_min] and [accessibility_max] are values of the cell
    that bound all the others, and the mean and median lie between them. *)
Theorem health_record_statistics (ll : string -> Q * Q) (sqrt : Q -> Q)
        (d : Health.h3_dict) (recs : list Health.health_cell) (rec : Health.health_cell) :
  Health.aggregate_h3_values ll sqrt d = Some recs -> In rec recs ->
  exists l1 l2, In (Health.h3_index rec, (l1, l2)) d /\
    Health.pixel_count rec = List.length l1 /\ (1 <= Health.pixel_count rec)%nat /\
    In (Health.accessibility_min rec) l1 /\ In (Health.accessibility_max rec) l1 /\
    (forall v, In v l1 ->
       Health.accessibility_min rec <= v <= Health.accessibility_max rec)%Z /\
    inject_Z (Health.accessibility_min rec) <= Health.accessibility_mean rec /\
    Health.accessibility_mean rec <= inject_Z (Health.accessibility_max rec) /\
    inject_Z (Health.accessibility_min rec) <= Health.accessibility_median rec /\
    Health.accessibility_median rec <= inject_Z (Health.accessibility_max rec).
Proof.
  intros Hagg Hin. apply AggregateFacts.aggregate_all_some in Hagg.
  pose proof (HealthFacts.all_some_In _ _ _ Hagg Hin) as Hs.
  apply in_map_iff in Hs. destruct Hs as [kv [Ekv Hkv]].
  destruct (HealthFacts.cell_record_stats ll sqrt kv rec Ekv)
    as [l1 [l2 [-> H]]].
  exists l1, l2. split; [exact Hkv | exact H].
Qed.

Lemma health_record_statistics_witness :
  exists l1 l2, In (Health.h3_index Samples.demo_hcell, (l1, l2)) Samples.demo_dict /\
    Health.pixel_count Samples.demo_hcell = List.length l1 /\
    (1 <= Health.pixel_count Samples.demo_hcell)%nat /\
    In (Health.accessibility_min Samples.demo_hcell) l1 /\
    In (Health.accessibility_max Samples.demo_hcell) l1 /\
    (forall v, In v l1 -> Health.accessibility_min Samples.demo_hcell <= v
                          <= Health.accessibility_max Samples.demo_hcell)%Z /\
    inject_Z (Health.accessibility_min Samples.demo_hcell)
      <= Health.accessibility_mean Samples.demo_hcell /\
    Health.accessibility_mean Samples.demo_hcell
      <= inject_Z (Health.accessibility_max Samples.demo_hcell) /\
    inject_Z (Health.accessibility_min Samples.demo_hcell)
      <= Health.accessibility_median Samples.demo_hcell /\
    Health.accessibility_median Samples.demo_hcell
      <= inject_Z (Health.accessibility_max Samples.demo_hcell).
Proof.
  apply (health_record_statistics Samples.demo_latlng (fun q => q) Samples.demo_dict
           [Samples.demo_hcell]).
  - reflexivity.
  - left. reflexivity.
Defined.

(** ** Download, file names and the pipeline driver *)

Module DownloadFacts.

Import Download.

Definition valid_quarter (q : nat) : bool :=
  match quarter_dates q with Some _ => true | None => false end.

(** Whether [download_quarter] returns a path for a quarter. *)
Definition fetched (file_exists : string -> bool) (s3_download : string -> string -> bool)
           (data_type : string) (yq : nat * nat) : bool :=
  match download_quarter file_exists s3_download (fst yq) (snd yq) data_type "data/internet" with
  | Returned (Some _) => true
  | _ => false
  end.

Lemma quarters_valid : forallb (fun yq => valid_quarter (snd yq)) QUARTERS = true.
Proof. vm_compute. reflexivity. Qed.

Lemma main_fold fe s3 dt (l : list (nat * nat)) a b :
  forallb (fun yq => valid_quarter (snd yq)) l = true ->
  fold_left (fun acc yq =>
               match acc with
               | None => None
               | Some (downloaded, failed) =>
                   match download_quarter fe s3 (fst yq) (snd yq) dt "data/internet" with
                   | KeyError => None
                   | Returned (Some _) => Some (S downloaded, failed)
                   | Returned None => Some (downloaded, S failed)
                   end
               end) l (Some (a, b)) =
  Some (a + List.length (filter (fetched fe s3 dt) l),
        b + List.length (filter (fun yq => negb (fetched fe s3 dt yq)) l))%nat.
Proof.
  revert a b. induction l as [|yq r IH]; intros a b Hv; simpl; [f_equal; f_equal; lia|].
  apply andb_prop in Hv as [Hq Hr]. unfold valid_quarter in Hq.
  remember (download_quarter fe s3 (fst yq) (snd yq) dt "data/internet") as d eqn:E.
  assert (Hf : fetched fe s3 dt yq = match d with Returned (Some _) => true | _ => false end)
    by (unfold fetched; rewrite <- E; reflexivity).
  rewrite Hf. destruct d as [|[p|]].
  - unfold download_quarter in E. destruct (quarter_dates (snd yq)); [|discriminate].
    repeat match type of E with context [if ?c then _ else _] => destruct c end;
      discriminate.
  - simpl. rewrite IH by exact Hr. f_equal. f_equal; lia.
  - simpl. rewrite IH by exact Hr. f_equal. f_equal; lia.
Qed.

End DownloadFacts.


(** X18: [download_quarter] raises [KeyError] exactly for a quarter outside
    1..4; a path it returns is the file [etl_internet] reads,
    [data/internet/<year>_q<quarter>_<data_type>.parquet]; and for a valid
    quarter whose file already exists it returns that file without
    downloading, whatever the download would do. *)
Theorem download_quarter_paths (file_exists : string -> bool)
        (s3_download : string -> string -> bool) (year quarter : nat) (data_type : string) :
  (Download.download_quarter file_exists s3_download year quarter data_type "data/internet"
     = Download.KeyError <-> ~ In quarter [1; 2; 3; 4]%nat) /\
  (forall p, Download.download_quarter file_exists s3_download year quarter data_type
               "data/internet" = Download.Returned (Some p) ->
             p = Files.input_path year quarter data_type) /\
  (In quarter [1; 2; 3; 4]%nat ->
   file_exists (Files.input_path year quarter data_type) = true ->
   forall s3', Download.download_quarter file_exists s3' year quarter data_type "data/internet"
               = Download.Returned (Some (Files.input_path year quarter data_type))).
Proof.
  unfold Download.download_quarter.
  assert (Hq : Download.quarter_dates quarter = None <-> ~ In quarter [1; 2; 3; 4]%nat).
  { unfold Download.quarter_dates.
    destruct (Nat.eqb_spec quarter 1); [subst; split; [discriminate | simpl; tauto]|].
    destruct (Nat.eqb_spec quarter 2); [subst; split; [discriminate | simpl; tauto]|].
    destruct (Nat.eqb_spec quarter 3); [subst; split; [discriminate | simpl; tauto]|].
    destruct (Nat.eqb_spec quarter 4); [subst; split; [discriminate | simpl; tauto]|].
    split; [intros _ H; simpl in H; repeat destruct H as [H|H]; auto | reflexivity]. }
  destruct (Download.quarter_dates quarter) as [md|]; cbv beta iota zeta.
  - split; [split; [intros E;
                    repeat match type of E with context [if ?c then _ else _] => destruct c end;
                    discriminate E
                   | intros H; apply Hq in H; discriminate]|].
    change (("data/internet" ++ "/" ++ Internet.nat_str year ++ "_q" ++ Internet.nat_str quarter
             ++ "_" ++ data_type ++ ".parquet")%string)
      with (Files.input_path year quarter data_type).
    split.
    + intros p. destruct (file_exists _); [congruence|].
      destruct (s3_download _ _); congruence.
    + intros _ He s3'. rewrite He. reflexivity.
  - split; [split; [intros _; apply Hq; reflexivity | reflexivity]|].
    split; [discriminate|]. intros Hin. exfalso. exact (proj1 Hq eq_refl Hin).
Qed.

(** X19: [download_internet.main] goes through all 27 quarters without an
    exception; it counts as downloaded the quarters for which
    [download_quarter] returns a path and as failed the others, so the two
    counts add up to 27. *)
Theorem download_main_counts (file_exists : string -> bool)
        (s3_download : string -> string -> bool) (data_type : string) :
  exists downloaded failed,
    Download.main file_exists s3_download data_type = Some (downloaded, failed) /\
    downloaded = List.length (filter (DownloadFacts.fetched file_exists s3_download data_type)
                                     Download.QUARTERS) /\
    failed = List.length (filter (fun yq => negb (DownloadFacts.fetched file_exists s3_download
                                                     data_type yq)) Download.QUARTERS) /\
    (downloaded + failed = 27)%nat.
Proof.
  unfold Download.main.
  rewrite (DownloadFacts.main_fold file_exists s3_download data_type _ 0 0
             DownloadFacts.quarters_valid).
  do 2 eexists. split; [reflexivity|]. split; [reflexivity|]. split; [reflexivity|].
  change 27%nat with (List.length Download.QUARTERS).
  induction Download.QUARTERS as [|yq r IH]; [reflexivity|].
  simpl. destruct (DownloadFacts.fetched _ _ _ yq); simpl; lia.
Qed.

Module ScanFacts.

Definition scan_table : bool :=
  forallb (fun yq => forallb (fun dt =>
    Files.scanned (Files.file_name (fst yq) (snd yq) dt)
    && negb (Files.scanned (Files.cache_name (Files.file_name (fst yq) (snd yq) dt))))
    Internet.DATA_TYPES) Download.QUARTERS
  && negb (Files.scanned Files.INTERNET_OUTPUT_NAME)
  && negb (Files.scanned Files.MATRIX_OUTPUT_NAME).

Lemma scan_table_true : scan_table = true.
Proof. vm_compute. reflexivity. Qed.

End ScanFacts.

(** X20: in [data/internet], [get_all_unique_quadkeys] reads every quarter
    file the download writes (for the quarters of [QUARTERS] and the data
    types of [etl_internet]) and skips the cache that [process_quarter_file]
    writes beside it, the internet output and the matrix output. *)
Theorem quadkey_scan_reads_raw_files_only (year quarter : nat) (data_type : string)
        (Hq : In (year, quarter) Download.QUARTERS) (Hd : In data_type Internet.DATA_TYPES) :
  Files.scanned (Files.file_name year quarter data_type) = true /\
  Files.scanned (Files.cache_name (Files.file_name year quarter data_type)) = false /\
  Files.scanned Files.INTERNET_OUTPUT_NAME = false /\
  Files.scanned Files.MATRIX_OUTPUT_NAME = false.
Proof.
  pose proof ScanFacts.scan_table_true as T. unfold ScanFacts.scan_table in T.
  apply andb_prop in T as [T Hm]. apply andb_prop in T as [T Hi].
  rewrite forallb_forall in T. specialize (T _ Hq). rewrite forallb_forall in T.
  specialize (T _ Hd). apply andb_prop in T as [T1 T2]. simpl in T1, T2.
  apply negb_true_iff in T2, Hi, Hm. auto.
Qed.

Lemma quadkey_scan_reads_raw_files_only_witness :
  In (2023, 1)%nat Download.QUARTERS /\ In "fixed"%string Internet.DATA_TYPES /\
  Files.scanned (Files.file_name 2023 1 "fixed") = true /\
  Files.scanned (Files.cache_name (Files.file_name 2023 1 "fixed")) = false /\
  Files.scanned Files.INTERNET_OUTPUT_NAME = false /\
  Files.scanned Files.MATRIX_OUTPUT_NAME = false.
Proof.
  assert (Hq : In (2023, 1)%nat Download.QUARTERS) by (vm_compute; tauto).
  assert (Hd : In "fixed"%string Internet.DATA_TYPES) by (simpl; tauto).
  split; [exact Hq|]. split; [exact Hd|].
  exact (quadkey_scan_reads_raw_files_only 2023 1 "fixed" Hq Hd).
Defined.

Module PipelineFacts.

Import Pipeline.

Definition stops_at_first_failure (exit_code : string -> Z) (steps : list (string * string))
           (res : list string * exit_status) : Prop :=
  let '(ran, st) := res in
  (st = Completed /\ ran = map fst steps /\ Forall (fun p => exit_code p = 0%Z) ran) \/
  (exists pre p desc post,
      steps = pre ++ (p, desc) :: post /\ ran = map fst pre ++ [p] /\
      Forall (fun q => exit_code q = 0%Z) (map fst pre) /\ exit_code p <> 0%Z /\
      st = Exited 1).

Lemma run_steps_spec exit_code steps :
  stops_at_first_failure exit_code steps (run_steps exit_code steps).
Proof.
  induction steps as [|[p desc] r IH]; simpl; [left; auto|].
  unfold run_script. destruct (Z.eqb_spec (exit_code p) 0) as [E|E].
  - destruct (run_steps exit_code r) as [ran st].
    destruct IH as [[-> [-> H]] | [pre [q [d [post [-> [-> [H [Hq ->]]]]]]]]].
    + left. split; [reflexivity|]. split; [reflexivity|]. constructor; assumption.
    + right. exists ((p, desc) :: pre), q, d, post.
      split; [reflexivity|]. split; [reflexivity|].
      split; [simpl; constructor; assumption|]. auto.
  - right. exists [], p, desc, r. simpl. split; [reflexivity|]. split; [reflexivity|].
    split; [constructor|]. auto.
Qed.

End PipelineFacts.

(** X21: [run_pipeline.main] runs the six scripts of the pipeline in order
    and stops at the first one that exits with a non-zero status: either all
    six ran and succeeded, or it ran a prefix of successful scripts and the
    failing one, nothing after it, and exits with status 1. *)
Theorem pipeline_stops_at_first_failure (exit_code : string -> Z) :
  let '(ran, st) := Pipeline.main exit_code in
  (st = Pipeline.Completed /\ ran = map fst Pipeline.STEPS /\
   Forall (fun p => exit_code p = 0%Z) ran) \/
  (exists pre p desc post,
      Pipeline.STEPS = pre ++ (p, desc) :: post /\ ran = map fst pre ++ [p] /\
      Forall (fun q => exit_code q = 0%Z) (map fst pre) /\ exit_code p <> 0%Z /\
      st = Pipeline.Exited 1).
Proof. exact (PipelineFacts.run_steps_spec exit_code Pipeline.STEPS). Qed.

Module ValidateFacts.

Import Validate.

Lemma non_null_In (l : list (option Q)) x : In x (Internet.non_null l) <-> In (Some x) l.
Proof.
  induction l as [|[y|] r IH]; simpl; [tauto| |].
  - rewrite IH. split; intros [H|H]; auto; [left; congruence | inversion H; auto].
  - rewrite IH. split; [auto|]. intros [H|H]; [discriminate | exact H].
Qed.

Lemma non_null_nonempty (l : list (option Q)) :
  Internet.non_null l <> [] <-> exists x, In (Some x) l.
Proof.
  split.
  - destruct (Internet.non_null l) as [|x r] eqn:E; [congruence|].
    intros _. exists x. apply non_null_In. rewrite E. left; reflexivity.
  - intros [x Hx] E. apply non_null_In in Hx. rewrite E in Hx. exact Hx.
Qed.

Lemma insert_q_nonempty x s : insert_q x s <> [].
Proof. destruct s; simpl; [discriminate|]. destruct (Qle_bool x q); discriminate. Qed.

Lemma sort_q_nil l : sort_q l = [] <-> l = [].
Proof.
  destruct l as [|x r]; simpl; [tauto|].
  split; [intros E; exfalso; exact (insert_q_nonempty _ _ E) | discriminate].
Qed.

Lemma formats_mean l : formats (pl_mean l) = true <-> exists x, In (Some x) l.
Proof.
  rewrite <- non_null_nonempty. unfold pl_mean.
  destruct (Internet.non_null l); simpl; split; congruence.
Qed.

Lemma formats_median l : formats (pl_median l) = true <-> exists x, In (Some x) l.
Proof.
  rewrite <- non_null_nonempty, <- (sort_q_nil (Internet.non_null l)). unfold pl_median.
  destruct (sort_q (Internet.non_null l)); simpl; split; congruence.
Qed.

Lemma formats_max l : formats (pl_max l) = true <-> exists x, In (Some x) l.
Proof.
  rewrite <- non_null_nonempty. unfold pl_max.
  destruct (Internet.non_null l); simpl; split; congruence.
Qed.

Lemma formats_div a (n : nat) : formats (py_div a (inject_Z (Z.of_nat n))) = true <-> n <> 0%nat.
Proof.
  unfold py_div. destruct (Qeq_bool (inject_Z (Z.of_nat n)) 0) eqn:E; simpl.
  - apply Qeq_bool_iff in E. unfold Qeq in E. simpl in E. split; [discriminate | lia].
  - split; [|reflexivity]. intros _ ->. discriminate E.
Qed.

Lemma count_nulls_le l : (count_nulls l <= List.length l)%nat.
Proof.
  unfold count_nulls. induction l as [|[x|] r IH]; simpl; lia.
Qed.

Lemma nulls_ok_true df :
  Forall (fun kv => List.length (snd kv) = nrows df) (columns df) ->
  forallb (fun kv => if Nat.ltb 0 (count_nulls (snd kv))
                     then formats (py_div (inject_Z (Z.of_nat (count_nulls (snd kv))))
                                          (inject_Z (Z.of_nat (nrows df))))
                     else true) (columns df) = true.
Proof.
  intros Hwf. apply forallb_forall. intros kv Hkv.
  rewrite Forall_forall in Hwf. specialize (Hwf kv Hkv).
  destruct (Nat.ltb_spec 0 (count_nulls (snd kv))) as [Hc|Hc]; [|reflexivity].
  apply formats_div. pose proof (count_nulls_le (snd kv)). lia.
Qed.

Lemma stats_part (c : option (list (option Q))) :
  match c with
  | None => true
  | Some l => formats (pl_mean l) && formats (pl_median l) && formats (pl_max l)
  end = true <-> (forall l, c = Some l -> exists x, In (Some x) l).
Proof.
  destruct c as [l|]; [|split; [discriminate | reflexivity]].
  rewrite !andb_true_iff, formats_mean, formats_median, formats_max.
  split; [intros [[H _] _] l' E; injection E as <-; exact H|].
  intros H. specialize (H l eq_refl). tauto.
Qed.

Lemma pop_part (c : option (list (option Q))) :
  match c with
  | None => true
  | Some l => formats (Some (pl_sum l)) && formats (pl_mean l) && formats (pl_median l)
              && formats (pl_max l)
  end = true <-> (forall l, c = Some l -> exists x, In (Some x) l).
Proof.
  rewrite <- stats_part. destruct c as [l|]; [|tauto]. simpl formats at 1.
  rewrite andb_true_l. tauto.
Qed.

Lemma some_filter_value (l : list (option Q)) :
  (0 < List.length (filter (fun v => match v with Some _ => true | None => false end) l))%nat ->
  exists x, In (Some x) (filter (fun v => match v with Some _ => true | None => false end) l).
Proof.
  destruct (filter _ l) as [|v r] eqn:E; simpl; [lia|]. intros _.
  assert (Hv : In v (filter (fun v => match v with Some _ => true | None => false end) l))
    by (rewrite E; left; reflexivity).
  apply filter_In in Hv as [_ Hv]. destruct v as [x|]; [|discriminate].
  exists x. left; reflexivity.
Qed.

Lemma fixed_part (c : option (list (option Q))) (n : nat) :
  match c with
  | None => true
  | Some l =>
      formats (py_div (inject_Z (Z.of_nat (List.length
        (filter (fun v => match v with Some _ => true | None => false end) l))))
        (inject_Z (Z.of_nat n)))
      && (if Nat.ltb 0 (List.length
               (filter (fun v => match v with Some _ => true | None => false end) l))
          then formats (pl_mean (filter (fun v => match v with Some _ => true | None => false end) l))
               && formats (pl_median (filter (fun v => match v with Some _ => true | None => false end) l))
          else true)
  end = true <-> (c <> None -> n <> 0%nat).
Proof.
  destruct c as [l|]; [|split; [intros _ H; congruence | reflexivity]].
  rewrite andb_true_iff, formats_div.
  destruct (Nat.ltb_spec 0 (List.length
              (filter (fun v => match v with Some _ => true | None => false end) l))) as [Hp|Hp].
  - rewrite andb_true_iff, formats_mean, formats_median.
    pose proof (some_filter_value l Hp) as Hs. split; [tauto|].
    intros Hn. split; [apply Hn; discriminate | tauto].
  - split; [tauto|]. intros Hn. split; [apply Hn; discriminate | reflexivity].
Qed.

End ValidateFacts.

(** X22: on a frame whose columns all have its row count, [validate_output]
    passes exactly when the file exists, it is read, [pop_total] and
    [health_distance] (when present) each have a non-null value, and the
    frame has a row when [fixed_download_2023] is present; a missing expected
    column never makes it fail. *)
Theorem validate_output_passes (file_exists : bool) (read : option Validate.frame)
        (Hwf : forall df, read = Some df ->
               Forall (fun kv => List.length (snd kv) = Validate.nrows df) (Validate.columns df)) :
  Validate.validate_output file_exists read = true <->
  file_exists = true /\
  exists df, read = Some df /\
    (forall l, Validate.column df "pop_total" = Some l -> exists x, In (Some x) l) /\
    (forall l, Validate.column df "health_distance" = Some l -> exists x, In (Some x) l) /\
    (Validate.column df "fixed_download_2023" <> None -> Validate.nrows df <> 0%nat).
Proof.
  unfold Validate.validate_output. destruct file_exists; simpl negb; cbv iota.
  2: { split; [discriminate | intros [H _]; discriminate]. }
  destruct read as [df|].
  2: { split; [discriminate | intros [_ [df [H _]]]; discriminate]. }
  cbv zeta. rewrite (ValidateFacts.nulls_ok_true df (Hwf df eq_refl)), andb_true_l.
  rewrite !andb_true_iff, ValidateFacts.pop_part, ValidateFacts.stats_part,
    ValidateFacts.fixed_part.
  split.
  - intros [[Hp Hh] Hf]. split; [reflexivity|]. exists df. auto.
  - intros [_ [df' [E [Hp [Hh Hf]]]]]. injection E as <-. auto.
Qed.

Lemma validate_output_passes_witness :
  Validate.validate_output true
    (Some (Validate.mk_frame 2 [("pop_total"%string, [Some 5; None])])) = true /\
  Validate.validate_output true
    (Some (Validate.mk_frame 2 [("pop_total"%string, [None; None])])) = false.
Proof.
  assert (Hwf1 : forall df, Some (Validate.mk_frame 2 [("pop_total"%string, [Some 5; None])])
                            = Some df ->
                 Forall (fun kv => List.length (snd kv) = Validate.nrows df) (Validate.columns df))
    by (intros df E; injection E as <-; repeat constructor).
  assert (Hwf2 : forall df, Some (Validate.mk_frame 2 [("pop_total"%string, [None; None])])
                            = Some df ->
                 Forall (fun kv => List.length (snd kv) = Validate.nrows df) (Validate.columns df))
    by (intros df E; injection E as <-; repeat constructor).
  split.
  - apply (proj2 (validate_output_passes true _ Hwf1)).
    split; [reflexivity|]. eexists; split; [reflexivity|].
    split; [intros l E; injection E as <-; exists 5; left; reflexivity|].
    split; [intros l E; discriminate E | intros E; exfalso; apply E; reflexivity].
  - destruct (Validate.validate_output true _) eqn:V; [|reflexivity].
    apply (proj1 (validate_output_passes true _ Hwf2)) in V.
    destruct V as [_ [df [E [Hp _]]]]. injection E as <-.
    destruct (Hp _ eq_refl) as [x Hx]. simpl in Hx. exfalso. intuition discriminate.
Defined.
